(** * OpenStack autoscaler: node-group lifecycle and its protocol mapping

    A shallow embedding of [pkg/provider] (provider.go, nodegroup.go) and of
    the gRPC adapter [pkg/grpc], with the OpenStack API they consume modelled
    as an explicit world: the instances, flavors and images held by the
    backend, a clock, a fault script for the backend calls, the log of the
    calls issued, and a heap for the [*apiv1.Node] objects the template cache
    hands out.  Logging ([klog]) has no effect on any result and is left
    out. *)

From Stdlib Require Import ZArith Ascii String List Lia.
From stdpp Require Import base option list gmap strings pretty.

Local Open Scope string_scope.
Local Open Scope list_scope.
Local Open Scope Z_scope.

(* ===================================================================== *)
(** ** Go's machine integers *)
(* ===================================================================== *)

Module GoInt.

Definition max_int : Z := 9223372036854775807.
Definition min_int : Z := -9223372036854775808.
Definition max_int32 : Z := 2147483647.
Definition min_int32 : Z := -2147483648.

(** Two's-complement reduction to [bits] bits. *)
Definition wrap (bits : Z) (z : Z) : Z :=
  (z + 2 ^ (bits - 1)) mod 2 ^ bits - 2 ^ (bits - 1).

Definition wrap64 : Z -> Z := wrap 64.
Definition wrap32 : Z -> Z := wrap 32.

Definition in_int (z : Z) : Prop := min_int <= z <= max_int.
Definition in_int32 (z : Z) : Prop := min_int32 <= z <= max_int32.

(** [a + b] and [a * b] on Go's [int] (64-bit). *)
Definition int_add (a b : Z) : Z := wrap64 (a + b).
Definition int_mul (a b : Z) : Z := wrap64 (a * b).

(** [int32(x)] for an [int] [x]. *)
Definition to_int32 (x : Z) : Z := wrap32 x.

(** [time.Duration] subtraction saturates instead of wrapping. *)
Definition saturate (z : Z) : Z :=
  if z <? min_int then min_int else if max_int <? z then max_int else z.

End GoInt.
Import GoInt.

(* ===================================================================== *)
(** ** Go's [strings] and [encoding/base64] as used by the provider *)
(* ===================================================================== *)

Module GoStrings.

(** [strip_prefix p s] is [Some rest] when [s = p ++ rest]. *)
Fixpoint strip_prefix (p s : string) : option string :=
  match p, s with
  | EmptyString, _ => Some s
  | String a p', String b s' =>
      if Ascii.eqb a b then strip_prefix p' s' else None
  | String _ _, EmptyString => None
  end.

Definition HasPrefix (s p : string) : bool :=
  match strip_prefix p s with Some _ => true | None => false end.

(** [strings.TrimPrefix]: [s] without the leading [p], or [s] itself. *)
Definition TrimPrefix (s p : string) : string :=
  match strip_prefix p s with Some rest => rest | None => s end.

(** [strings.Contains]: [substr] occurs somewhere in [s]. *)
Fixpoint Contains (s substr : string) : bool :=
  HasPrefix s substr ||
  match s with
  | EmptyString => false
  | String _ s' => Contains s' substr
  end.

Definition b64_alphabet : string :=
  "ABCDEFGHIJKLMNOPQRSTUVWXYZabcdefghijklmnopqrstuvwxyz0123456789+/".

Definition b64_char (n : N) : ascii :=
  match String.get (N.to_nat n) b64_alphabet with
  | Some c => c
  | None => "="%char
  end.

(** [base64.StdEncoding.EncodeToString] on the bytes of a string. *)
Fixpoint b64_bytes (bs : list N) : string :=
  match bs with
  | [] => ""
  | [a] =>
      String (b64_char (a / 4))
        (String (b64_char ((a mod 4) * 16)) "==")
  | [a; b] =>
      String (b64_char (a / 4))
        (String (b64_char ((a mod 4) * 16 + b / 16))
           (String (b64_char ((b mod 16) * 4)) "="))
  | a :: b :: c :: rest =>
      String (b64_char (a / 4))
        (String (b64_char ((a mod 4) * 16 + b / 16))
           (String (b64_char ((b mod 16) * 4 + c / 64))
              (String (b64_char (c mod 64)) (b64_bytes rest))))
  end%N.

Definition EncodeToString (s : string) : string :=
  b64_bytes (map N_of_ascii (list_ascii_of_string s)).

End GoStrings.
Import GoStrings.

(* ===================================================================== *)
(** ** Data model *)
(* ===================================================================== *)

(** [config.NodeGroupConfig] (pkg/config/config.go). *)
Module config.
Record NodeGroupConfig := mkNodeGroupConfig {
  ID : string;
  Name : string;
  MinSize : Z;
  MaxSize : Z;
  FlavorName : string;
  ImageName : string;
  ImageID : string;
  KeyName : string;
  SecurityGroups : list string;
  NetworkID : string;
  SubnetID : string;
  FloatingIPPool : string;
  AvailabilityZone : string;
  UserData : string;
  UserDataFile : string;
  Metadata : gmap string string;
  Labels : gmap string string
}.
End config.

(** The gophercloud records the provider reads and writes. *)
Module servers.
Record Server := mkServer {
  ID : string;
  Name : string;
  Status : string;
  Metadata : gmap string string
}.

Record Network := mkNetwork { UUID : string }.

Record CreateOpts := mkCreateOpts {
  opts_Name : string;
  opts_ImageRef : string;
  opts_FlavorRef : string;
  opts_UserData : string;
  opts_Metadata : gmap string string;
  opts_SecurityGroups : list string;
  opts_AvailabilityZone : string;
  opts_Networks : list Network
}.
End servers.

Module flavors.
Record Flavor := mkFlavor {
  ID : string;
  Name : string;
  VCPUs : Z;
  RAM : Z
}.
End flavors.

Module images.
Record Image := mkImage {
  ID : string;
  Name : string
}.
End images.

(** The part of [apiv1.Node] the template is built from. *)
Module apiv1.
Inductive Format := DecimalSI | BinarySI.

(** [resource.NewQuantity(int64(value), format)]. *)
Record Quantity := mkQuantity {
  q_value : Z;
  q_format : Format
}.

Record NodeCondition := mkNodeCondition {
  cond_Type : string;
  cond_Status : string
}.

Record Node := mkNode {
  Name : string;
  Annotations : gmap string string;
  Labels : gmap string string;
  ProviderID : string;
  Capacity : gmap string Quantity;
  Allocatable : gmap string Quantity;
  Conditions : list NodeCondition
}.

Definition ResourceCPU : string := "cpu".
Definition ResourceMemory : string := "memory".
Definition NodeReady : string := "Ready".
Definition ConditionTrue : string := "True".
End apiv1.

(** internal/utils/utils.go *)
Module utils.
Definition ResourceQuantity (value : Z) : apiv1.Quantity :=
  apiv1.mkQuantity (wrap64 value) apiv1.DecimalSI.

Definition ResourceQuantityFromBytes (bytes : Z) : apiv1.Quantity :=
  apiv1.mkQuantity (wrap64 bytes) apiv1.BinarySI.
End utils.

(* ===================================================================== *)
(** ** The world: backend, clock, call log and object heap *)
(* ===================================================================== *)

(** A request sent to the infrastructure API. *)
Inductive Call :=
| CallServersList
| CallServersCreate (opts : servers.CreateOpts)
| CallServersDelete (id : string)
| CallServersGet (id : string)
| CallFlavorsGet (id : string)
| CallFlavorsListDetail
| CallImagesList (name : string).

(** What the backend does with the n-th request: serve it, fail it, or
    answer with a body that later fails to decode. *)
Inductive Fault := NoFault | RequestFails | ExtractFails.

(** The pages a list request returned, before extraction. *)
Inductive Pages (A : Type) :=
| Decodable (items : A)
| Malformed.
Arguments Decodable {A} items.
Arguments Malformed {A}.

(** Errors, with the shape [fmt.Errorf] gives them: a leaf carrying the
    formatted arguments, or a context message wrapping a cause ([%w]). *)
Inductive error :=
| BackendError (c : Call)                    (* the client returned an error for [c] *)
| ExtractError (c : Call)                    (* the body of [c]'s answer did not decode *)
| ErrDeltaNotPositive (delta : Z)            (* "delta must be positive, got %d" *)
| ErrDeltaNotNegative (delta : Z)            (* "delta must be negative, got %d" *)
| ErrAboveMaxSize (newSize maxSize : Z)      (* "cannot increase size to %d, max size is %d" *)
| ErrBelowMinSize (newSize minSize : Z)      (* "cannot decrease size to %d, min size is %d" *)
| ErrInvalidProviderID (providerID : string) (* "invalid provider ID format: %s" *)
| ErrFlavorNotFound (name : string)          (* "flavor %s not found" *)
| ErrImageNotFound (name : string)           (* "image %s not found" *)
| ErrIDRequired                              (* "node group ID is required" *)
| ErrMinSizeNegative                         (* "minSize cannot be negative" *)
| ErrMaxBelowMin (maxSize minSize : Z)       (* "maxSize (%d) must be >= minSize (%d)" *)
| ErrFlavorNameRequired                      (* "flavorName is required" *)
| ErrImageRequired                           (* "either imageName or imageId is required" *)
| ErrNilDereference                          (* a pointer that addresses no object *)
| Wrapf (context : string) (cause : error).  (* fmt.Errorf(context + ": %w", cause) *)

Inductive result (A : Type) :=
| Ok (a : A)
| Err (e : error).
Arguments Ok {A} a.
Arguments Err {A} e.

(** An address of a [*apiv1.Node]. *)
Definition loc := nat.

Record World := mkWorld {
  w_servers : list servers.Server;   (* instances held by the backend *)
  w_flavors : list flavors.Flavor;   (* the flavor catalog *)
  w_images : list images.Image;      (* the image catalog *)
  w_next_id : nat;                   (* the backend's id generator *)
  w_now : Z;                         (* wall clock, ns since the Unix epoch *)
  w_faults : nat -> Fault;           (* fate of the n-th backend request *)
  w_calls : list Call;               (* requests issued so far, oldest first *)
  w_heap : list apiv1.Node           (* allocated Node objects, by address *)
}.

Definition set_servers (l : list servers.Server) (w : World) : World :=
  mkWorld l (w_flavors w) (w_images w) (w_next_id w) (w_now w)
          (w_faults w) (w_calls w) (w_heap w).

Definition set_next_id (n : nat) (w : World) : World :=
  mkWorld (w_servers w) (w_flavors w) (w_images w) n (w_now w)
          (w_faults w) (w_calls w) (w_heap w).

Definition set_now (t : Z) (w : World) : World :=
  mkWorld (w_servers w) (w_flavors w) (w_images w) (w_next_id w) t
          (w_faults w) (w_calls w) (w_heap w).

Definition set_calls (l : list Call) (w : World) : World :=
  mkWorld (w_servers w) (w_flavors w) (w_images w) (w_next_id w) (w_now w)
          (w_faults w) l (w_heap w).

Definition set_heap (h : list apiv1.Node) (w : World) : World :=
  mkWorld (w_servers w) (w_flavors w) (w_images w) (w_next_id w) (w_now w)
          (w_faults w) (w_calls w) h.

(** Time passing between two operations. *)
Definition advance (d : Z) (w : World) : World := set_now (w_now w + d) w.

(** *** The state-and-error monad the operations run in *)

Definition M (A : Type) : Type := World -> result A * World.

Definition ret {A} (a : A) : M A := fun w => (Ok a, w).

Definition fail {A} (e : error) : M A := fun w => (Err e, w).

Definition bind {A B} (m : M A) (k : A -> M B) : M B :=
  fun w =>
    match m w with
    | (Ok a, w') => k a w'
    | (Err e, w') => (Err e, w')
    end.

(** [if err != nil { return fmt.Errorf(context + ": %w", err) }] *)
Definition wrapf {A} (context : string) (m : M A) : M A :=
  fun w =>
    match m w with
    | (Ok a, w') => (Ok a, w')
    | (Err e, w') => (Err (Wrapf context e), w')
    end.

Definition lift {A} (r : result A) : M A := fun w => (r, w).

Notation "'let*' x ':=' m 'in' k" := (bind m (fun x => k))
  (at level 10, x pattern, m at level 100, k at level 200).

(** *** The infrastructure API *)

(** Send request [c]: it is logged, and the fault script decides its fate. *)
Definition request (c : Call) : M Fault :=
  fun w => (Ok (w_faults w (length (w_calls w))), set_calls (w_calls w ++ [c]) w).

Definition find_server (id : string) (l : list servers.Server) : option servers.Server :=
  List.find (fun s => String.eqb (servers.ID s) id) l.

Definition find_flavor (id : string) (l : list flavors.Flavor) : option flavors.Flavor :=
  List.find (fun f => String.eqb (flavors.ID f) id) l.

(** [servers.List(client, ListOpts{}).AllPages(ctx)] *)
Definition servers_List_AllPages : M (Pages (list servers.Server)) :=
  let* f := request CallServersList in
  fun w =>
    match f with
    | NoFault => (Ok (Decodable (w_servers w)), w)
    | ExtractFails => (Ok Malformed, w)
    | RequestFails => (Err (BackendError CallServersList), w)
    end.

(** [servers.ExtractServers(allPages)] *)
Definition servers_ExtractServers (p : Pages (list servers.Server))
  : result (list servers.Server) :=
  match p with
  | Decodable l => Ok l
  | Malformed => Err (ExtractError CallServersList)
  end.

(** The instance the backend records for a creation request: the requested
    name and metadata, a fresh id, and the status of an instance being
    built. *)
Definition new_server (n : nat) (opts : servers.CreateOpts) : servers.Server :=
  servers.mkServer ("srv-" +:+ pretty n) (servers.opts_Name opts) "BUILD"
                   (servers.opts_Metadata opts).

(** [servers.Create(ctx, client, opts, nil).Extract()] *)
Definition servers_Create (opts : servers.CreateOpts) : M servers.Server :=
  let* f := request (CallServersCreate opts) in
  fun w =>
    match f with
    | NoFault =>
        let s := new_server (w_next_id w) opts in
        (Ok s, set_next_id (S (w_next_id w)) (set_servers (w_servers w ++ [s]) w))
    | _ => (Err (BackendError (CallServersCreate opts)), w)
    end.

(** [servers.Delete(ctx, client, id).ExtractErr()] *)
Definition servers_Delete (id : string) : M unit :=
  let* f := request (CallServersDelete id) in
  fun w =>
    match f, find_server id (w_servers w) with
    | NoFault, Some _ =>
        (Ok tt,
         set_servers (List.filter (fun s => negb (String.eqb (servers.ID s) id))
                                  (w_servers w)) w)
    | _, _ => (Err (BackendError (CallServersDelete id)), w)
    end.

(** [servers.Get(client, id).Extract()] *)
Definition servers_Get (id : string) : M servers.Server :=
  let* f := request (CallServersGet id) in
  fun w =>
    match f, find_server id (w_servers w) with
    | NoFault, Some s => (Ok s, w)
    | _, _ => (Err (BackendError (CallServersGet id)), w)
    end.

(** [flavors.Get(ctx, client, id).Extract()], for an [id] the flavor API
    serves as a flavor resource: the flavor with that id, or an error.  An
    [id] that is itself a route of that API (["detail"] is the listing) is
    answered with another document, from which [Extract] returns a nil flavor
    and no error; such ids are outside what this definition describes. *)
Definition flavors_Get (id : string) : M flavors.Flavor :=
  let* f := request (CallFlavorsGet id) in
  fun w =>
    match f, find_flavor id (w_flavors w) with
    | NoFault, Some fl => (Ok fl, w)
    | _, _ => (Err (BackendError (CallFlavorsGet id)), w)
    end.

(** [flavors.ListDetail(client, ListOpts{}).AllPages(ctx)] *)
Definition flavors_ListDetail_AllPages : M (Pages (list flavors.Flavor)) :=
  let* f := request CallFlavorsListDetail in
  fun w =>
    match f with
    | NoFault => (Ok (Decodable (w_flavors w)), w)
    | ExtractFails => (Ok Malformed, w)
    | RequestFails => (Err (BackendError CallFlavorsListDetail), w)
    end.

Definition flavors_ExtractFlavors (p : Pages (list flavors.Flavor))
  : result (list flavors.Flavor) :=
  match p with
  | Decodable l => Ok l
  | Malformed => Err (ExtractError CallFlavorsListDetail)
  end.

(** [images.List(client, ListOpts{Name: name}).AllPages(ctx)] *)
Definition images_List_AllPages (name : string) : M (Pages (list images.Image)) :=
  let* f := request (CallImagesList name) in
  fun w =>
    match f with
    | NoFault =>
        (Ok (Decodable (List.filter (fun i => String.eqb (images.Name i) name)
                                    (w_images w))), w)
    | ExtractFails => (Ok Malformed, w)
    | RequestFails => (Err (BackendError (CallImagesList name)), w)
    end.

Definition images_ExtractImages (name : string) (p : Pages (list images.Image))
  : result (list images.Image) :=
  match p with
  | Decodable l => Ok l
  | Malformed => Err (ExtractError (CallImagesList name))
  end.

(** *** Clock and heap *)

(** [time.Now()] *)
Definition time_Now : M Z := fun w => (Ok (w_now w), w).

(** The zero [time.Time{}]: January 1, year 1, in ns before the Unix epoch. *)
Definition time_zero : Z := -62135596800 * 1000000000.

(** [t.Unix()] *)
Definition time_Unix (t : Z) : Z := t / 1000000000.

(** [time.Since(t)], a [time.Duration]. *)
Definition time_Since (t : Z) : M Z := fun w => (Ok (saturate (w_now w - t)), w).

Definition time_Minute : Z := 60 * 1000000000.

(** [&apiv1.Node{...}]: a new object at a fresh address. *)
Definition alloc (n : apiv1.Node) : M loc :=
  fun w => (Ok (length (w_heap w)), set_heap (w_heap w ++ [n]) w).

(** [*p] *)
Definition load (p : loc) : M apiv1.Node :=
  fun w =>
    match w_heap w !! p with
    | Some n => (Ok n, w)
    | None => (Err ErrNilDereference, w)
    end.

(** [*p = n], a caller writing through a pointer it holds. *)
Definition store (p : loc) (n : apiv1.Node) (w : World) : World :=
  set_heap (<[p := n]> (w_heap w)) w.

(** [p.DeepCopy()]: a new object with the same contents. *)
Definition DeepCopy (p : loc) : M loc :=
  let* n := load p in alloc n.

(* ===================================================================== *)
(** ** Node group (pkg/provider/nodegroup.go) *)
(* ===================================================================== *)

Definition ProviderName : string := "openstack".

(** [OpenStackNodeGroup].  The [Provider] back pointer only reaches the API
    clients, which live in the world; [mutex] serialises the methods on the
    template cache, which run one at a time here. *)
Record OpenStackNodeGroup := mkNodeGroup {
  Config : config.NodeGroupConfig;
  templateNodeInfo : option loc;     (* [nil], or the cached template *)
  lastRefresh : Z
}.

Definition validateConfig (ng : OpenStackNodeGroup) : result unit :=
  let cfg := Config ng in
  if String.eqb (config.ID cfg) "" then Err ErrIDRequired
  else if config.MinSize cfg <? 0 then Err ErrMinSizeNegative
  else if config.MaxSize cfg <? config.MinSize cfg
       then Err (ErrMaxBelowMin (config.MaxSize cfg) (config.MinSize cfg))
  else if String.eqb (config.FlavorName cfg) "" then Err ErrFlavorNameRequired
  else if String.eqb (config.ImageName cfg) "" && String.eqb (config.ImageID cfg) ""
       then Err ErrImageRequired
  else Ok tt.

Definition NewOpenStackNodeGroup (cfg : config.NodeGroupConfig)
  : result OpenStackNodeGroup :=
  let ng := mkNodeGroup cfg None time_zero in
  match validateConfig ng with
  | Err e => Err (Wrapf "invalid node group configuration" e)
  | Ok _ => Ok ng
  end.

Definition ID (ng : OpenStackNodeGroup) : string := config.ID (Config ng).
Definition MinSize (ng : OpenStackNodeGroup) : Z := config.MinSize (Config ng).
Definition MaxSize (ng : OpenStackNodeGroup) : Z := config.MaxSize (Config ng).

(** [ContainsNode]: the attribution of a server to this group. *)
Definition ContainsNode (ng : OpenStackNodeGroup) (server : servers.Server) : bool :=
  match servers.Metadata server !! "nodegroup" with
  | Some nodeGroupID => String.eqb nodeGroupID (config.ID (Config ng))
  | None => Contains (servers.Name server) (config.ID (Config ng))
  end.

Definition getInstances (ng : OpenStackNodeGroup) : M (list servers.Server) :=
  let* allPages := wrapf "failed to list servers" servers_List_AllPages in
  let* allServers := wrapf "failed to extract servers"
                           (lift (servers_ExtractServers allPages)) in
  ret (List.filter (ContainsNode ng) allServers).

(** The counting loop of [TargetSize].  [count] never exceeds the length of
    the slice it ranges over, itself an [int], so [count++] is exact. *)
Definition count_active (instances : list servers.Server) : Z :=
  fold_left
    (fun count instance =>
       if String.eqb (servers.Status instance) "ACTIVE"
          || String.eqb (servers.Status instance) "BUILD"
       then count + 1 else count)
    instances 0.

Definition TargetSize (ng : OpenStackNodeGroup) : M Z :=
  let* instances := wrapf "failed to get instances" (getInstances ng) in
  ret (count_active instances).

Definition Nodes (ng : OpenStackNodeGroup) : M (list servers.Server) :=
  wrapf "failed to get instances" (getInstances ng).

Definition getFlavor (ng : OpenStackNodeGroup) : M flavors.Flavor :=
  fun w =>
    match flavors_Get (config.FlavorName (Config ng)) w with
    | (Ok flavor, w1) => (Ok flavor, w1)
    | (Err _, w1) =>
        (let* allPages := wrapf "failed to list flavors" flavors_ListDetail_AllPages in
         let* allFlavors := wrapf "failed to extract flavors"
                                  (lift (flavors_ExtractFlavors allPages)) in
         match List.find (fun f => String.eqb (flavors.Name f)
                                               (config.FlavorName (Config ng)))
                         allFlavors with
         | Some f => ret f
         | None => fail (ErrFlavorNotFound (config.FlavorName (Config ng)))
         end) w1
    end.

Definition getImageID (ng : OpenStackNodeGroup) : M string :=
  if negb (String.eqb (config.ImageID (Config ng)) "")
  then ret (config.ImageID (Config ng))
  else
    let name := config.ImageName (Config ng) in
    let* allPages := wrapf "failed to list images" (images_List_AllPages name) in
    let* allImages := wrapf "failed to extract images"
                            (lift (images_ExtractImages name allPages)) in
    match allImages with
    | [] => fail (ErrImageNotFound name)
    | img :: _ => ret (images.ID img)
    end.

(** The metadata sent with a creation request.  [createOpts.Metadata] shares
    the map [metadata], so the [key_name] entry written after [createOpts]
    is built is part of the request as well. *)
Definition create_metadata (cfg : config.NodeGroupConfig) : gmap string string :=
  let metadata :=
    <["created_by" := "openstack-autoscaler"]>
      (<["nodegroup" := config.ID cfg]> (config.Metadata cfg ∪ ∅)) in
  if negb (String.eqb (config.KeyName cfg) "")
  then <["key_name" := config.KeyName cfg]> metadata
  else metadata.

Definition createServer (ng : OpenStackNodeGroup) : M unit :=
  let cfg := Config ng in
  let* imageID := wrapf "failed to get image ID" (getImageID ng) in
  let* flavor := wrapf "failed to get flavor" (getFlavor ng) in
  let userData :=
    if negb (String.eqb (config.UserData cfg) "")
    then EncodeToString (config.UserData cfg)
    else config.UserData cfg in
  let securityGroups := config.SecurityGroups cfg in
  let* now := time_Now in
  let serverName := config.ID cfg +:+ "-" +:+ pretty (time_Unix now) in
  let createOpts :=
    servers.mkCreateOpts
      serverName imageID (flavors.ID flavor) userData
      (create_metadata cfg) securityGroups
      (config.AvailabilityZone cfg)
      (if negb (String.eqb (config.NetworkID cfg) "")
       then [servers.mkNetwork (config.NetworkID cfg)] else []) in
  let* _ := wrapf "failed to create server" (servers_Create createOpts) in
  ret tt.

(** [for i := 0; i < delta; i++ { createServer }], stopping at the first
    error. *)
Fixpoint create_servers (ng : OpenStackNodeGroup) (n : nat) : M unit :=
  match n with
  | O => ret tt
  | S n' =>
      let* _ := wrapf "failed to create server" (createServer ng) in
      create_servers ng n'
  end.

Definition IncreaseSize (ng : OpenStackNodeGroup) (delta : Z) : M unit :=
  if delta <=? 0 then fail (ErrDeltaNotPositive delta)
  else
    let* currentSize := wrapf "failed to get current size" (TargetSize ng) in
    let newSize := int_add currentSize delta in
    if newSize >? config.MaxSize (Config ng)
    then fail (ErrAboveMaxSize newSize (config.MaxSize (Config ng)))
    else create_servers ng (Z.to_nat delta).

Definition DecreaseTargetSize (ng : OpenStackNodeGroup) (delta : Z) : M unit :=
  if delta >=? 0 then fail (ErrDeltaNotNegative delta)
  else
    let* currentSize := wrapf "failed to get current size" (TargetSize ng) in
    let newSize := int_add currentSize delta in
    if newSize <? config.MinSize (Config ng)
    then fail (ErrBelowMinSize newSize (config.MinSize (Config ng)))
    else ret tt.

Definition deleteNode (ng : OpenStackNodeGroup) (node : apiv1.Node) : M unit :=
  let providerID := apiv1.ProviderID node in
  let serverID := TrimPrefix providerID (ProviderName +:+ "://") in
  if String.eqb serverID providerID
  then fail (ErrInvalidProviderID providerID)
  else wrapf ("failed to delete server " +:+ serverID) (servers_Delete serverID).

(** The loop of [DeleteNodes]; on the empty slice it returns [nil] like the
    guard before it. *)
Fixpoint DeleteNodes (ng : OpenStackNodeGroup) (nodes : list apiv1.Node) : M unit :=
  match nodes with
  | [] => ret tt
  | node :: rest =>
      let* _ := wrapf ("failed to delete node " +:+ apiv1.Name node)
                      (deleteNode ng node) in
      DeleteNodes ng rest
  end.

(** The node literal of [buildTemplateNodeInfo], with the group's custom
    labels written over the three standard ones. *)
Definition template_node (cfg : config.NodeGroupConfig) (flavor : flavors.Flavor)
  : apiv1.Node :=
  let labels : gmap string string :=
    <["node.kubernetes.io/instance-type" := flavors.Name flavor]>
      (<["kubernetes.io/os" := "linux"]>
         (<["kubernetes.io/arch" := "amd64"]> ∅)) in
  let resources : gmap string apiv1.Quantity :=
    <[apiv1.ResourceMemory :=
        utils.ResourceQuantityFromBytes
          (int_mul (int_mul (flavors.RAM flavor) 1024) 1024)]>
      (<[apiv1.ResourceCPU := utils.ResourceQuantity (flavors.VCPUs flavor)]> ∅) in
  apiv1.mkNode
    (config.ID cfg +:+ "-template")
    ∅
    (config.Labels cfg ∪ labels)
    (ProviderName +:+ "://template-" +:+ config.ID cfg)
    resources resources
    [apiv1.mkNodeCondition apiv1.NodeReady apiv1.ConditionTrue].

Definition buildTemplateNodeInfo (ng : OpenStackNodeGroup) : M loc :=
  let* flavor := wrapf "failed to get flavor" (getFlavor ng) in
  alloc (template_node (Config ng) flavor).

(** [TemplateNodeInfo] past its cache test: build, cache, stamp, copy. *)
Definition rebuildTemplateNodeInfo (ng : OpenStackNodeGroup)
  : M (loc * OpenStackNodeGroup) :=
  let* node := wrapf "failed to build template node info"
                     (buildTemplateNodeInfo ng) in
  let* now := time_Now in
  let* copy := DeepCopy node in
  ret (copy, mkNodeGroup (Config ng) (Some node) now).

(** [TemplateNodeInfo] returns the copy and leaves the group with its cache
    fields as the method wrote them. *)
Definition TemplateNodeInfo (ng : OpenStackNodeGroup) : M (loc * OpenStackNodeGroup) :=
  match templateNodeInfo ng with
  | Some cached =>
      let* age := time_Since (lastRefresh ng) in
      if age <? 10 * time_Minute
      then let* copy := DeepCopy cached in ret (copy, ng)
      else rebuildTemplateNodeInfo ng
  | None => rebuildTemplateNodeInfo ng
  end.

Definition ValidateConfiguration (ng : OpenStackNodeGroup) : M unit :=
  let* _ := wrapf "flavor validation failed" (getFlavor ng) in
  let* _ := wrapf "image validation failed" (getImageID ng) in
  ret tt.

(** [Refresh] clears the cache and cannot fail. *)
Definition Refresh (ng : OpenStackNodeGroup) : OpenStackNodeGroup :=
  mkNodeGroup (Config ng) None time_zero.

(* ===================================================================== *)
(** ** Provider (pkg/provider/provider.go) *)
(* ===================================================================== *)

(** [OpenStackProvider]: the directory of node groups.  Its API clients are
    the world; its mutex serialises the methods below.  The map holds
    pointers in Go; each group is reachable through its directory entry
    only, so the entry holds the group itself here. *)
Record OpenStackProvider := mkProvider {
  nodeGroups : gmap string OpenStackNodeGroup
}.

Module Provider.

(** [for _, ng := range p.nodeGroups]: Go visits the entries in an order of
    the runtime's choosing, [order] here. *)
Definition range_groups (order : list string) (p : OpenStackProvider)
  : list OpenStackNodeGroup :=
  omap (fun k => nodeGroups p !! k) order.

Definition GetNodeGroups (order : list string) (p : OpenStackProvider)
  : list OpenStackNodeGroup :=
  range_groups order p.

Definition GetNodeGroup (p : OpenStackProvider) (id : string)
  : option OpenStackNodeGroup :=
  nodeGroups p !! id.

Definition AddNodeGroup (p : OpenStackProvider) (ngConfig : config.NodeGroupConfig)
  : result OpenStackNodeGroup * OpenStackProvider :=
  match nodeGroups p !! config.ID ngConfig with
  | Some existing => (Ok existing, p)
  | None =>
      match NewOpenStackNodeGroup ngConfig with
      | Err e =>
          (Err (Wrapf ("failed to create node group " +:+ config.ID ngConfig) e), p)
      | Ok nodeGroup =>
          (Ok nodeGroup,
           mkProvider (<[config.ID ngConfig := nodeGroup]> (nodeGroups p)))
      end
  end.

Definition NodeGroupForNode (order : list string) (p : OpenStackProvider)
           (nodeProviderID : string) : M (option OpenStackNodeGroup) :=
  let serverID := TrimPrefix nodeProviderID (ProviderName +:+ "://") in
  if String.eqb serverID nodeProviderID
  then fail (ErrInvalidProviderID nodeProviderID)
  else
    let* server := wrapf ("failed to get server " +:+ serverID)
                         (servers_Get serverID) in
    ret (List.find (fun ng => ContainsNode ng server) (range_groups order p)).

(** [Refresh] refreshes every group and returns [nil]. *)
Definition Refresh (p : OpenStackProvider) : OpenStackProvider :=
  mkProvider (Refresh <$> nodeGroups p).

(** [Cleanup] returns [nil]. *)
Definition Cleanup (p : OpenStackProvider) : result unit := Ok tt.

End Provider.

(* ===================================================================== *)
(** ** Protocol adapter (pkg/grpc/grpc_server.go) *)
(* ===================================================================== *)

(** The protocol messages. *)
Module pb.
Record NodeGroup := mkNodeGroup {
  Id : string;
  MinSize : Z;      (* int32 *)
  MaxSize : Z;      (* int32 *)
  Debug : string
}.

(** [&pb.NodeGroup{}] *)
Definition empty_NodeGroup : NodeGroup := mkNodeGroup "" 0 0 "".

Record ExternalGrpcNode := mkExternalGrpcNode {
  ProviderID : string;
  Name : string;
  Labels : gmap string string;
  Annotations : gmap string string
}.

Inductive InstanceState :=
| unspecified
| instanceRunning
| instanceCreating
| instanceDeleting.

Record InstanceErrorInfo := mkInstanceErrorInfo {
  ErrorCode : string;
  ErrorMessage : string;
  InstanceErrorClass : Z
}.

Record Instance := mkInstance {
  inst_Id : string;
  inst_State : InstanceState;
  inst_ErrorInfo : InstanceErrorInfo
}.
End pb.

(** gRPC status codes the adapter uses. *)
Inductive Code := InvalidArgument | NotFound | Internal | Unimplemented.

(** What a handler returns: a response, or [status.Errorf(code, msg, err)]. *)
Inductive reply (A : Type) :=
| Response (a : A)
| Status (code : Code) (msg : string) (cause : option error).
Arguments Response {A} a.
Arguments Status {A} code msg cause.

Module grpc.
Section Server.

(** [templateNode.Marshal()], the protobuf encoding of a node. *)
Variable Marshal : apiv1.Node -> result string.

(** [pb.NodeGroupAutoscalingOptions], whose fields the adapter echoes. *)
Variable Options : Type.

Definition Handler (A : Type) : Type :=
  OpenStackProvider -> World -> reply A * OpenStackProvider * World.

Definition describe (ng : OpenStackNodeGroup) : pb.NodeGroup :=
  pb.mkNodeGroup
    (ID ng) (to_int32 (MinSize ng)) (to_int32 (MaxSize ng))
    ("NodeGroup " +:+ ID ng +:+ ": min=" +:+ pretty (MinSize ng)
       +:+ ", max=" +:+ pretty (MaxSize ng)
       +:+ ", flavor=" +:+ config.FlavorName (Config ng)).

Definition not_found {A} (id : string) : reply A :=
  Status NotFound ("node group " +:+ id +:+ " not found") None.

Definition NodeGroups (order : list string) : Handler (list pb.NodeGroup) :=
  fun p w => (Response (map describe (Provider.GetNodeGroups order p)), p, w).

Definition NodeGroupForNode (order : list string) (node : option pb.ExternalGrpcNode)
  : Handler pb.NodeGroup :=
  fun p w =>
    match node with
    | None => (Status InvalidArgument "node is required" None, p, w)
    | Some n =>
        match Provider.NodeGroupForNode order p (pb.ProviderID n) w with
        | (Err _, w') => (Response pb.empty_NodeGroup, p, w')
        | (Ok None, w') => (Response pb.empty_NodeGroup, p, w')
        | (Ok (Some ng), w') => (Response (describe ng), p, w')
        end
    end.

Definition PricingNodePrice : Handler unit :=
  fun p w => (Status Unimplemented "PricingNodePrice not implemented" None, p, w).

Definition PricingPodPrice : Handler unit :=
  fun p w => (Status Unimplemented "PricingPodPrice not implemented" None, p, w).

Definition GPULabel : Handler string :=
  fun p w => (Response "", p, w).

Definition GetAvailableGPUTypes : Handler (gmap string unit) :=
  fun p w => (Response ∅, p, w).

Definition Cleanup : Handler unit :=
  fun p w =>
    match Provider.Cleanup p with
    | Err e => (Status Internal "cleanup failed" (Some e), p, w)
    | Ok _ => (Response tt, p, w)
    end.

Definition Refresh : Handler unit :=
  fun p w => (Response tt, Provider.Refresh p, w).

Definition NodeGroupTargetSize (id : string) : Handler Z :=
  fun p w =>
    match Provider.GetNodeGroup p id with
    | None => (not_found id, p, w)
    | Some ng =>
        match TargetSize ng w with
        | (Err e, w') => (Status Internal "failed to get target size" (Some e), p, w')
        | (Ok size, w') => (Response (to_int32 size), p, w')
        end
    end.

(** [delta] is the request's [int32]; [int(req.Delta)] keeps its value. *)
Definition NodeGroupIncreaseSize (id : string) (delta : Z) : Handler unit :=
  fun p w =>
    match Provider.GetNodeGroup p id with
    | None => (not_found id, p, w)
    | Some ng =>
        match IncreaseSize ng delta w with
        | (Err e, w') => (Status Internal "failed to increase size" (Some e), p, w')
        | (Ok _, w') => (Response tt, p, w')
        end
    end.

Definition to_node (pbNode : pb.ExternalGrpcNode) : apiv1.Node :=
  apiv1.mkNode (pb.Name pbNode) (pb.Annotations pbNode) (pb.Labels pbNode)
               (pb.ProviderID pbNode) ∅ ∅ [].

Definition NodeGroupDeleteNodes (id : string) (nodes : list pb.ExternalGrpcNode)
  : Handler unit :=
  fun p w =>
    match Provider.GetNodeGroup p id with
    | None => (not_found id, p, w)
    | Some ng =>
        match DeleteNodes ng (map to_node nodes) w with
        | (Err e, w') => (Status Internal "failed to delete nodes" (Some e), p, w')
        | (Ok _, w') => (Response tt, p, w')
        end
    end.

Definition NodeGroupDecreaseTargetSize (id : string) (delta : Z) : Handler unit :=
  fun p w =>
    match Provider.GetNodeGroup p id with
    | None => (not_found id, p, w)
    | Some ng =>
        match DecreaseTargetSize ng delta w with
        | (Err e, w') =>
            (Status Internal "failed to decrease target size" (Some e), p, w')
        | (Ok _, w') => (Response tt, p, w')
        end
    end.

Definition instance_state (status : string) : pb.InstanceState :=
  if String.eqb status "ACTIVE" then pb.instanceRunning
  else if String.eqb status "BUILD" then pb.instanceCreating
  else if String.eqb status "DELETED" || String.eqb status "DELETING"
       then pb.instanceDeleting
  else pb.unspecified.

Definition to_instance (server : servers.Server) : pb.Instance :=
  pb.mkInstance (servers.ID server) (instance_state (servers.Status server))
                (pb.mkInstanceErrorInfo "" "" 0).

Definition NodeGroupNodes (id : string) : Handler (list pb.Instance) :=
  fun p w =>
    match Provider.GetNodeGroup p id with
    | None => (not_found id, p, w)
    | Some ng =>
        match Nodes ng w with
        | (Err e, w') => (Status Internal "failed to get nodes" (Some e), p, w')
        | (Ok l, w') => (Response (map to_instance l), p, w')
        end
    end.

(** The method runs on the group the directory points to, so the cache it
    fills is the directory's. *)
Definition NodeGroupTemplateNodeInfo (id : string) : Handler string :=
  fun p w =>
    match Provider.GetNodeGroup p id with
    | None => (not_found id, p, w)
    | Some ng =>
        match TemplateNodeInfo ng w with
        | (Err e, w') =>
            (Status Internal "failed to get template node info" (Some e), p, w')
        | (Ok (templateNode, ng'), w') =>
            let p' := mkProvider (<[id := ng']> (nodeGroups p)) in
            match (let* n := load templateNode in lift (Marshal n)) w' with
            | (Err e, w'') =>
                (Status Internal "failed to marshal template node" (Some e), p', w'')
            | (Ok nodeBytes, w'') => (Response nodeBytes, p', w'')
            end
        end
    end.

Definition NodeGroupGetOptions (id : string) (defaults : option Options)
  : Handler Options :=
  fun p w =>
    match Provider.GetNodeGroup p id with
    | None => (not_found id, p, w)
    | Some ng =>
        match defaults with
        | None => (Status InvalidArgument "defaults are required" None, p, w)
        | Some d => (Response d, p, w)
        end
    end.

End Server.
End grpc.

(* ===================================================================== *)
(** ** Vocabulary of the properties, and the scenarios they are run on *)
(* ===================================================================== *)

(** [sub] occurs in [s]. *)
Definition substring (sub s : string) : Prop :=
  exists pre post, s = pre +:+ sub +:+ post.

(** The group tag of an instance: its ["nodegroup"] metadata entry. *)
Definition group_tag (server : servers.Server) : option string :=
  servers.Metadata server !! "nodegroup".

(** Kinds of backend requests. *)
Definition is_create (c : Call) : bool :=
  match c with CallServersCreate _ => true | _ => false end.

Definition is_delete (c : Call) : bool :=
  match c with CallServersDelete _ => true | _ => false end.

Definition is_flavor_get (c : Call) : bool :=
  match c with CallFlavorsGet _ => true | _ => false end.

(** A request that only reads the backend. *)
Definition is_query (c : Call) : bool := negb (is_create c) && negb (is_delete c).

Definition creates (calls : list Call) : nat := length (List.filter is_create calls).
Definition deletes (calls : list Call) : nat := length (List.filter is_delete calls).

(** The requests issued while the world went from [w] to [w']. *)
Definition issued (w w' : World) : list Call :=
  drop (length (w_calls w)) (w_calls w').

(** A computation that reads the backend and changes nothing but the log. *)
Definition query_only {A} (m : M A) : Prop :=
  forall w, exists calls,
    snd (m w) = set_calls (w_calls w ++ calls) w /\
    Forall (fun c => is_query c = true) calls.

(** An instance counts towards the target size of [ng]. *)
Definition counted (ng : OpenStackNodeGroup) (server : servers.Server) : bool :=
  ContainsNode ng server &&
  (String.eqb (servers.Status server) "ACTIVE"
   || String.eqb (servers.Status server) "BUILD").

(** The number of instances attributed to [ng] that are active or being
    built. *)
Definition target_count (ng : OpenStackNodeGroup) (l : list servers.Server) : Z :=
  Z.of_nat (length (List.filter (counted ng) l)).

(** A creation request as [ng] sends them: tagged with the group's id and
    named after it. *)
Definition request_of (ng : OpenStackNodeGroup) (opts : servers.CreateOpts) : Prop :=
  servers.opts_Metadata opts !! "nodegroup" = Some (ID ng) /\
  HasPrefix (servers.opts_Name opts) (ID ng) = true.

(** An instance as the backend records it for such a request. *)
Definition created_by (ng : OpenStackNodeGroup) (s : servers.Server) : Prop :=
  group_tag s = Some (ID ng) /\
  HasPrefix (servers.Name s) (ID ng) = true /\
  servers.Status s = "BUILD".

(** The three ways one [createServer] can end: a lookup failed before any
    creation request, the creation request failed, or the instance exists. *)
Inductive create_outcome (ng : OpenStackNodeGroup) (w : World)
  : result unit -> World -> Prop :=
| create_lookup_failed e calls :
    Forall (fun c => is_query c = true) calls ->
    create_outcome ng w (Err e) (set_calls (w_calls w ++ calls) w)
| create_request_failed e calls opts :
    Forall (fun c => is_query c = true) calls ->
    request_of ng opts ->
    create_outcome ng w (Err e)
      (set_calls (w_calls w ++ calls ++ [CallServersCreate opts]) w)
| create_done calls opts :
    Forall (fun c => is_query c = true) calls ->
    request_of ng opts ->
    create_outcome ng w (Ok tt)
      (set_next_id (S (w_next_id w))
         (set_servers (w_servers w ++ [new_server (w_next_id w) opts])
            (set_calls (w_calls w ++ calls ++ [CallServersCreate opts]) w))).

(** [k] calls of [createServer] in a row, each of which returned [nil], lead
    from [w] to [w']. *)
Inductive rounds (ng : OpenStackNodeGroup) : nat -> World -> World -> Prop :=
| rounds_O w : rounds ng 0 w w
| rounds_S k w w1 w' :
    createServer ng w = (Ok tt, w1) ->
    rounds ng k w1 w' ->
    rounds ng (S k) w w'.

(** Every request in [calls] is a query or a creation request of [ng]. *)
Definition scale_up_calls (ng : OpenStackNodeGroup) (calls : list Call) : Prop :=
  Forall (fun c => match c with
                   | CallServersCreate opts => request_of ng opts
                   | CallServersDelete _ => False
                   | _ => True
                   end) calls.

(** The world went from [w] to [w'] by scale-up steps of [ng] that issued
    [calls] and left the instances [created] behind. *)
Record scaled (ng : OpenStackNodeGroup) (w w' : World)
       (calls : list Call) (created : list servers.Server) : Prop := mkScaled {
  sc_calls : w_calls w' = w_calls w ++ calls;
  sc_servers : w_servers w' = w_servers w ++ created;
  sc_created : Forall (created_by ng) created;
  sc_requests : scale_up_calls ng calls;
  sc_bounds : (length created <= creates calls)%nat;
  sc_flavors : w_flavors w' = w_flavors w;
  sc_images : w_images w' = w_images w;
  sc_now : w_now w' = w_now w;
  sc_faults : w_faults w' = w_faults w;
  sc_heap : w_heap w' = w_heap w
}.

(** A size request of the scaling protocol. *)
Inductive SizeOp :=
| OpIncrease (delta : Z)
| OpDecrease (delta : Z).

Definition run_op (ng : OpenStackNodeGroup) (op : SizeOp) : M unit :=
  match op with
  | OpIncrease delta => IncreaseSize ng delta
  | OpDecrease delta => DecreaseTargetSize ng delta
  end.

(** A sequence of size requests, each of which has to succeed for the next
    to run. *)
Fixpoint run_ops (ng : OpenStackNodeGroup) (ops : list SizeOp) : M unit :=
  match ops with
  | [] => ret tt
  | op :: rest => let* _ := run_op ng op in run_ops ng rest
  end.

(** The target size of [ng] lies within the group's bounds. *)
Definition within_bounds (ng : OpenStackNodeGroup) (w : World) : Prop :=
  MinSize ng <= target_count ng (w_servers w) <= MaxSize ng.

(** The bound check of an increase by [delta] cannot overflow. *)
Definition fits (ng : OpenStackNodeGroup) (op : SizeOp) : Prop :=
  match op with
  | OpIncrease delta => MaxSize ng + delta <= max_int
  | OpDecrease _ => True
  end.

(** The provider-qualified id of [node] starts with ["openstack://"]. *)
Definition well_formed_id (node : apiv1.Node) : bool :=
  HasPrefix (apiv1.ProviderID node) (ProviderName +:+ "://").

(** The machine-type lookups among [calls]: one [flavors.Get] opens each. *)
Definition flavor_lookups (calls : list Call) : nat :=
  length (List.filter is_flavor_get calls).

(** The template cache of [ng] is empty, or older than the freshness window. *)
Definition stale (ng : OpenStackNodeGroup) (w : World) : Prop :=
  match templateNodeInfo ng with
  | None => True
  | Some _ => 10 * time_Minute <= saturate (w_now w - lastRefresh ng)
  end.

Module Scenario.

Definition a_config (id : string) (min max : Z) : config.NodeGroupConfig :=
  config.mkNodeGroupConfig id id min max "m1.small" "ubuntu-22.04" "" "" []
                           "" "" "" "" "" "" ∅ ∅.

Definition a_group (id : string) (min max : Z) : OpenStackNodeGroup :=
  mkNodeGroup (a_config id min max) None time_zero.

Definition g1 : OpenStackNodeGroup := a_group "g1" 1 5.

(** The instance of the attribution scenario, tagged under the key the
    code reads. *)
Definition tagged_random_42 : servers.Server :=
  servers.mkServer "i-1" "random-42" "ACTIVE" {[ "nodegroup" := "g1" ]}.

(** The same instance with its entry under the key ["group"]. *)
Definition group_keyed_random_42 : servers.Server :=
  servers.mkServer "i-1" "random-42" "ACTIVE" {[ "group" := "g1" ]}.

Definition untagged_g1_worker_07 : servers.Server :=
  servers.mkServer "i-2" "g1-worker-07" "ACTIVE" ∅.

Definition untagged_other_3 : servers.Server :=
  servers.mkServer "i-3" "other-3" "ACTIVE" ∅.

(** The directory that knows [g1] only. *)
Definition only_g1 : OpenStackProvider := mkProvider {[ "g1" := g1 ]}.

Definition no_faults : nat -> Fault := fun _ => NoFault.

(** A backend with one flavor and one image, holding [l], at an instant
    late in 2023. *)
Definition a_world (l : list servers.Server) (faults : nat -> Fault) : World :=
  mkWorld l
          [flavors.mkFlavor "f-1" "m1.small" 2 4096]
          [images.mkImage "img-1" "ubuntu-22.04"]
          0 1700000000000000000 faults [] [].

Definition active (id name : string) (tag : string) : servers.Server :=
  servers.mkServer id name "ACTIVE" {[ "nodegroup" := tag ]}.

(** A node reference as the protocol delivers it. *)
Definition a_node (name providerID : string) : apiv1.Node :=
  apiv1.mkNode name ∅ ∅ providerID ∅ ∅ [].

(** Group [g1] with two active instances. *)
Definition two_active : World :=
  a_world [active "i-1" "g1-a" "g1"; active "i-2" "g1-b" "g1"] no_faults.

End Scenario.

(* ===================================================================== *)
(** ** Cloud configuration (pkg/config/config.go, cmd/main.go) *)
(* ===================================================================== *)

Module cloud.

Record CloudConfig := mkCloudConfig {
  AuthURL : string;
  Username : string;
  Password : string;
  ProjectName : string;
  ProjectID : string;
  UserDomainName : string;
  ProjectDomainName : string;
  ApplicationCredentialID : string;
  ApplicationCredentialName : string;
  ApplicationCredentialSecret : string;
  Region : string;
  Interface : string;
  IdentityAPIVersion : string;
  ComputeAPIVersion : string;
  NetworkAPIVersion : string
}.

(** The two errors of [ValidateAuth]: "authentication configuration
    incomplete: ..." and "cannot mix application credentials with password
    authentication". *)
Inductive AuthError := AuthIncomplete | AuthMixed.

(** [ValidateAuth]; [None] is [nil]. *)
Definition ValidateAuth (c : CloudConfig) : option AuthError :=
  let hasAppCredID := negb (String.eqb (ApplicationCredentialID c) "") in
  let hasAppCredSecret := negb (String.eqb (ApplicationCredentialSecret c) "") in
  let hasAppCredName := negb (String.eqb (ApplicationCredentialName c) "") in
  let hasUsername := negb (String.eqb (Username c) "") in
  let hasPassword := negb (String.eqb (Password c) "") in
  let appCredIDAuth := hasAppCredID && hasAppCredSecret in
  let appCredNameAuth := hasAppCredName && hasAppCredSecret && hasUsername in
  let usernamePasswordAuth := hasUsername && hasPassword in
  if negb appCredIDAuth && negb appCredNameAuth && negb usernamePasswordAuth
  then Some AuthIncomplete
  else if (appCredIDAuth || appCredNameAuth) && hasPassword
  then Some AuthMixed
  else None.

(** [os.Getenv]: the value of a variable, empty when it is not set. *)
Definition Env : Type := string -> string.

Definition getEnvOrDefault (env : Env) (key defaultValue : string) : string :=
  let value := env key in
  if negb (String.eqb value "") then value else defaultValue.

Definition LoadConfigFromEnv (env : Env) : CloudConfig :=
  mkCloudConfig
    (getEnvOrDefault env "OS_AUTH_URL" "")
    (getEnvOrDefault env "OS_USERNAME" "")
    (getEnvOrDefault env "OS_PASSWORD" "")
    (getEnvOrDefault env "OS_PROJECT_NAME" "")
    (getEnvOrDefault env "OS_PROJECT_ID" "")
    (getEnvOrDefault env "OS_USER_DOMAIN_NAME" "Default")
    (getEnvOrDefault env "OS_PROJECT_DOMAIN_NAME" "Default")
    (getEnvOrDefault env "OS_APPLICATION_CREDENTIAL_ID" "")
    (getEnvOrDefault env "OS_APPLICATION_CREDENTIAL_NAME" "")
    (getEnvOrDefault env "OS_APPLICATION_CREDENTIAL_SECRET" "")
    (getEnvOrDefault env "OS_REGION_NAME" "")
    (getEnvOrDefault env "OS_INTERFACE" "public")
    (getEnvOrDefault env "OS_IDENTITY_API_VERSION" "3")
    (getEnvOrDefault env "OS_COMPUTE_API_VERSION" "2.1")
    (getEnvOrDefault env "OS_NETWORK_API_VERSION" "2.0").

End cloud.

(** The cloud flags of cmd/main.go and [loadCloudConfig]. *)
Module main.

Record Flags := mkFlags {
  authURL : string;
  username : string;
  password : string;
  projectName : string;
  projectID : string;
  region : string
}.

(** [if *flag != "" { field = *flag }] *)
Definition override (flag field : string) : string :=
  if negb (String.eqb flag "") then flag else field.

Definition loadCloudConfig (flags : Flags) (env : cloud.Env) : cloud.CloudConfig :=
  let cloudCfg := cloud.LoadConfigFromEnv env in
  cloud.mkCloudConfig
    (override (authURL flags) (cloud.AuthURL cloudCfg))
    (override (username flags) (cloud.Username cloudCfg))
    (override (password flags) (cloud.Password cloudCfg))
    (override (projectName flags) (cloud.ProjectName cloudCfg))
    (override (projectID flags) (cloud.ProjectID cloudCfg))
    (cloud.UserDomainName cloudCfg)
    (cloud.ProjectDomainName cloudCfg)
    (cloud.ApplicationCredentialID cloudCfg)
    (cloud.ApplicationCredentialName cloudCfg)
    (cloud.ApplicationCredentialSecret cloudCfg)
    (override (region flags) (cloud.Region cloudCfg))
    (cloud.Interface cloudCfg)
    (cloud.IdentityAPIVersion cloudCfg)
    (cloud.ComputeAPIVersion cloudCfg)
    (cloud.NetworkAPIVersion cloudCfg).

End main.

(* ===================================================================== *)
(** ** Further vocabulary *)
(* ===================================================================== *)

(** A string is set: not empty. *)
Definition is_set (s : string) : Prop := s <> "".

(** A configuration [validateConfig] accepts. *)
Definition valid_config (cfg : config.NodeGroupConfig) : Prop :=
  is_set (config.ID cfg)
  /\ 0 <= config.MinSize cfg <= config.MaxSize cfg
  /\ is_set (config.FlavorName cfg)
  /\ (is_set (config.ImageName cfg) \/ is_set (config.ImageID cfg)).

(** Every group of the directory is filed under its own id and has a
    configuration that passed validation. *)
Definition directory_ok (p : OpenStackProvider) : Prop :=
  forall k g, nodeGroups p !! k = Some g -> ID g = k /\ valid_config (Config g).

(** A backend that serves every request. *)
Definition healthy (w : World) : Prop := forall n, w_faults w n = NoFault.

(** The image id a group resolves to in a catalog: its configured id, else
    the id of the first image with its configured name. *)
Definition resolve_image (cfg : config.NodeGroupConfig) (catalog : list images.Image)
  : option string :=
  if negb (String.eqb (config.ImageID cfg) "") then Some (config.ImageID cfg)
  else
    match List.filter (fun i => String.eqb (images.Name i) (config.ImageName cfg))
                      catalog with
    | [] => None
    | img :: _ => Some (images.ID img)
    end.

(** The backend id a well-formed node reference names. *)
Definition server_id_of (node : apiv1.Node) : string :=
  TrimPrefix (apiv1.ProviderID node) (ProviderName +:+ "://").

(** The instance is reported as running or being created. *)
Definition reported_up (i : pb.Instance) : bool :=
  match pb.inst_State i with
  | pb.instanceRunning | pb.instanceCreating => true
  | _ => false
  end.

(** The instance is none of those named by [ids]. *)
Definition kept (ids : list string) (s : servers.Server) : bool :=
  negb (existsb (String.eqb (servers.ID s)) ids).

(** An answer of the adapter that came without touching the instances: the
    backend holds what it held, and no creation or deletion request went
    out. *)
Definition instances_untouched {A} (w : World)
           (r : reply A * OpenStackProvider * World) : Prop :=
  w_servers (snd r) = w_servers w
  /\ creates (issued w (snd r)) = 0%nat
  /\ deletes (issued w (snd r)) = 0%nat.

(* ===================================================================== *)
(** * Properties *)
(* ===================================================================== *)

Example b64_Man : EncodeToString "Man" = "TWFu".
Proof. reflexivity. Qed.

Example b64_Ma : EncodeToString "Ma" = "TWE=".
Proof. reflexivity. Qed.

Example b64_M : EncodeToString "M" = "TQ==".
Proof. reflexivity. Qed.

Example Contains_g1 : Contains "g1-worker-07" "g1" = true.
Proof. reflexivity. Qed.

Example TrimPrefix_ok : TrimPrefix "openstack://abc" "openstack://" = "abc".
Proof. reflexivity. Qed.

Example TrimPrefix_other : TrimPrefix "aws://abc" "openstack://" = "aws://abc".
Proof. reflexivity. Qed.

Example pretty_unix : pretty (1700000000 : Z) = "1700000000".
Proof. reflexivity. Qed.

(** ** Integers and strings *)

#[local] Arguments append !_ _ / : simpl nomatch.

Lemma wrap64_exact (z : Z) : in_int z -> wrap64 z = z.
Proof.
  unfold in_int, min_int, max_int, wrap64, wrap. intros H.
  change (2 ^ (64 - 1)) with 9223372036854775808.
  change (2 ^ 64) with 18446744073709551616.
  rewrite Z.mod_small; lia.
Qed.

Lemma int_add_exact (a b : Z) : in_int (a + b) -> int_add a b = a + b.
Proof. apply wrap64_exact. Qed.

Lemma strip_prefix_spec (p s r : string) :
  strip_prefix p s = Some r <-> s = p +:+ r.
Proof.
  revert s; induction p as [|a p IH]; intros s; simpl.
  - split; congruence.
  - destruct s as [|b s]; [split; discriminate|].
    destruct (Ascii.eqb_spec a b) as [->|Hne].
    + rewrite IH. split; congruence.
    + split; [discriminate | intros [=]; congruence].
Qed.

Lemma HasPrefix_spec (s p : string) :
  HasPrefix s p = true <-> exists r, s = p +:+ r.
Proof.
  unfold HasPrefix. destruct (strip_prefix p s) as [r|] eqn:E.
  - apply strip_prefix_spec in E. split; eauto.
  - split; [discriminate|]. intros [r Hr].
    apply strip_prefix_spec in Hr. congruence.
Qed.

Lemma Contains_spec (s sub : string) :
  Contains s sub = true <-> substring sub s.
Proof.
  unfold substring. induction s as [|a s IH]; simpl.
  - rewrite orb_false_r, HasPrefix_spec. split.
    + intros [r Hr]. exists "", r. exact Hr.
    + intros (pre & post & H). destruct pre; [|discriminate]. eauto.
  - rewrite orb_true_iff, HasPrefix_spec, IH. split.
    + intros [[r Hr] | (pre & post & H)].
      * exists "", r. exact Hr.
      * exists (String a pre), post. simpl. congruence.
    + intros (pre & post & H). destruct pre as [|b pre]; simpl in H.
      * left. eauto.
      * right. injection H as _ H. eauto.
Qed.

(** ** Attribution *)

Lemma ContainsNode_tagged (ng : OpenStackNodeGroup) (server : servers.Server) (tag : string) :
  group_tag server = Some tag ->
  ContainsNode ng server = String.eqb tag (ID ng).
Proof. unfold ContainsNode, group_tag, ID. intros ->. reflexivity. Qed.

Lemma ContainsNode_untagged (ng : OpenStackNodeGroup) (server : servers.Server) :
  group_tag server = None ->
  ContainsNode ng server = Contains (servers.Name server) (ID ng).
Proof. unfold ContainsNode, group_tag, ID. intros ->. reflexivity. Qed.

(** C4, as the code has it.  The group tag is the metadata entry
    ["nodegroup"].  [ContainsNode] attributes an instance to a group exactly
    when that entry equals the group's id, or the entry is absent and the
    group id occurs in the instance's name.  An instance with metadata
    [{nodegroup: "g1"}] named [random-42] belongs to [g1]; an untagged
    [g1-worker-07] belongs to [g1] through its name; an untagged [other-3]
    belongs to exactly the groups whose id occurs in ["other-3"], so not to
    [g1], and a scan of the directory that knows [g1] only finds no group. *)
Theorem attribution_rule :
  (forall ng server,
      ContainsNode ng server = true <->
      group_tag server = Some (ID ng) \/
      (group_tag server = None /\ substring (ID ng) (servers.Name server)))
  /\ ContainsNode Scenario.g1 Scenario.tagged_random_42 = true
  /\ ContainsNode Scenario.g1 Scenario.untagged_g1_worker_07 = true
  /\ (forall ng, ContainsNode ng Scenario.untagged_other_3 = true <->
                 substring (ID ng) "other-3")
  /\ ContainsNode Scenario.g1 Scenario.untagged_other_3 = false
  /\ List.find (fun ng => ContainsNode ng Scenario.untagged_other_3)
               (Provider.range_groups ["g1"] Scenario.only_g1) = None.
Proof.
  split; [|split; [|split; [|split; [|split]]]]; try (vm_compute; reflexivity).
  - intros ng server. destruct (group_tag server) as [tag|] eqn:Htag.
    + rewrite (ContainsNode_tagged _ _ _ Htag), String.eqb_eq. split.
      * intros ->. left. reflexivity.
      * intros [[= ->] | [[=] _]]. reflexivity.
    + rewrite (ContainsNode_untagged _ _ Htag), Contains_spec. split.
      * intros H. right. split; [reflexivity | exact H].
      * intros [[=] | [_ H]]. exact H.
  - intros ng. rewrite (ContainsNode_untagged ng Scenario.untagged_other_3 eq_refl).
    apply Contains_spec.
Qed.

(** C4, as stated, fails.  The instance with metadata [{group: "g1"}] named
    [random-42] is not attributed to [g1]: the entry ["group"] is not the one
    [ContainsNode] reads, so the instance counts as untagged, its name decides,
    and ["g1"] does not occur in ["random-42"].  The directory that knows [g1]
    finds no group for it. *)
Lemma group_key_is_not_the_tag :
  servers.Metadata Scenario.group_keyed_random_42 !! "group" = Some "g1"
  /\ servers.Name Scenario.group_keyed_random_42 = "random-42"
  /\ ID Scenario.g1 = "g1"
  /\ ContainsNode Scenario.g1 Scenario.group_keyed_random_42 = false
  /\ List.find (fun ng => ContainsNode ng Scenario.group_keyed_random_42)
               (Provider.range_groups ["g1"] Scenario.only_g1) = None.
Proof. vm_compute. repeat split; reflexivity. Qed.

(** A tag that names another group is final: the name is not consulted. *)
Example tag_wins_over_name :
  ContainsNode Scenario.g1
    (servers.mkServer "i-5" "random-42" "ACTIVE" {[ "nodegroup" := "g2" ]}) = false
  /\ ContainsNode Scenario.g1
       (servers.mkServer "i-6" "g1-worker-07" "ACTIVE" {[ "nodegroup" := "g2" ]}) = false.
Proof. vm_compute. repeat split; reflexivity. Qed.

(** ** The world under read-only computations *)

Lemma set_calls_calls (l : list Call) (w : World) : w_calls (set_calls l w) = l.
Proof. reflexivity. Qed.

Lemma set_calls_twice (l1 l2 : list Call) (w : World) :
  set_calls l2 (set_calls l1 w) = set_calls l2 w.
Proof. reflexivity. Qed.

Lemma set_calls_same (w : World) : set_calls (w_calls w ++ []) w = w.
Proof. rewrite app_nil_r. destruct w; reflexivity. Qed.

Lemma issued_set_calls (calls : list Call) (w : World) :
  issued w (set_calls (w_calls w ++ calls) w) = calls.
Proof. unfold issued. simpl. apply drop_app_length. Qed.

Lemma query_only_ret {A} (a : A) : query_only (ret a).
Proof. intros w. exists []. split; [symmetry; apply set_calls_same | constructor]. Qed.

Lemma query_only_fail {A} (e : error) : query_only (@fail A e).
Proof. intros w. exists []. split; [symmetry; apply set_calls_same | constructor]. Qed.

Lemma query_only_lift {A} (r : result A) : query_only (lift r).
Proof. intros w. exists []. split; [symmetry; apply set_calls_same | constructor]. Qed.

Lemma query_only_bind {A B} (m : M A) (k : A -> M B) :
  query_only m -> (forall a, query_only (k a)) -> query_only (bind m k).
Proof.
  intros Hm Hk w. destruct (Hm w) as (c1 & E1 & F1). unfold bind.
  destruct (m w) as [[a|e] w1]; simpl in E1; subst w1.
  - destruct (Hk a (set_calls (w_calls w ++ c1) w)) as (c2 & E2 & F2).
    exists (c1 ++ c2). rewrite E2. simpl. rewrite app_assoc.
    split; [reflexivity | apply Forall_app; split; assumption].
  - exists c1. split; [reflexivity | assumption].
Qed.

Lemma query_only_wrapf {A} (context : string) (m : M A) :
  query_only m -> query_only (wrapf context m).
Proof.
  intros Hm w. destruct (Hm w) as (c1 & E1 & F1). unfold wrapf.
  exists c1. destruct (m w) as [[a|e] w1]; simpl in *; split; assumption.
Qed.

Lemma query_only_request (c : Call) : is_query c = true -> query_only (request c).
Proof.
  intros Hc w. exists [c]. split; [reflexivity | repeat constructor; assumption].
Qed.

(** A request followed by a pure look at the backend. *)
Lemma query_only_answer {A} (c : Call) (k : Fault -> World -> result A) :
  is_query c = true ->
  query_only (let* f := request c in fun w => (k f w, w)).
Proof.
  intros Hc w. exists [c]. split; [reflexivity | repeat constructor; assumption].
Qed.

Create HintDb query discriminated.
#[local] Hint Resolve query_only_ret query_only_fail query_only_lift
  query_only_wrapf query_only_request : query.
#[local] Hint Extern 2 (query_only (bind _ _)) =>
  apply query_only_bind; [| intros ?] : query.

Lemma query_only_servers_List : query_only servers_List_AllPages.
Proof.
  intros w. exists [CallServersList]. unfold servers_List_AllPages, bind, request.
  split; [| repeat constructor]. destruct (w_faults w _); reflexivity.
Qed.

Lemma query_only_servers_Get (id : string) : query_only (servers_Get id).
Proof.
  intros w. exists [CallServersGet id]. unfold servers_Get, bind, request.
  split; [| repeat constructor].
  destruct (w_faults w _); simpl; try reflexivity.
  destruct (find_server _ _); reflexivity.
Qed.

Lemma query_only_flavors_Get (id : string) : query_only (flavors_Get id).
Proof.
  intros w. exists [CallFlavorsGet id]. unfold flavors_Get, bind, request.
  split; [| repeat constructor].
  destruct (w_faults w _); simpl; try reflexivity.
  destruct (find_flavor _ _); reflexivity.
Qed.

Lemma query_only_flavors_ListDetail : query_only flavors_ListDetail_AllPages.
Proof.
  intros w. exists [CallFlavorsListDetail].
  unfold flavors_ListDetail_AllPages, bind, request.
  split; [| repeat constructor]. destruct (w_faults w _); reflexivity.
Qed.

Lemma query_only_images_List (name : string) : query_only (images_List_AllPages name).
Proof.
  intros w. exists [CallImagesList name].
  unfold images_List_AllPages, bind, request.
  split; [| repeat constructor]. destruct (w_faults w _); reflexivity.
Qed.

Lemma query_only_time_Now : query_only time_Now.
Proof. intros w. exists []. split; [symmetry; apply set_calls_same | constructor]. Qed.

#[local] Hint Resolve query_only_servers_List query_only_servers_Get
  query_only_flavors_Get query_only_flavors_ListDetail query_only_images_List
  query_only_time_Now : query.

Lemma query_only_getInstances (ng : OpenStackNodeGroup) : query_only (getInstances ng).
Proof. unfold getInstances. auto 10 with query. Qed.

Lemma query_only_TargetSize (ng : OpenStackNodeGroup) : query_only (TargetSize ng).
Proof. unfold TargetSize. pose proof (query_only_getInstances ng). auto 10 with query. Qed.

Lemma query_only_getImageID (ng : OpenStackNodeGroup) : query_only (getImageID ng).
Proof.
  unfold getImageID. destruct (negb _); [auto with query|].
  apply query_only_bind; [auto with query | intros pages].
  apply query_only_bind; [auto with query | intros [|img l]]; auto with query.
Qed.

Lemma query_only_getFlavor (ng : OpenStackNodeGroup) : query_only (getFlavor ng).
Proof.
  intros w. unfold getFlavor.
  destruct (query_only_flavors_Get (config.FlavorName (Config ng)) w) as (c1 & E1 & F1).
  destruct (flavors_Get _ w) as [[fl|e] w1]; simpl in E1; subst w1.
  - exists c1. split; [reflexivity | assumption].
  - match goal with |- context [snd (?m ?w1)] =>
      assert (Hq : query_only m) end.
    { apply query_only_bind; [auto with query | intros pages].
      apply query_only_bind; [auto with query | intros l].
      destruct (List.find _ l); auto with query. }
    destruct (Hq (set_calls (w_calls w ++ c1) w)) as (c2 & E2 & F2).
    exists (c1 ++ c2). rewrite E2. simpl. rewrite app_assoc.
    split; [reflexivity | apply Forall_app; split; assumption].
Qed.

#[local] Hint Resolve query_only_getInstances query_only_TargetSize
  query_only_getImageID query_only_getFlavor : query.

Lemma query_only_DecreaseTargetSize (ng : OpenStackNodeGroup) (delta : Z) :
  query_only (DecreaseTargetSize ng delta).
Proof.
  unfold DecreaseTargetSize. destruct (delta >=? 0); [auto with query|].
  apply query_only_bind; [auto with query | intros cur].
  destruct (_ <? _); auto with query.
Qed.

Lemma query_only_frame {A} (m : M A) (w : World) :
  query_only m ->
  w_servers (snd (m w)) = w_servers w /\
  w_flavors (snd (m w)) = w_flavors w /\
  w_images (snd (m w)) = w_images w /\
  w_heap (snd (m w)) = w_heap w /\
  w_now (snd (m w)) = w_now w /\
  creates (issued w (snd (m w))) = 0%nat /\
  deletes (issued w (snd (m w))) = 0%nat.
Proof.
  intros Hm. destruct (Hm w) as (calls & -> & F).
  rewrite issued_set_calls. repeat (split; [reflexivity|]).
  unfold creates, deletes.
  induction F as [|c l Hc _ [IH1 IH2]]; [split; reflexivity|].
  unfold is_query in Hc. apply andb_true_iff in Hc as [Hc Hd].
  apply negb_true_iff in Hc, Hd. simpl. rewrite Hc, Hd. split; assumption.
Qed.

(** ** Target size *)

Lemma fold_count (f : servers.Server -> bool) (l : list servers.Server) (acc : Z) :
  fold_left (fun count i => if f i then count + 1 else count) l acc
  = acc + Z.of_nat (length (List.filter f l)).
Proof.
  revert acc; induction l as [|x l IH]; intros acc; simpl; [lia|].
  rewrite IH. destruct (f x); simpl; lia.
Qed.

Lemma filter_filter_length {A} (f g : A -> bool) (l : list A) :
  length (List.filter g (List.filter f l))
  = length (List.filter (fun x => f x && g x) l).
Proof.
  induction l as [|x l IH]; simpl; [reflexivity|].
  destruct (f x); simpl; [destruct (g x); simpl; congruence | exact IH].
Qed.

Lemma count_active_filter (ng : OpenStackNodeGroup) (l : list servers.Server) :
  count_active (List.filter (ContainsNode ng) l) = target_count ng l.
Proof.
  unfold count_active, target_count, counted.
  rewrite fold_count, filter_filter_length. reflexivity.
Qed.

Lemma target_count_nonneg (ng : OpenStackNodeGroup) (l : list servers.Server) :
  0 <= target_count ng l.
Proof. unfold target_count. lia. Qed.

Lemma target_count_app (ng : OpenStackNodeGroup) (l1 l2 : list servers.Server) :
  target_count ng (l1 ++ l2) = target_count ng l1 + target_count ng l2.
Proof. unfold target_count. rewrite List.filter_app, length_app. lia. Qed.

(** What [TargetSize] returns and does, in full. *)
Lemma TargetSize_eq (ng : OpenStackNodeGroup) (w : World) :
  TargetSize ng w =
  (match w_faults w (length (w_calls w)) with
   | NoFault => Ok (target_count ng (w_servers w))
   | RequestFails =>
       Err (Wrapf "failed to get instances"
              (Wrapf "failed to list servers" (BackendError CallServersList)))
   | ExtractFails =>
       Err (Wrapf "failed to get instances"
              (Wrapf "failed to extract servers" (ExtractError CallServersList)))
   end,
   set_calls (w_calls w ++ [CallServersList]) w).
Proof.
  unfold TargetSize, getInstances, servers_List_AllPages, wrapf, bind, request, ret, lift.
  destruct (w_faults w _); simpl; try reflexivity.
  rewrite count_active_filter. reflexivity.
Qed.

(** C8. [TargetSize] is the number of instances the attribution rule gives
    to the group whose status is ACTIVE or BUILD.  It sends one list request
    and changes nothing in the world but the request log; it fails exactly
    when that request fails (the request itself, or the decoding of its
    answer), with the backend's error under the context "failed to get
    instances". *)
Theorem TargetSize_counts_active_and_building (ng : OpenStackNodeGroup) (w : World) :
  let fate := w_faults w (length (w_calls w)) in
  TargetSize ng w =
    (match fate with
     | NoFault =>
         Ok (Z.of_nat (length (List.filter
               (fun s => ContainsNode ng s &&
                         (String.eqb (servers.Status s) "ACTIVE"
                          || String.eqb (servers.Status s) "BUILD"))
               (w_servers w))))
     | RequestFails =>
         Err (Wrapf "failed to get instances"
                (Wrapf "failed to list servers" (BackendError CallServersList)))
     | ExtractFails =>
         Err (Wrapf "failed to get instances"
                (Wrapf "failed to extract servers" (ExtractError CallServersList)))
     end,
     set_calls (w_calls w ++ [CallServersList]) w)
  /\ ((exists e, fst (TargetSize ng w) = Err e) <-> fate <> NoFault)
  /\ w_servers (snd (TargetSize ng w)) = w_servers w
  /\ w_flavors (snd (TargetSize ng w)) = w_flavors w
  /\ w_images (snd (TargetSize ng w)) = w_images w
  /\ w_heap (snd (TargetSize ng w)) = w_heap w
  /\ issued w (snd (TargetSize ng w)) = [CallServersList].
Proof.
  intros fate. rewrite TargetSize_eq. fold fate. simpl.
  split; [reflexivity|]. split.
  - destruct fate; split; try congruence; try (intros _; eexists; reflexivity).
    intros [e [=]].
  - repeat (split; [reflexivity|]).
    apply (issued_set_calls [CallServersList]).
Qed.

(** ** Lowering the target *)

(** C3. For [delta < 0], when the current target size plus [delta] (the sum
    as Go computes it, which is the exact sum whenever that fits in 64 bits)
    is below [MinSize], [DecreaseTargetSize] fails with the bound error
    "cannot decrease size to ..., min size is ...".  Whatever it returns, for
    any [delta], it only reads the backend: the instances are the ones it
    started with and no deletion (or creation) request is issued. *)
Theorem DecreaseTargetSize_only_validates
    (ng : OpenStackNodeGroup) (delta : Z) (w : World) (cur : Z) (w1 : World) :
  delta < 0 ->
  TargetSize ng w = (Ok cur, w1) ->
  (int_add cur delta < MinSize ng ->
     DecreaseTargetSize ng delta w
     = (Err (ErrBelowMinSize (int_add cur delta) (MinSize ng)), w1))
  /\ (in_int (cur + delta) -> int_add cur delta = cur + delta)
  /\ (forall d, exists calls,
        snd (DecreaseTargetSize ng d w) = set_calls (w_calls w ++ calls) w
        /\ Forall (fun c => is_query c = true) calls)
  /\ (forall d, w_servers (snd (DecreaseTargetSize ng d w)) = w_servers w
                /\ deletes (issued w (snd (DecreaseTargetSize ng d w))) = 0%nat
                /\ creates (issued w (snd (DecreaseTargetSize ng d w))) = 0%nat).
Proof.
  intros Hd HT. split; [|split; [|split]].
  - intros Hlow. unfold DecreaseTargetSize.
    destruct (Z.geb_spec delta 0) as [|_]; [lia|].
    unfold bind, wrapf. rewrite HT. unfold MinSize in Hlow.
    destruct (Z.ltb_spec (int_add cur delta) (config.MinSize (Config ng))); [|lia].
    reflexivity.
  - apply int_add_exact.
  - intros d. apply query_only_DecreaseTargetSize.
  - intros d.
    pose proof (query_only_frame _ w (query_only_DecreaseTargetSize ng d)) as H.
    tauto.
Qed.

Lemma DecreaseTargetSize_only_validates_witness :
  DecreaseTargetSize Scenario.g1 (-2) Scenario.two_active
  = (Err (ErrBelowMinSize 0 1),
     set_calls [CallServersList] Scenario.two_active).
Proof.
  pose proof (DecreaseTargetSize_only_validates
                Scenario.g1 (-2) Scenario.two_active 2
                (set_calls [CallServersList] Scenario.two_active)
                ltac:(lia) eq_refl) as [H _].
  apply H. vm_compute. reflexivity.
Defined.

(** ** Raising the target *)

Lemma create_metadata_tag (cfg : config.NodeGroupConfig) :
  create_metadata cfg !! "nodegroup" = Some (config.ID cfg).
Proof.
  unfold create_metadata. destruct (negb _).
  - rewrite lookup_insert_ne by discriminate.
    rewrite lookup_insert_ne by discriminate. apply lookup_insert_eq.
  - rewrite lookup_insert_ne by discriminate. apply lookup_insert_eq.
Qed.

Lemma HasPrefix_append (s t : string) : HasPrefix (s +:+ t) s = true.
Proof. apply HasPrefix_spec. exists t. reflexivity. Qed.

Lemma createServer_outcome (ng : OpenStackNodeGroup) (w : World) :
  create_outcome ng w (fst (createServer ng w)) (snd (createServer ng w)).
Proof.
  unfold createServer, bind, wrapf.
  destruct (query_only_getImageID ng w) as (c1 & E1 & F1).
  destruct (getImageID ng w) as [[imageID|e] w1]; simpl in E1; subst w1; simpl;
    [|apply create_lookup_failed; assumption].
  destruct (query_only_getFlavor ng (set_calls (w_calls w ++ c1) w)) as (c2 & E2 & F2).
  destruct (getFlavor ng _) as [[flavor|e] w2]; simpl in E2; subst w2; simpl.
  2:{ rewrite set_calls_twice, <- app_assoc. apply create_lookup_failed.
      apply Forall_app; split; assumption. }
  unfold time_Now, servers_Create, bind, request. simpl.
  match goal with |- context [CallServersCreate ?o] => set (opts := o) end.
  assert (Hreq : request_of ng opts).
  { split; [apply create_metadata_tag | apply HasPrefix_append]. }
  assert (Fq : Forall (fun c => is_query c = true) (c1 ++ c2))
    by (apply Forall_app; split; assumption).
  destruct (w_faults w _); simpl;
    rewrite !set_calls_twice, <- !app_assoc, (app_assoc c1 c2).
  - apply (create_done ng w (c1 ++ c2) opts Fq Hreq).
  - apply (create_request_failed ng w _ (c1 ++ c2) opts Fq Hreq).
  - apply (create_request_failed ng w _ (c1 ++ c2) opts Fq Hreq).
Qed.

Lemma creates_app (c1 c2 : list Call) :
  creates (c1 ++ c2) = (creates c1 + creates c2)%nat.
Proof. unfold creates. rewrite List.filter_app, length_app. reflexivity. Qed.

Lemma deletes_app (c1 c2 : list Call) :
  deletes (c1 ++ c2) = (deletes c1 + deletes c2)%nat.
Proof. unfold deletes. rewrite List.filter_app, length_app. reflexivity. Qed.

Lemma creates_queries (calls : list Call) :
  Forall (fun c => is_query c = true) calls -> creates calls = 0%nat.
Proof.
  unfold creates. induction 1 as [|c l Hc _ IH]; [reflexivity|].
  apply andb_true_iff in Hc as [Hc _]. apply negb_true_iff in Hc.
  simpl. rewrite Hc. exact IH.
Qed.

Lemma scale_up_calls_queries (ng : OpenStackNodeGroup) (calls : list Call) :
  Forall (fun c => is_query c = true) calls -> scale_up_calls ng calls.
Proof.
  unfold scale_up_calls. intros F. eapply Forall_impl; [exact F|].
  intros [] H; try exact I; discriminate H.
Qed.

Lemma scale_up_calls_no_delete (ng : OpenStackNodeGroup) (calls : list Call) :
  scale_up_calls ng calls -> deletes calls = 0%nat.
Proof.
  unfold deletes. induction 1 as [|c l Hc _ IH]; [reflexivity|].
  destruct c; simpl; try exact IH. destruct Hc.
Qed.

Lemma scaled_refl (ng : OpenStackNodeGroup) (w : World) : scaled ng w w [] [].
Proof.
  constructor; rewrite ?app_nil_r; try reflexivity; try constructor.
Qed.

Lemma scaled_trans (ng : OpenStackNodeGroup) (w w1 w2 : World)
      (c1 c2 : list Call) (l1 l2 : list servers.Server) :
  scaled ng w w1 c1 l1 -> scaled ng w1 w2 c2 l2 ->
  scaled ng w w2 (c1 ++ c2) (l1 ++ l2).
Proof.
  intros [] []. constructor; try congruence.
  - rewrite app_assoc. congruence.
  - rewrite app_assoc. congruence.
  - apply Forall_app; split; assumption.
  - apply Forall_app; split; assumption.
  - rewrite creates_app, length_app. lia.
Qed.

Lemma new_server_created_by (ng : OpenStackNodeGroup) (n : nat) (opts : servers.CreateOpts) :
  request_of ng opts -> created_by ng (new_server n opts).
Proof. intros [Htag Hname]. repeat split; assumption. Qed.

Lemma create_outcome_scaled (ng : OpenStackNodeGroup) (w w' : World) (r : result unit) :
  create_outcome ng w r w' ->
  exists calls created,
    scaled ng w w' calls created /\
    (creates calls <= 1)%nat /\
    match r with
    | Ok _ => length created = 1%nat /\ creates calls = 1%nat
    | Err _ => created = []
    end.
Proof.
  assert (Hone : forall calls opts,
             Forall (fun c => is_query c = true) calls ->
             creates (calls ++ [CallServersCreate opts]) = 1%nat).
  { intros calls opts F. rewrite creates_app, (creates_queries _ F). reflexivity. }
  assert (Hreqs : forall calls opts,
             Forall (fun c => is_query c = true) calls -> request_of ng opts ->
             scale_up_calls ng (calls ++ [CallServersCreate opts])).
  { intros calls opts F Hreq. apply Forall_app.
    split; [apply scale_up_calls_queries; assumption|].
    constructor; [exact Hreq | constructor]. }
  intros [e calls F | e calls opts F Hreq | calls opts F Hreq].
  - exists calls, []. rewrite (creates_queries _ F).
    split; [|split; [lia | reflexivity]].
    constructor; try reflexivity.
    + simpl. rewrite app_nil_r. reflexivity.
    + constructor.
    + apply scale_up_calls_queries; assumption.
    + simpl. lia.
  - exists (calls ++ [CallServersCreate opts]), []. rewrite (Hone _ _ F).
    split; [|split; [lia | reflexivity]].
    constructor; try reflexivity.
    + simpl. rewrite app_nil_r. reflexivity.
    + constructor.
    + apply Hreqs; assumption.
    + simpl. lia.
  - exists (calls ++ [CallServersCreate opts]), [new_server (w_next_id w) opts].
    rewrite (Hone _ _ F).
    split; [|split; [lia | split; reflexivity]].
    constructor; try reflexivity.
    + constructor; [apply new_server_created_by; assumption | constructor].
    + apply Hreqs; assumption.
    + rewrite (Hone _ _ F). simpl. lia.
Qed.

(** The scale-up loop: [n] rounds at most, one creation request a round, and
    it stops at the first round that fails, leaving what it created. *)
Lemma create_servers_scaled (ng : OpenStackNodeGroup) (n : nat) (w : World) :
  exists calls created,
    scaled ng w (snd (create_servers ng n w)) calls created /\
    (creates calls <= n)%nat /\
    match fst (create_servers ng n w) with
    | Ok _ => length created = n /\ creates calls = n
    | Err e =>
        (length created < n)%nat /\
        (creates calls <= length created + 1)%nat /\
        exists cause, e = Wrapf "failed to create server" cause
    end.
Proof.
  revert w. induction n as [|n IH]; intros w.
  - exists [], []. simpl.
    split; [apply scaled_refl | split; [apply Nat.le_refl | split; reflexivity]].
  - simpl. unfold bind, wrapf.
    pose proof (createServer_outcome ng w) as Hout.
    destruct (createServer ng w) as [[[]|e] w1]; simpl in Hout;
      apply create_outcome_scaled in Hout as (c1 & l1 & Hs1 & Hle1 & Hr1).
    + destruct Hr1 as [Hl1 Hc1].
      destruct (IH w1) as (c2 & l2 & Hs2 & Hle2 & Hr2).
      exists (c1 ++ c2), (l1 ++ l2).
      split; [eapply scaled_trans; eassumption|].
      rewrite creates_app, length_app, Hc1, Hl1.
      split; [lia|].
      destruct (fst (create_servers ng n w1)).
      * destruct Hr2. split; lia.
      * destruct Hr2 as (H1 & H2 & H3). repeat split; [lia | lia | exact H3].
    + subst l1. exists c1, []. simpl.
      split; [assumption | split; [lia | repeat split; [lia | lia | eauto]]].
Qed.

Lemma TargetSize_scaled (ng : OpenStackNodeGroup) (w : World) :
  scaled ng w (snd (TargetSize ng w)) [CallServersList] [].
Proof.
  rewrite TargetSize_eq. constructor; try reflexivity.
  - simpl. rewrite app_nil_r. reflexivity.
  - constructor.
  - repeat constructor.
Qed.

(** Whatever [IncreaseSize] returns, the world moved by scale-up steps only;
    when it returns [nil], [delta] instances were created by [delta]
    creation requests. *)
Lemma IncreaseSize_scaled (ng : OpenStackNodeGroup) (delta : Z) (w : World) :
  exists calls created,
    scaled ng w (snd (IncreaseSize ng delta w)) calls created /\
    (fst (IncreaseSize ng delta w) = Ok tt ->
       0 < delta /\
       length created = Z.to_nat delta /\ creates calls = Z.to_nat delta /\
       exists cur, fst (TargetSize ng w) = Ok cur /\
                   int_add cur delta <= MaxSize ng).
Proof.
  unfold IncreaseSize. destruct (Z.leb_spec delta 0) as [Hle|Hpos].
  { exists [], []. split; [apply scaled_refl | discriminate]. }
  unfold bind, wrapf.
  pose proof (TargetSize_scaled ng w) as Hs.
  destruct (TargetSize ng w) as [[cur|e] w1]; simpl in Hs |- *.
  2:{ exists [CallServersList], []. split; [assumption | discriminate]. }
  destruct (Z.gtb_spec (int_add cur delta) (config.MaxSize (Config ng))) as [Hgt|Hfit].
  { exists [CallServersList], []. split; [assumption | discriminate]. }
  destruct (create_servers_scaled ng (Z.to_nat delta) w1) as (c & l & Hs2 & _ & Hr).
  exists ([CallServersList] ++ c), ([] ++ l).
  split; [eapply scaled_trans; eassumption|].
  intros Hok. rewrite Hok in Hr. destruct Hr as [Hl Hc].
  split; [assumption|]. split; [exact Hl|]. split.
  - rewrite creates_app, Hc. reflexivity.
  - exists cur. split; [reflexivity | exact Hfit].
Qed.

Lemma issued_app (w w' : World) (calls : list Call) :
  w_calls w' = w_calls w ++ calls -> issued w w' = calls.
Proof. unfold issued. intros ->. apply drop_app_length. Qed.

(** What [k] successful rounds leave behind: [k] creation requests and the
    [k] instances they created. *)
Lemma rounds_scaled (ng : OpenStackNodeGroup) (k : nat) (w w' : World) :
  rounds ng k w w' ->
  exists calls created,
    scaled ng w w' calls created /\ length created = k /\ creates calls = k.
Proof.
  induction 1 as [w | k w w1 w' Hc _ (c2 & l2 & Hs2 & Hl2 & Hc2)].
  - exists [], []. split; [apply scaled_refl | split; reflexivity].
  - pose proof (createServer_outcome ng w) as Hout. rewrite Hc in Hout.
    simpl in Hout.
    apply create_outcome_scaled in Hout as (c1 & l1 & Hs1 & _ & Hl1 & Hc1).
    exists (c1 ++ c2), (l1 ++ l2).
    split; [eapply scaled_trans; eassumption|].
    rewrite creates_app, length_app. lia.
Qed.

(** The scale-up loop is [n] calls of [createServer] in a row, cut short by
    the first one that fails. *)
Lemma create_servers_rounds (ng : OpenStackNodeGroup) (n : nat) (w : World) :
  match create_servers ng n w with
  | (Ok _, w') => rounds ng n w w'
  | (Err e, w') =>
      exists k wk cause,
        (k < n)%nat
        /\ rounds ng k w wk
        /\ createServer ng wk = (Err cause, w')
        /\ e = Wrapf "failed to create server" cause
  end.
Proof.
  revert w. induction n as [|n IH]; intros w.
  - simpl. constructor.
  - simpl. unfold bind, wrapf.
    destruct (createServer ng w) as [[[]|cause] w1] eqn:Hc.
    + specialize (IH w1).
      destruct (create_servers ng n w1) as [[[]|e] w'].
      * eapply rounds_S; eassumption.
      * destruct IH as (k & wk & cause & Hk & Hr & Hf & ->).
        exists (S k), wk, cause.
        split; [lia|]. split; [eapply rounds_S; eassumption|].
        split; [exact Hf | reflexivity].
    + exists 0%nat, w, cause.
      split; [lia|]. split; [constructor|]. split; [exact Hc | reflexivity].
Qed.

(** Past the two checks, [IncreaseSize] is the loop. *)
Lemma IncreaseSize_proceeds
    (ng : OpenStackNodeGroup) (delta : Z) (w : World) (cur : Z) (w1 : World) :
  0 < delta ->
  TargetSize ng w = (Ok cur, w1) ->
  int_add cur delta <= MaxSize ng ->
  IncreaseSize ng delta w = create_servers ng (Z.to_nat delta) w1.
Proof.
  intros Hpos HT Hfit. unfold IncreaseSize, MaxSize in *.
  destruct (Z.leb_spec delta 0) as [|_]; [lia|].
  unfold bind, wrapf. rewrite HT.
  destruct (Z.gtb_spec (int_add cur delta) (config.MaxSize (Config ng))); [lia|].
  reflexivity.
Qed.

(** C1, as the code has it.  Let [delta > 0], let [TargetSize] return [cur],
    and let [cur + delta] fit Go's 64-bit [int] (as it does for every delta
    the protocol carries, a 32-bit integer, with fewer than 2^62 instances
    counted).  When [cur + delta] exceeds [MaxSize], [IncreaseSize] fails with
    the bound error "cannot increase size to ..., max size is ..." having
    issued no creation request, the instances untouched.  Otherwise it calls
    [createServer] round after round.  When it
    returns [nil], [delta] rounds succeeded in a row: [delta] creation
    requests went out and [delta] instances were created.  When it returns an
    error, some [k < delta] rounds succeeded in a row and the next call of
    [createServer] failed; its error comes back as "failed to create server",
    no further round was run, and the [k] instances created so far are still
    there ([k] creation requests created them, and at most one more, the
    failed one, went out). *)
Theorem IncreaseSize_respects_capacity
    (ng : OpenStackNodeGroup) (delta : Z) (w : World) (cur : Z) (w1 : World) :
  0 < delta ->
  TargetSize ng w = (Ok cur, w1) ->
  in_int (cur + delta) ->
  (cur + delta > MaxSize ng ->
     IncreaseSize ng delta w
     = (Err (ErrAboveMaxSize (cur + delta) (MaxSize ng)), w1)
     /\ creates (issued w w1) = 0%nat
     /\ w_servers w1 = w_servers w)
  /\ (cur + delta <= MaxSize ng ->
      match IncreaseSize ng delta w with
      | (Ok _, w') =>
          rounds ng (Z.to_nat delta) w1 w'
          /\ exists calls created,
               scaled ng w1 w' calls created
               /\ length created = Z.to_nat delta
               /\ creates calls = Z.to_nat delta
      | (Err e, w') =>
          exists k wk cause,
            (k < Z.to_nat delta)%nat
            /\ rounds ng k w1 wk
            /\ createServer ng wk = (Err cause, w')
            /\ e = Wrapf "failed to create server" cause
            /\ exists calls created,
                 scaled ng w1 w' calls created
                 /\ length created = k
                 /\ (k <= creates calls <= k + 1)%nat
      end).
Proof.
  intros Hpos HT Hint.
  pose proof (int_add_exact cur delta Hint) as Hsum.
  split.
  - intros Hgt.
    assert (Hw1 : w1 = set_calls (w_calls w ++ [CallServersList]) w).
    { rewrite TargetSize_eq in HT. congruence. }
    unfold IncreaseSize, MaxSize in *.
    destruct (Z.leb_spec delta 0) as [|_]; [lia|].
    unfold bind, wrapf. rewrite HT, Hsum.
    destruct (Z.gtb_spec (cur + delta) (config.MaxSize (Config ng))); [|lia].
    split; [reflexivity|]. subst w1. rewrite issued_set_calls.
    split; reflexivity.
  - intros Hfit.
    rewrite (IncreaseSize_proceeds ng delta w cur w1 Hpos HT) by lia.
    pose proof (create_servers_rounds ng (Z.to_nat delta) w1) as Hloop.
    destruct (create_servers ng (Z.to_nat delta) w1) as [[[]|e] w'].
    + split; [exact Hloop|]. apply rounds_scaled. exact Hloop.
    + destruct Hloop as (k & wk & cause & Hk & Hr & Hf & ->).
      exists k, wk, cause. repeat (split; [assumption || reflexivity|]).
      destruct (rounds_scaled ng k w1 wk Hr) as (c1 & l1 & Hs1 & Hl1 & Hc1).
      pose proof (createServer_outcome ng wk) as Hout. rewrite Hf in Hout.
      simpl in Hout.
      apply create_outcome_scaled in Hout as (c2 & l2 & Hs2 & Hle2 & ->).
      exists (c1 ++ c2), (l1 ++ []).
      split; [eapply scaled_trans; eassumption|].
      rewrite creates_app, length_app. simpl. lia.
Qed.

Lemma IncreaseSize_respects_capacity_witness :
  IncreaseSize Scenario.g1 4 Scenario.two_active
  = (Err (ErrAboveMaxSize 6 5), set_calls [CallServersList] Scenario.two_active)
  /\ rounds Scenario.g1 2 (set_calls [CallServersList] Scenario.two_active)
            (snd (IncreaseSize Scenario.g1 2 Scenario.two_active))
  /\ exists calls created,
       scaled Scenario.g1 (set_calls [CallServersList] Scenario.two_active)
              (snd (IncreaseSize Scenario.g1 2 Scenario.two_active)) calls created
       /\ length created = 2%nat /\ creates calls = 2%nat.
Proof.
  split.
  - refine (proj1 (proj1 (IncreaseSize_respects_capacity
                     Scenario.g1 4 Scenario.two_active 2
                     (set_calls [CallServersList] Scenario.two_active)
                     _ eq_refl _) _)).
    + lia.
    + vm_compute. split; discriminate.
    + vm_compute. reflexivity.
  - assert (E : IncreaseSize Scenario.g1 2 Scenario.two_active
                = (Ok tt, snd (IncreaseSize Scenario.g1 2 Scenario.two_active))).
    { vm_compute. reflexivity. }
    assert (H : match IncreaseSize Scenario.g1 2 Scenario.two_active with
                | (Ok _, w') =>
                    rounds Scenario.g1 (Z.to_nat 2)
                           (set_calls [CallServersList] Scenario.two_active) w'
                    /\ exists calls created,
                         scaled Scenario.g1
                                (set_calls [CallServersList] Scenario.two_active)
                                w' calls created
                         /\ length created = Z.to_nat 2
                         /\ creates calls = Z.to_nat 2
                | (Err _, _) => True
                end).
    { pose proof (proj2 (IncreaseSize_respects_capacity
                           Scenario.g1 2 Scenario.two_active 2
                           (set_calls [CallServersList] Scenario.two_active)
                           ltac:(lia) eq_refl
                           ltac:(vm_compute; split; discriminate))
                        ltac:(vm_compute; discriminate)) as H0.
      destruct (IncreaseSize Scenario.g1 2 Scenario.two_active) as [[[]|e] w'];
        [exact H0 | exact I]. }
    rewrite E in H. exact H.
Defined.

(** C1, as stated, fails for a delta whose sum with the current size does
    not fit the 64-bit [int].  Group [g1] is bounded by 5 and has two active
    instances; with the largest [int] as delta the sum exceeds the bound, yet
    the sum Go computes is negative, the check passes, [IncreaseSize] does not
    return the bound error, and a creation request goes out. *)
Lemma IncreaseSize_overflowing_sum :
  fst (TargetSize Scenario.g1 Scenario.two_active) = Ok 2
  /\ 0 < max_int
  /\ 2 + max_int > MaxSize Scenario.g1
  /\ int_add 2 max_int = min_int + 1
  /\ (forall n m, fst (IncreaseSize Scenario.g1 max_int Scenario.two_active)
                  <> Err (ErrAboveMaxSize n m))
  /\ (1 <= creates (issued Scenario.two_active
                      (snd (IncreaseSize Scenario.g1 max_int Scenario.two_active))))%nat.
Proof.
  split; [vm_compute; reflexivity|].
  split; [reflexivity|].
  split; [reflexivity|].
  split; [vm_compute; reflexivity|].
  set (w1 := set_calls [CallServersList] Scenario.two_active).
  assert (E : IncreaseSize Scenario.g1 max_int Scenario.two_active
              = create_servers Scenario.g1 (Z.to_nat max_int) w1).
  { apply (IncreaseSize_proceeds Scenario.g1 max_int Scenario.two_active 2 w1).
    - reflexivity.
    - reflexivity.
    - vm_compute. discriminate. }
  rewrite E. clear E.
  assert (En : exists n, Z.to_nat max_int = S n).
  { exists (Z.to_nat (max_int - 1)). unfold max_int. lia. }
  destruct En as [n ->].
  split.
  - intros a b.
    destruct (create_servers_scaled Scenario.g1 (S n) w1) as (c & l & _ & _ & Hr).
    destruct (fst (create_servers Scenario.g1 (S n) w1)); [discriminate|].
    destruct Hr as (_ & _ & cause & ->). discriminate.
  - assert (Hc : createServer Scenario.g1 w1
                 = (Ok tt, snd (createServer Scenario.g1 w1))).
    { vm_compute. reflexivity. }
    pose proof (rounds_scaled Scenario.g1 1 w1 (snd (createServer Scenario.g1 w1))
                  (rounds_S _ _ _ _ _ Hc (rounds_O _ _)))
      as (c1 & l1 & Hs1 & _ & Hc1).
    change (create_servers Scenario.g1 (S n) w1)
      with (bind (wrapf "failed to create server" (createServer Scenario.g1))
                 (fun _ => create_servers Scenario.g1 n) w1).
    unfold bind, wrapf. rewrite Hc.
    destruct (create_servers_scaled Scenario.g1 n (snd (createServer Scenario.g1 w1)))
      as (c2 & l2 & Hs2 & _).
    pose proof (scaled_trans _ _ _ _ _ _ _ _ Hs1 Hs2) as Hs.
    assert (Hi : issued Scenario.two_active
                   (snd (create_servers Scenario.g1 n
                           (snd (createServer Scenario.g1 w1))))
                 = [CallServersList] ++ c1 ++ c2).
    { apply issued_app. rewrite (sc_calls _ _ _ _ _ Hs). reflexivity. }
    rewrite Hi, !creates_app, Hc1. lia.
Qed.

(** The scale-up scenario: [g1] is bounded by 1 and 5 and has two active
    instances.  [IncreaseSize 2] succeeds with two creation requests and the
    target size becomes 4; a second [IncreaseSize 2] is rejected (6 > 5)
    without any creation request. *)
Example scale_up_scenario :
  let r1 := IncreaseSize Scenario.g1 2 Scenario.two_active in
  let r2 := IncreaseSize Scenario.g1 2 (snd r1) in
  fst r1 = Ok tt
  /\ creates (issued Scenario.two_active (snd r1)) = 2%nat
  /\ fst (TargetSize Scenario.g1 (snd r1)) = Ok 4
  /\ fst r2 = Err (ErrAboveMaxSize 6 5)
  /\ creates (issued (snd r1) (snd r2)) = 0%nat
  /\ fst (TargetSize Scenario.g1 (snd r2)) = Ok 4.
Proof. vm_compute. repeat split; reflexivity. Qed.

(** A creation that fails on the second round: the first instance stays. *)
Example partial_scale_up :
  let w := Scenario.a_world [] (fun n => if (n =? 8)%nat then RequestFails else NoFault) in
  let r := IncreaseSize Scenario.g1 3 w in
  fst r = Err (Wrapf "failed to create server"
                 (Wrapf "failed to create server"
                    (BackendError
                       (CallServersCreate
                          (servers.mkCreateOpts
                             "g1-1700000000" "img-1" "f-1" ""
                             (create_metadata (Config Scenario.g1)) [] "" [])))))
  /\ creates (issued w (snd r)) = 2%nat
  /\ fst (TargetSize Scenario.g1 (snd r)) = Ok 1.
Proof. vm_compute. repeat split; reflexivity. Qed.

Lemma created_by_attributed (ng : OpenStackNodeGroup) (s : servers.Server) :
  created_by ng s -> ContainsNode ng s = true.
Proof.
  intros (Htag & _ & _). rewrite (ContainsNode_tagged _ _ _ Htag).
  apply String.eqb_refl.
Qed.

(** C10. Every creation request [IncreaseSize] sends carries the metadata
    entry ["nodegroup"] set to the group's id and a name that starts with that
    id; the instances it leaves on the backend (all [delta] of them when it
    succeeds) carry both, so [ContainsNode] gives each of them back to the
    group by its tag. *)
Theorem IncreaseSize_tags_what_it_creates
    (ng : OpenStackNodeGroup) (delta : Z) (w : World) :
  exists created,
    w_servers (snd (IncreaseSize ng delta w)) = w_servers w ++ created
    /\ match fst (IncreaseSize ng delta w) with
       | Ok _ => length created = Z.to_nat delta
       | Err _ => True
       end
    /\ Forall (fun s =>
                 servers.Metadata s !! "nodegroup" = Some (ID ng)
                 /\ (exists suffix, servers.Name s = ID ng +:+ suffix)
                 /\ ContainsNode ng s = true) created
    /\ Forall (fun c =>
                 match c with
                 | CallServersCreate opts =>
                     servers.opts_Metadata opts !! "nodegroup" = Some (ID ng)
                     /\ exists suffix, servers.opts_Name opts = ID ng +:+ suffix
                 | _ => True
                 end) (issued w (snd (IncreaseSize ng delta w))).
Proof.
  destruct (IncreaseSize_scaled ng delta w) as (calls & created & Hs & Hok).
  exists created. split; [apply (sc_servers _ _ _ _ _ Hs)|]. split; [|split].
  - destruct (fst (IncreaseSize ng delta w)) as [[]|e] eqn:E; [|exact I].
    apply Hok. reflexivity.
  - eapply Forall_impl; [apply (sc_created _ _ _ _ _ Hs)|].
    intros s Hc. pose proof (created_by_attributed _ _ Hc) as Hin.
    destruct Hc as (Htag & Hname & _).
    split; [exact Htag|]. split; [|exact Hin].
    apply HasPrefix_spec. exact Hname.
  - rewrite (issued_app _ _ _ (sc_calls _ _ _ _ _ Hs)).
    eapply Forall_impl; [apply (sc_requests _ _ _ _ _ Hs)|].
    intros [] H; try exact I. destruct H as [Htag Hname].
    split; [exact Htag | apply HasPrefix_spec; exact Hname].
Qed.

(** ** The size bounds across a sequence of requests *)

Lemma created_by_counted (ng : OpenStackNodeGroup) (l : list servers.Server) :
  Forall (created_by ng) l -> target_count ng l = Z.of_nat (length l).
Proof.
  unfold target_count. induction 1 as [|s l Hs _ IH]; [reflexivity|].
  simpl. unfold counted at 1. rewrite (created_by_attributed _ _ Hs).
  destruct Hs as (_ & _ & ->). simpl. simpl in IH. lia.
Qed.

Lemma IncreaseSize_preserves_bounds (ng : OpenStackNodeGroup) (delta : Z) (w : World) :
  within_bounds ng w ->
  MaxSize ng + delta <= max_int ->
  fst (IncreaseSize ng delta w) = Ok tt ->
  target_count ng (w_servers (snd (IncreaseSize ng delta w)))
  = target_count ng (w_servers w) + delta
  /\ within_bounds ng (snd (IncreaseSize ng delta w)).
Proof.
  intros [Hmin Hmax] Hfit Hok.
  destruct (IncreaseSize_scaled ng delta w) as (calls & created & Hs & Hsucc).
  destruct (Hsucc Hok) as (Hpos & Hlen & _ & cur & Hcur & Hcheck).
  rewrite TargetSize_eq in Hcur. simpl in Hcur.
  destruct (w_faults w _); try discriminate. injection Hcur as <-.
  pose proof (target_count_nonneg ng (w_servers w)) as H0.
  rewrite int_add_exact in Hcheck
    by (unfold in_int, min_int, max_int in *; lia).
  assert (Hnew : target_count ng (w_servers (snd (IncreaseSize ng delta w)))
                 = target_count ng (w_servers w) + delta).
  { rewrite (sc_servers _ _ _ _ _ Hs), target_count_app.
    rewrite (created_by_counted _ _ (sc_created _ _ _ _ _ Hs)), Hlen. lia. }
  split; [exact Hnew|]. unfold within_bounds. rewrite Hnew. lia.
Qed.

Lemma DecreaseTargetSize_preserves_bounds (ng : OpenStackNodeGroup) (delta : Z) (w : World) :
  within_bounds ng w -> within_bounds ng (snd (DecreaseTargetSize ng delta w)).
Proof.
  unfold within_bounds.
  destruct (query_only_frame _ w (query_only_DecreaseTargetSize ng delta)) as [-> _].
  trivial.
Qed.

(** C2, as the code has it.  When the target size lies within the bounds
    before a sequence of [IncreaseSize] and [DecreaseTargetSize] requests, and
    every request of the sequence succeeds, it lies within the bounds after
    it, and a [TargetSize] read then returns a value within the bounds.  (The
    increases are those whose bound check cannot overflow: [MaxSize + delta]
    fits in an [int].) *)
Theorem bounds_preserved (ng : OpenStackNodeGroup) (ops : list SizeOp) (w : World) :
  within_bounds ng w ->
  Forall (fits ng) ops ->
  fst (run_ops ng ops w) = Ok tt ->
  within_bounds ng (snd (run_ops ng ops w))
  /\ forall n, fst (TargetSize ng (snd (run_ops ng ops w))) = Ok n ->
               MinSize ng <= n <= MaxSize ng.
Proof.
  intros Hw Hfits Hok.
  assert (Hb : within_bounds ng (snd (run_ops ng ops w))).
  { revert w Hw Hok. induction Hfits as [|op ops Hfit _ IH]; intros w Hw Hok.
    - exact Hw.
    - simpl in *. unfold bind in *.
      destruct (run_op ng op w) as [[[]|e] w1] eqn:E; [|discriminate].
      apply IH; [|exact Hok].
      destruct op as [delta|delta]; simpl in E, Hfit.
      + pose proof (IncreaseSize_preserves_bounds ng delta w Hw Hfit) as H.
        rewrite E in H. apply H. reflexivity.
      + pose proof (DecreaseTargetSize_preserves_bounds ng delta w Hw) as H.
        rewrite E in H. exact H. }
  split; [exact Hb|].
  intros n Hn. rewrite TargetSize_eq in Hn. simpl in Hn.
  destruct (w_faults _ _); try discriminate. injection Hn as <-. exact Hb.
Qed.

Lemma bounds_preserved_witness :
  within_bounds Scenario.g1
    (snd (run_ops Scenario.g1 [OpIncrease 2; OpDecrease (-1)] Scenario.two_active)).
Proof.
  refine (proj1 (bounds_preserved Scenario.g1 [OpIncrease 2; OpDecrease (-1)]
                                  Scenario.two_active _ _ _)).
  - unfold within_bounds. vm_compute. split; discriminate.
  - constructor; [vm_compute; discriminate | constructor; [exact I | constructor]].
  - vm_compute. reflexivity.
Defined.

(** C2, as stated, fails: a group bounded by 2 and 5 with no instance accepts
    [IncreaseSize 1], after which its target size is 1; a group bounded by 1
    and 5 that already has six instances accepts [DecreaseTargetSize (-1)],
    after which its target size is still 6. *)
Lemma bounds_not_established :
  ~ (forall ng ops w,
        validateConfig ng = Ok tt ->
        fst (run_ops ng ops w) = Ok tt ->
        forall n, fst (TargetSize ng (snd (run_ops ng ops w))) = Ok n ->
                  MinSize ng <= n <= MaxSize ng).
Proof.
  intros H.
  specialize (H (Scenario.a_group "g2" 2 5) [OpIncrease 1]
                (Scenario.a_world [] Scenario.no_faults) eq_refl eq_refl 1 eq_refl).
  vm_compute in H. destruct H as [H _]. apply H. reflexivity.
Qed.

Example bounds_not_restored_from_above :
  let w := Scenario.a_world
             (map (fun i => Scenario.active i "g1-x" "g1") ["a"; "b"; "c"; "d"; "e"; "f"])
             Scenario.no_faults in
  let r := run_ops Scenario.g1 [OpDecrease (-1)] w in
  fst r = Ok tt /\ fst (TargetSize Scenario.g1 (snd r)) = Ok 6 /\ MaxSize Scenario.g1 = 5.
Proof. vm_compute. repeat split; reflexivity. Qed.

(** ** Deleting nodes *)

Lemma strip_prefix_shorter (p s r : string) :
  strip_prefix p s = Some r -> String.length s = (String.length p + String.length r)%nat.
Proof.
  revert s; induction p as [|a p IH]; intros s; simpl.
  - intros [= ->]. reflexivity.
  - destruct s as [|b s]; [discriminate|].
    destruct (Ascii.eqb a b); [|discriminate].
    intros H. simpl. rewrite (IH _ H). reflexivity.
Qed.

(** [TrimPrefix] returns its argument unchanged exactly when the (non-empty)
    prefix is missing. *)
Lemma TrimPrefix_unchanged (s p : string) :
  p <> "" ->
  String.eqb (TrimPrefix s p) s = negb (HasPrefix s p).
Proof.
  intros Hp. unfold TrimPrefix, HasPrefix.
  destruct (strip_prefix p s) as [r|] eqn:E; simpl; [|apply String.eqb_refl].
  apply String.eqb_neq. intros ->.
  apply strip_prefix_shorter in E. destruct p; [congruence | simpl in E; lia].
Qed.

Lemma deleteNode_malformed (ng : OpenStackNodeGroup) (node : apiv1.Node) (w : World) :
  well_formed_id node = false ->
  deleteNode ng node w = (Err (ErrInvalidProviderID (apiv1.ProviderID node)), w).
Proof.
  unfold well_formed_id, deleteNode. intros H.
  rewrite TrimPrefix_unchanged by discriminate. rewrite H. reflexivity.
Qed.

(** One node costs at most one request. *)
Lemma deleteNode_calls (ng : OpenStackNodeGroup) (node : apiv1.Node) (w : World) :
  exists calls,
    w_calls (snd (deleteNode ng node w)) = w_calls w ++ calls /\
    (length calls <= 1)%nat.
Proof.
  unfold deleteNode. destruct (String.eqb _ _).
  - exists []. simpl. rewrite app_nil_r. split; [reflexivity | lia].
  - eexists [_]. unfold wrapf, servers_Delete, bind, request. simpl.
    split; [|simpl; lia].
    destruct (w_faults w _); simpl; try reflexivity.
    destruct (find_server _ _); reflexivity.
Qed.

Lemma DeleteNodes_app (ng : OpenStackNodeGroup) (l1 l2 : list apiv1.Node) (w : World) :
  DeleteNodes ng (l1 ++ l2) w =
  match DeleteNodes ng l1 w with
  | (Ok _, w1) => DeleteNodes ng l2 w1
  | (Err e, w1) => (Err e, w1)
  end.
Proof.
  revert w; induction l1 as [|n l1 IH]; intros w; simpl; [reflexivity|].
  unfold bind. destruct (wrapf _ (deleteNode ng n) w) as [[[]|e] w1]; [apply IH | reflexivity].
Qed.

Lemma DeleteNodes_calls (ng : OpenStackNodeGroup) (nodes : list apiv1.Node) (w : World) :
  exists calls,
    w_calls (snd (DeleteNodes ng nodes w)) = w_calls w ++ calls /\
    (length calls <= length nodes)%nat.
Proof.
  revert w; induction nodes as [|n nodes IH]; intros w; simpl.
  - exists []. rewrite app_nil_r. split; [reflexivity | simpl; lia].
  - unfold bind, wrapf. destruct (deleteNode_calls ng n w) as (c1 & E1 & L1).
    destruct (deleteNode ng n w) as [[[]|e] w1]; simpl in E1 |- *.
    + destruct (IH w1) as (c2 & E2 & L2). exists (c1 ++ c2).
      rewrite E2, E1, length_app, app_assoc. split; [reflexivity | lia].
    + exists c1. split; [exact E1 | lia].
Qed.

Lemma deletes_le_length (calls : list Call) : (deletes calls <= length calls)%nat.
Proof. unfold deletes. apply List.filter_length_le. Qed.

Lemma DeleteNodes_refuses_malformed_id_aux
      (ng : OpenStackNodeGroup) (node : apiv1.Node) (w : World) :
  well_formed_id node = false ->
  forall rest,
    DeleteNodes ng (node :: rest) w
    = (Err (Wrapf ("failed to delete node " +:+ apiv1.Name node)
              (ErrInvalidProviderID (apiv1.ProviderID node))), w).
Proof.
  intros Hbad rest. simpl. unfold bind, wrapf.
  rewrite (deleteNode_malformed ng node w Hbad). reflexivity.
Qed.

(** C5. A node reference whose provider id lacks the prefix ["openstack://"]
    is refused with "invalid provider ID format" before any request is sent:
    [deleteNode] returns the error and leaves the world as it was, and so does
    [DeleteNodes] on a slice that starts with such a reference.  On any slice
    that contains one, [DeleteNodes] does what it does on the references
    before it and then stops with that error (or with the earlier failure):
    no request goes out for the malformed reference or for the ones after
    it. *)
Theorem DeleteNodes_refuses_malformed_id
    (ng : OpenStackNodeGroup) (node : apiv1.Node) (w : World) :
  well_formed_id node = false ->
  deleteNode ng node w = (Err (ErrInvalidProviderID (apiv1.ProviderID node)), w)
  /\ (forall rest,
        DeleteNodes ng (node :: rest) w
        = (Err (Wrapf ("failed to delete node " +:+ apiv1.Name node)
                  (ErrInvalidProviderID (apiv1.ProviderID node))), w))
  /\ (forall before rest,
        DeleteNodes ng (before ++ node :: rest) w
        = match DeleteNodes ng before w with
          | (Ok _, w1) =>
              (Err (Wrapf ("failed to delete node " +:+ apiv1.Name node)
                      (ErrInvalidProviderID (apiv1.ProviderID node))), w1)
          | (Err e, w1) => (Err e, w1)
          end
        /\ (deletes (issued w (snd (DeleteNodes ng (before ++ node :: rest) w)))
            <= length before)%nat).
Proof.
  intros Hbad.
  assert (Hhead : forall rest w0,
             DeleteNodes ng (node :: rest) w0
             = (Err (Wrapf ("failed to delete node " +:+ apiv1.Name node)
                       (ErrInvalidProviderID (apiv1.ProviderID node))), w0)).
  { intros rest w0. apply DeleteNodes_refuses_malformed_id_aux. exact Hbad. }
  split; [apply deleteNode_malformed; exact Hbad|].
  split; [intros rest; apply Hhead|].
  intros before rest.
  assert (Heq : DeleteNodes ng (before ++ node :: rest) w
                = match DeleteNodes ng before w with
                  | (Ok _, w1) =>
                      (Err (Wrapf ("failed to delete node " +:+ apiv1.Name node)
                              (ErrInvalidProviderID (apiv1.ProviderID node))), w1)
                  | (Err e, w1) => (Err e, w1)
                  end).
  { rewrite DeleteNodes_app.
    destruct (DeleteNodes ng before w) as [[[]|e] w1]; [apply Hhead | reflexivity]. }
  split; [exact Heq|].
  rewrite Heq. destruct (DeleteNodes_calls ng before w) as (calls & E & L).
  destruct (DeleteNodes ng before w) as [[[]|e] w1]; simpl in E |- *;
    rewrite (issued_app _ _ _ E); pose proof (deletes_le_length calls); lia.
Qed.

Lemma DeleteNodes_refuses_malformed_id_witness :
  DeleteNodes Scenario.g1
    [Scenario.a_node "n1" "aws://i-1"; Scenario.a_node "n2" "openstack://i-2"]
    Scenario.two_active
  = (Err (Wrapf "failed to delete node n1" (ErrInvalidProviderID "aws://i-1")),
     Scenario.two_active).
Proof.
  exact (proj1 (proj2 (DeleteNodes_refuses_malformed_id
                         Scenario.g1 (Scenario.a_node "n1" "aws://i-1")
                         Scenario.two_active eq_refl))
               [Scenario.a_node "n2" "openstack://i-2"]).
Defined.

(** A well-formed reference ahead of a malformed one is deleted before the
    operation stops. *)
Example delete_stops_at_malformed :
  let r := DeleteNodes Scenario.g1
             [Scenario.a_node "n2" "openstack://i-2"; Scenario.a_node "n1" "aws://i-1"]
             Scenario.two_active in
  fst r = Err (Wrapf "failed to delete node n1" (ErrInvalidProviderID "aws://i-1"))
  /\ issued Scenario.two_active (snd r) = [CallServersDelete "i-2"]
  /\ map servers.ID (w_servers (snd r)) = ["i-1"].
Proof. vm_compute. repeat split; reflexivity. Qed.

(** ** The directory of groups *)

Lemma AddNodeGroup_registers (p p1 : OpenStackProvider)
      (cfg : config.NodeGroupConfig) (g : OpenStackNodeGroup) :
  Provider.AddNodeGroup p cfg = (Ok g, p1) ->
  nodeGroups p1 !! config.ID cfg = Some g /\
  (forall id, id <> config.ID cfg -> nodeGroups p1 !! id = nodeGroups p !! id).
Proof.
  unfold Provider.AddNodeGroup.
  destruct (nodeGroups p !! config.ID cfg) as [existing|] eqn:E.
  - intros [= <- <-]. split; [exact E | reflexivity].
  - destruct (NewOpenStackNodeGroup cfg) as [nodeGroup|e]; [|discriminate].
    intros [= <- <-]. simpl. split; [apply lookup_insert_eq|].
    intros id Hne. apply lookup_insert_ne. congruence.
Qed.

Lemma eqb_empty_set (s : string) : String.eqb s "" = false <-> is_set s.
Proof. apply String.eqb_neq. Qed.

Lemma validateConfig_valid (g : OpenStackNodeGroup) :
  validateConfig g = Ok tt <-> valid_config (Config g).
Proof.
  unfold validateConfig, valid_config, is_set.
  destruct (String.eqb_spec (config.ID (Config g)) "") as [E1|E1];
    [split; [discriminate | tauto]|].
  destruct (Z.ltb_spec (config.MinSize (Config g)) 0);
    [split; [discriminate | lia]|].
  destruct (Z.ltb_spec (config.MaxSize (Config g)) (config.MinSize (Config g)));
    [split; [discriminate | lia]|].
  destruct (String.eqb_spec (config.FlavorName (Config g)) "") as [E2|E2];
    [split; [discriminate | tauto]|].
  destruct (String.eqb_spec (config.ImageName (Config g)) "") as [E3|E3];
    destruct (String.eqb_spec (config.ImageID (Config g)) "") as [E4|E4]; simpl;
    (split; [intros Hok; try discriminate Hok; repeat split; auto; lia
            | try reflexivity; tauto]).
Qed.

Lemma NewOpenStackNodeGroup_cases (cfg : config.NodeGroupConfig) :
  (valid_config cfg /\
   NewOpenStackNodeGroup cfg = Ok (mkNodeGroup cfg None time_zero))
  \/ (~ valid_config cfg /\
      exists cause,
        NewOpenStackNodeGroup cfg
        = Err (Wrapf "invalid node group configuration" cause)).
Proof.
  pose proof (validateConfig_valid (mkNodeGroup cfg None time_zero)) as Hv.
  simpl in Hv. unfold NewOpenStackNodeGroup.
  destruct (validateConfig (mkNodeGroup cfg None time_zero)) as [[]|cause].
  - left. split; [apply Hv; reflexivity | reflexivity].
  - right. split; [intros H; apply Hv in H; discriminate | eauto].
Qed.

(** C6. Two calls of [AddNodeGroup] with the same id, the first of them
    with a configuration that passes validation or with an id the directory
    already holds.  Both calls return the same group.  For a new id that group
    is the one made from the first call's configuration, and the first call
    files it under the id, the directory growing by that one entry; for a
    registered id it is the group already filed, and the directory stays as it
    was.  The second call, whatever the rest of its configuration, leaves the
    directory as the first call left it.  The directory then lists exactly one
    entry under the id, the group returned, and its other entries are those it
    had before the first call. *)
Theorem AddNodeGroup_idempotent
    (p : OpenStackProvider) (cfg1 cfg2 : config.NodeGroupConfig) :
  config.ID cfg2 = config.ID cfg1 ->
  valid_config cfg1 \/ is_Some (nodeGroups p !! config.ID cfg1) ->
  exists g p1,
    Provider.AddNodeGroup p cfg1 = (Ok g, p1)
    /\ Provider.AddNodeGroup p1 cfg2 = (Ok g, p1)
    /\ match nodeGroups p !! config.ID cfg1 with
       | Some existing => g = existing /\ p1 = p
       | None =>
           g = mkNodeGroup cfg1 None time_zero
           /\ nodeGroups p1 = <[config.ID cfg1 := g]> (nodeGroups p)
           /\ size (nodeGroups p1) = S (size (nodeGroups p))
       end
    /\ Provider.GetNodeGroup p1 (config.ID cfg1) = Some g
    /\ map_to_list (nodeGroups p1)
       ≡ₚ (config.ID cfg1, g) :: map_to_list (delete (config.ID cfg1) (nodeGroups p1))
    /\ (forall g', (config.ID cfg1, g') ∉
                   map_to_list (delete (config.ID cfg1) (nodeGroups p1)))
    /\ (forall id, id <> config.ID cfg1 -> nodeGroups p1 !! id = nodeGroups p !! id).
Proof.
  intros Hid Hfirst.
  assert (Hex : exists g p1,
             Provider.AddNodeGroup p cfg1 = (Ok g, p1)
             /\ match nodeGroups p !! config.ID cfg1 with
                | Some existing => g = existing /\ p1 = p
                | None =>
                    g = mkNodeGroup cfg1 None time_zero
                    /\ nodeGroups p1 = <[config.ID cfg1 := g]> (nodeGroups p)
                    /\ size (nodeGroups p1) = S (size (nodeGroups p))
                end).
  { unfold Provider.AddNodeGroup.
    destruct (nodeGroups p !! config.ID cfg1) as [existing|] eqn:E.
    - exists existing, p. split; [reflexivity | split; reflexivity].
    - destruct Hfirst as [Hv | [g Hg]]; [|discriminate].
      destruct (NewOpenStackNodeGroup_cases cfg1) as [[_ ->] | [Hnv _]]; [|tauto].
      eexists _, _. split; [reflexivity|]. simpl.
      split; [reflexivity|]. split; [reflexivity|].
      apply map_size_insert_None. exact E. }
  destruct Hex as (g & p1 & H1 & Hcase). exists g, p1.
  destruct (AddNodeGroup_registers _ _ _ _ H1) as [Hg Hothers].
  split; [exact H1|].
  split; [unfold Provider.AddNodeGroup; rewrite Hid, Hg; reflexivity|].
  split; [exact Hcase|].
  split; [exact Hg|].
  split; [symmetry; apply map_to_list_delete; exact Hg|].
  split; [|exact Hothers].
  intros g' Hin. apply elem_of_map_to_list in Hin.
  rewrite lookup_delete_eq in Hin. discriminate.
Qed.

Lemma AddNodeGroup_idempotent_witness :
  exists g p1,
    Provider.AddNodeGroup (mkProvider ∅) (Scenario.a_config "g1" 1 5) = (Ok g, p1)
    /\ Provider.AddNodeGroup p1 (Scenario.a_config "g1" 0 9) = (Ok g, p1)
    /\ g = Scenario.g1
    /\ nodeGroups p1 = <[ "g1" := g ]> ∅
    /\ size (nodeGroups p1) = 1%nat.
Proof.
  assert (Hv : valid_config (Scenario.a_config "g1" 1 5)).
  { unfold valid_config, is_set. simpl.
    repeat split; try discriminate; try lia. left. discriminate. }
  destruct (AddNodeGroup_idempotent
              (mkProvider ∅) (Scenario.a_config "g1" 1 5) (Scenario.a_config "g1" 0 9)
              eq_refl (or_introl Hv))
    as (g & p1 & H1 & H2 & Hcase & _).
  exists g, p1. simpl in Hcase. destruct Hcase as (Hg & Hp1 & Hsize).
  repeat split; assumption.
Defined.

(** ** Error codes of the protocol adapter *)

Lemma NodeGroupForNode_malformed (order : list string) (p : OpenStackProvider)
      (providerID : string) (w : World) :
  HasPrefix providerID (ProviderName +:+ "://") = false ->
  Provider.NodeGroupForNode order p providerID w
  = (Err (ErrInvalidProviderID providerID), w).
Proof.
  intros H. unfold Provider.NodeGroupForNode.
  rewrite TrimPrefix_unchanged by discriminate. rewrite H. reflexivity.
Qed.

(** C7, as the code has it.  A request that names an unknown group is
    answered NotFound.  Every error a node group returns, an invalid argument
    (a delta of the wrong sign, a malformed provider id) as much as a backend
    failure, is answered Internal with the error as its cause.
    InvalidArgument answers only a group-for-node request without a node and
    an options request without defaults.  The group-for-node operation
    answers with an empty group, not with an error, whenever the provider
    lookup fails, in particular on a malformed provider id. *)
Theorem adapter_error_codes
    (Marshal : apiv1.Node -> result string) (Options : Type)
    (id : string) (p : OpenStackProvider) (w : World) :
  (Provider.GetNodeGroup p id = None ->
     grpc.NodeGroupTargetSize id p w = (grpc.not_found id, p, w)
     /\ (forall delta, grpc.NodeGroupIncreaseSize id delta p w = (grpc.not_found id, p, w))
     /\ (forall nodes, grpc.NodeGroupDeleteNodes id nodes p w = (grpc.not_found id, p, w))
     /\ (forall delta,
           grpc.NodeGroupDecreaseTargetSize id delta p w = (grpc.not_found id, p, w))
     /\ grpc.NodeGroupNodes id p w = (grpc.not_found id, p, w)
     /\ grpc.NodeGroupTemplateNodeInfo Marshal id p w = (grpc.not_found id, p, w)
     /\ (forall defaults,
           grpc.NodeGroupGetOptions Options id defaults p w = (grpc.not_found id, p, w)))
  /\ (forall ng, Provider.GetNodeGroup p id = Some ng ->
        (forall e w', TargetSize ng w = (Err e, w') ->
           grpc.NodeGroupTargetSize id p w
           = (Status Internal "failed to get target size" (Some e), p, w'))
        /\ (forall delta e w', IncreaseSize ng delta w = (Err e, w') ->
              grpc.NodeGroupIncreaseSize id delta p w
              = (Status Internal "failed to increase size" (Some e), p, w'))
        /\ (forall nodes e w', DeleteNodes ng (map grpc.to_node nodes) w = (Err e, w') ->
              grpc.NodeGroupDeleteNodes id nodes p w
              = (Status Internal "failed to delete nodes" (Some e), p, w'))
        /\ (forall delta e w', DecreaseTargetSize ng delta w = (Err e, w') ->
              grpc.NodeGroupDecreaseTargetSize id delta p w
              = (Status Internal "failed to decrease target size" (Some e), p, w'))
        /\ (forall e w', Nodes ng w = (Err e, w') ->
              grpc.NodeGroupNodes id p w
              = (Status Internal "failed to get nodes" (Some e), p, w'))
        /\ (forall e w', TemplateNodeInfo ng w = (Err e, w') ->
              grpc.NodeGroupTemplateNodeInfo Marshal id p w
              = (Status Internal "failed to get template node info" (Some e), p, w'))
        /\ (forall delta, delta <= 0 ->
              grpc.NodeGroupIncreaseSize id delta p w
              = (Status Internal "failed to increase size"
                   (Some (ErrDeltaNotPositive delta)), p, w))
        /\ (forall delta, 0 <= delta ->
              grpc.NodeGroupDecreaseTargetSize id delta p w
              = (Status Internal "failed to decrease target size"
                   (Some (ErrDeltaNotNegative delta)), p, w))
        /\ (forall node rest, well_formed_id (grpc.to_node node) = false ->
              grpc.NodeGroupDeleteNodes id (node :: rest) p w
              = (Status Internal "failed to delete nodes"
                   (Some (Wrapf ("failed to delete node " +:+ pb.Name node)
                            (ErrInvalidProviderID (pb.ProviderID node)))), p, w))
        /\ grpc.NodeGroupGetOptions Options id None p w
           = (Status InvalidArgument "defaults are required" None, p, w))
  /\ (forall order,
        grpc.NodeGroupForNode order None p w
        = (Status InvalidArgument "node is required" None, p, w))
  /\ (forall order node e w',
        Provider.NodeGroupForNode order p (pb.ProviderID node) w = (Err e, w') ->
        grpc.NodeGroupForNode order (Some node) p w
        = (Response pb.empty_NodeGroup, p, w'))
  /\ (forall order node,
        HasPrefix (pb.ProviderID node) (ProviderName +:+ "://") = false ->
        grpc.NodeGroupForNode order (Some node) p w
        = (Response pb.empty_NodeGroup, p, w)).
Proof.
  split; [|split; [|split; [|split]]].
  - intros Hnone.
    unfold grpc.NodeGroupTargetSize, grpc.NodeGroupIncreaseSize,
      grpc.NodeGroupDeleteNodes, grpc.NodeGroupDecreaseTargetSize,
      grpc.NodeGroupNodes, grpc.NodeGroupTemplateNodeInfo, grpc.NodeGroupGetOptions.
    rewrite Hnone. repeat split; reflexivity.
  - intros ng Hsome.
    unfold grpc.NodeGroupTargetSize, grpc.NodeGroupIncreaseSize,
      grpc.NodeGroupDeleteNodes, grpc.NodeGroupDecreaseTargetSize,
      grpc.NodeGroupNodes, grpc.NodeGroupTemplateNodeInfo, grpc.NodeGroupGetOptions.
    rewrite Hsome.
    repeat match goal with |- _ /\ _ => split end;
      try (intros; match goal with H : _ = (Err _, _) |- _ => rewrite H end; reflexivity);
      try reflexivity.
    + intros delta Hd. unfold IncreaseSize.
      destruct (Z.leb_spec delta 0); [reflexivity | lia].
    + intros delta Hd. unfold DecreaseTargetSize.
      destruct (Z.geb_spec delta 0); [reflexivity | lia].
    + intros node rest Hbad.
      change (map grpc.to_node (node :: rest))
        with (grpc.to_node node :: map grpc.to_node rest).
      rewrite (DeleteNodes_refuses_malformed_id_aux ng (grpc.to_node node) w Hbad).
      reflexivity.
  - intros order. reflexivity.
  - intros order node e w' H. unfold grpc.NodeGroupForNode. rewrite H. reflexivity.
  - intros order node H. unfold grpc.NodeGroupForNode.
    rewrite (NodeGroupForNode_malformed order p _ w H). reflexivity.
Qed.

Lemma adapter_error_codes_witness :
  grpc.NodeGroupIncreaseSize "g1" 0 Scenario.only_g1 Scenario.two_active
  = (Status Internal "failed to increase size" (Some (ErrDeltaNotPositive 0)),
     Scenario.only_g1, Scenario.two_active).
Proof.
  pose proof (adapter_error_codes (fun _ => Ok "") unit "g1"
                                  Scenario.only_g1 Scenario.two_active)
    as (_ & H & _).
  destruct (H Scenario.g1 eq_refl) as (_ & _ & _ & _ & _ & _ & Hinc & _).
  apply Hinc. lia.
Defined.

(** C7, as stated, fails.  On a malformed provider id the provider reports
    "invalid provider ID format", and on a failed instance fetch the backend's
    error, yet the group-for-node operation answers both with a successful
    response carrying an empty group; a non-positive delta, an invalid
    argument, is answered Internal. *)
Lemma NodeGroupForNode_answers_errors_with_empty_group :
  let malformed := pb.mkExternalGrpcNode "i-1" "n1" ∅ ∅ in
  let fetched := pb.mkExternalGrpcNode "openstack://i-1" "n1" ∅ ∅ in
  let down := Scenario.a_world [] (fun _ => RequestFails) in
  fst (Provider.NodeGroupForNode ["g1"] Scenario.only_g1 "i-1" Scenario.two_active)
  = Err (ErrInvalidProviderID "i-1")
  /\ fst (fst (grpc.NodeGroupForNode ["g1"] (Some malformed)
                                     Scenario.only_g1 Scenario.two_active))
     = Response pb.empty_NodeGroup
  /\ fst (Provider.NodeGroupForNode ["g1"] Scenario.only_g1 "openstack://i-1" down)
     = Err (Wrapf "failed to get server i-1" (BackendError (CallServersGet "i-1")))
  /\ fst (fst (grpc.NodeGroupForNode ["g1"] (Some fetched) Scenario.only_g1 down))
     = Response pb.empty_NodeGroup
  /\ fst (fst (grpc.NodeGroupIncreaseSize "g1" 0 Scenario.only_g1 Scenario.two_active))
     = Status Internal "failed to increase size" (Some (ErrDeltaNotPositive 0)).
Proof. vm_compute. repeat split; reflexivity. Qed.

(** The operation does answer with the group when one claims the instance. *)
Example NodeGroupForNode_finds_g1 :
  fst (fst (grpc.NodeGroupForNode
              ["g1"] (Some (pb.mkExternalGrpcNode "openstack://i-1" "n1" ∅ ∅))
              Scenario.only_g1 Scenario.two_active))
  = Response (pb.mkNodeGroup "g1" 1 5 "NodeGroup g1: min=1, max=5, flavor=m1.small").
Proof. vm_compute. reflexivity. Qed.

(** ** The template cache *)

(** A machine-type lookup opens with exactly one [flavors.Get]; the catalog
    scan that may follow is part of the same lookup. *)
Lemma getFlavor_one_lookup (ng : OpenStackNodeGroup) (w : World) :
  exists calls,
    snd (getFlavor ng w) = set_calls (w_calls w ++ calls) w /\
    flavor_lookups calls = 1%nat.
Proof.
  set (name := config.FlavorName (Config ng)).
  assert (Hscan : forall w0, exists calls,
             snd (getFlavor ng w0) = set_calls (w_calls w0 ++ calls) w0 /\
             (calls = [CallFlavorsGet name] \/
              calls = [CallFlavorsGet name; CallFlavorsListDetail])).
  { intros w0. unfold getFlavor, flavors_Get, flavors_ListDetail_AllPages,
      wrapf, bind, request, lift, ret, fail. fold name.
    destruct (w_faults w0 (length (w_calls w0))); simpl.
    1: destruct (find_flavor name (w_flavors w0)); simpl;
       [exists [CallFlavorsGet name]; split; [reflexivity | left; reflexivity]|].
    all: exists [CallFlavorsGet name; CallFlavorsListDetail];
      (split; [|right; reflexivity]);
      rewrite <- app_assoc; simpl;
      destruct (w_faults w0 _); simpl; try reflexivity;
      destruct (List.find _ (w_flavors w0)); reflexivity. }
  destruct (Hscan w) as (calls & E & [-> | ->]); eexists; (split; [exact E | reflexivity]).
Qed.

Lemma DeepCopy_valid (p : loc) (w : World) (node : apiv1.Node) :
  w_heap w !! p = Some node ->
  DeepCopy p w = (Ok (length (w_heap w)), set_heap (w_heap w ++ [node]) w).
Proof. intros H. unfold DeepCopy, bind, load, alloc. rewrite H. reflexivity. Qed.

(** A rebuild performs one lookup; when it succeeds, the template and its
    copy are two new objects with the same contents, and the group caches the
    first with the current time. *)
Lemma rebuild_spec (ng : OpenStackNodeGroup) (w : World) :
  exists calls,
    flavor_lookups calls = 1%nat /\
    w_calls (snd (rebuildTemplateNodeInfo ng w)) = w_calls w ++ calls /\
    forall copy ng1 w1,
      rebuildTemplateNodeInfo ng w = (Ok (copy, ng1), w1) ->
      exists flavor,
        copy = S (length (w_heap w)) /\
        ng1 = mkNodeGroup (Config ng) (Some (length (w_heap w))) (w_now w) /\
        w_now w1 = w_now w /\
        w_heap w1 = w_heap w ++ [template_node (Config ng) flavor;
                                 template_node (Config ng) flavor].
Proof.
  destruct (getFlavor_one_lookup ng w) as (calls & E & Hone).
  exists calls. split; [exact Hone|].
  unfold rebuildTemplateNodeInfo, buildTemplateNodeInfo, bind, wrapf.
  destruct (getFlavor ng w) as [[flavor|e] wq]; simpl in E; subst wq; simpl.
  2:{ split; [reflexivity | discriminate]. }
  unfold time_Now.
  rewrite (DeepCopy_valid _ _ (template_node (Config ng) flavor))
    by (simpl; apply list_lookup_middle; reflexivity).
  simpl. split; [reflexivity|].
  intros copy ng1 w1 [= <- <- <-]. exists flavor. simpl.
  rewrite length_app, <- app_assoc. simpl.
  split; [lia | repeat split; reflexivity].
Qed.

Lemma TemplateNodeInfo_stale (ng : OpenStackNodeGroup) (w : World) :
  stale ng w -> TemplateNodeInfo ng w = rebuildTemplateNodeInfo ng w.
Proof.
  unfold stale, TemplateNodeInfo.
  destruct (templateNodeInfo ng); [|reflexivity].
  intros H. unfold bind, time_Since.
  destruct (Z.ltb_spec (saturate (w_now w - lastRefresh ng)) (10 * time_Minute));
    [lia | reflexivity].
Qed.

Lemma TemplateNodeInfo_fresh (ng : OpenStackNodeGroup) (w : World)
      (cached : loc) (node : apiv1.Node) :
  templateNodeInfo ng = Some cached ->
  w_heap w !! cached = Some node ->
  saturate (w_now w - lastRefresh ng) < 10 * time_Minute ->
  TemplateNodeInfo ng w
  = (Ok (length (w_heap w), ng), set_heap (w_heap w ++ [node]) w).
Proof.
  intros Hc Hnode Hage. unfold TemplateNodeInfo. rewrite Hc.
  unfold bind, time_Since.
  destruct (Z.ltb_spec (saturate (w_now w - lastRefresh ng)) (10 * time_Minute));
    [|lia].
  rewrite (DeepCopy_valid _ _ _ Hnode). reflexivity.
Qed.

Lemma stale_one_lookup (ng : OpenStackNodeGroup) (w : World) :
  stale ng w ->
  flavor_lookups (issued w (snd (TemplateNodeInfo ng w))) = 1%nat.
Proof.
  intros Hs. rewrite (TemplateNodeInfo_stale _ _ Hs).
  destruct (rebuild_spec ng w) as (calls & Hone & Hcalls & _).
  rewrite (issued_app _ _ _ Hcalls). exact Hone.
Qed.

(** C9. Let a [TemplateNodeInfo] call find the cache empty or expired and
    succeed.  It performed exactly one machine-type lookup and cached the
    template with the current time.  The value returned is a copy: an object
    other than the cached one with the same contents, and writing to it leaves
    the cached template as it was.  Any later call made while the cached
    template is younger than ten minutes issues no request at all and returns
    a further copy with those same contents, leaving the cache as it is.  A
    call made once ten minutes have passed, or after [Refresh], performs
    exactly one machine-type lookup again. *)
Theorem TemplateNodeInfo_caches
    (ng : OpenStackNodeGroup) (w : World)
    (copy1 : loc) (ng1 : OpenStackNodeGroup) (w1 : World) :
  stale ng w ->
  TemplateNodeInfo ng w = (Ok (copy1, ng1), w1) ->
  flavor_lookups (issued w w1) = 1%nat
  /\ exists cached node,
       templateNodeInfo ng1 = Some cached
       /\ lastRefresh ng1 = w_now w
       /\ cached <> copy1
       /\ w_heap w1 !! cached = Some node
       /\ w_heap w1 !! copy1 = Some node
       /\ (forall v, w_heap (store copy1 v w1) !! cached = Some node)
       /\ (forall w2,
             w_heap w2 !! cached = Some node ->
             saturate (w_now w2 - lastRefresh ng1) < 10 * time_Minute ->
             TemplateNodeInfo ng1 w2
             = (Ok (length (w_heap w2), ng1), set_heap (w_heap w2 ++ [node]) w2)
             /\ length (w_heap w2) <> cached
             /\ issued w2 (snd (TemplateNodeInfo ng1 w2)) = [])
       /\ (forall d v,
             d < 10 * time_Minute ->
             let w2 := advance d (store copy1 v w1) in
             fst (TemplateNodeInfo ng1 w2) = Ok (length (w_heap w2), ng1)
             /\ w_heap (snd (TemplateNodeInfo ng1 w2)) !! length (w_heap w2) = Some node
             /\ flavor_lookups (issued w (snd (TemplateNodeInfo ng1 w2))) = 1%nat)
       /\ (forall w2,
             10 * time_Minute <= saturate (w_now w2 - lastRefresh ng1) ->
             flavor_lookups (issued w2 (snd (TemplateNodeInfo ng1 w2))) = 1%nat)
       /\ (forall w2,
             flavor_lookups (issued w2 (snd (TemplateNodeInfo (Refresh ng1) w2)))
             = 1%nat).
Proof.
  intros Hstale Hcall. rewrite (TemplateNodeInfo_stale _ _ Hstale) in Hcall.
  destruct (rebuild_spec ng w) as (calls & Hone & Hcalls & Hok).
  rewrite Hcall in Hcalls. simpl in Hcalls.
  destruct (Hok _ _ _ Hcall) as (flavor & -> & -> & Hnow & Hheap).
  set (node := template_node (Config ng) flavor) in *.
  set (n := length (w_heap w)) in *.
  assert (Hcached : w_heap w1 !! n = Some node).
  { rewrite Hheap. apply list_lookup_middle. reflexivity. }
  assert (Hcopy : w_heap w1 !! S n = Some node).
  { rewrite Hheap.
    change [node; node] with ([node] ++ [node]). rewrite app_assoc.
    apply list_lookup_middle. rewrite length_app. simpl. lia. }
  assert (Hstore : forall v, w_heap (store (S n) v w1) !! n = Some node).
  { intros v. simpl. rewrite list_lookup_insert_ne by lia. exact Hcached. }
  assert (Hhit : forall w2,
             w_heap w2 !! n = Some node ->
             saturate (w_now w2 - w_now w) < 10 * time_Minute ->
             TemplateNodeInfo (mkNodeGroup (Config ng) (Some n) (w_now w)) w2
             = (Ok (length (w_heap w2), mkNodeGroup (Config ng) (Some n) (w_now w)),
                set_heap (w_heap w2 ++ [node]) w2)).
  { intros w2 Hn Hage. apply (TemplateNodeInfo_fresh _ _ n node); [reflexivity | exact Hn | exact Hage]. }
  split; [rewrite (issued_app _ _ _ Hcalls); exact Hone|].
  exists n, node.
  split; [reflexivity|]. split; [reflexivity|]. split; [lia|].
  split; [exact Hcached|]. split; [exact Hcopy|]. split; [exact Hstore|].
  split; [|split; [|split]].
  - intros w2 Hn Hage. simpl in Hage. rewrite (Hhit w2 Hn Hage). simpl.
    split; [reflexivity|]. split.
    + apply lookup_lt_Some in Hn. lia.
    + apply issued_app. simpl. rewrite app_nil_r. reflexivity.
  - intros d v Hd w2. fold n in w2.
    assert (Hage : saturate (w_now w2 - w_now w) < 10 * time_Minute).
    { subst w2. simpl.
      rewrite Hnow. replace (w_now w + d - w_now w) with d by lia.
      unfold saturate, time_Minute, min_int, max_int in *.
      destruct (Z.ltb_spec d (-9223372036854775808)); [lia|].
      destruct (Z.ltb_spec 9223372036854775807 d); lia. }
    rewrite (Hhit w2 (Hstore v) Hage). simpl.
    split; [reflexivity|]. split.
    + apply list_lookup_middle. reflexivity.
    + rewrite (issued_app w _ calls); [exact Hone | exact Hcalls].
  - intros w2 Hage. apply stale_one_lookup. exact Hage.
  - intros w2. apply stale_one_lookup. exact I.
Qed.

Lemma TemplateNodeInfo_caches_witness :
  flavor_lookups
    (issued (Scenario.a_world [] Scenario.no_faults)
            (snd (TemplateNodeInfo Scenario.g1 (Scenario.a_world [] Scenario.no_faults))))
  = 1%nat.
Proof.
  exact (proj1 (TemplateNodeInfo_caches
                  Scenario.g1 (Scenario.a_world [] Scenario.no_faults) 1%nat
                  (mkNodeGroup (Config Scenario.g1) (Some 0%nat) 1700000000000000000)
                  (snd (TemplateNodeInfo Scenario.g1
                          (Scenario.a_world [] Scenario.no_faults)))
                  I eq_refl)).
Defined.

(** Two calls five minutes apart share one lookup and return equal nodes,
    though the caller overwrote the first copy in between; a call eleven
    minutes after the first looks the machine type up again. *)
Example template_cache_scenario :
  let w := Scenario.a_world [] Scenario.no_faults in
  let blank := Scenario.a_node "scratch" "" in
  match TemplateNodeInfo Scenario.g1 w with
  | (Ok (copy1, ng1), w1) =>
      let w2 := advance (5 * time_Minute) (store copy1 blank w1) in
      match TemplateNodeInfo ng1 w2 with
      | (Ok (copy2, ng2), w3) =>
          w_heap w1 !! copy1 = w_heap w3 !! copy2
          /\ w_heap w3 !! copy1 = Some blank
          /\ apiv1.Capacity <$> w_heap w3 !! copy2
             = Some {[ "cpu" := apiv1.mkQuantity 2 apiv1.DecimalSI;
                       "memory" := apiv1.mkQuantity 4294967296 apiv1.BinarySI ]}
          /\ flavor_lookups (issued w w3) = 1%nat
          /\ flavor_lookups
               (issued w (snd (TemplateNodeInfo ng2 (advance (6 * time_Minute) w3))))
             = 2%nat
          /\ flavor_lookups
               (issued w (snd (TemplateNodeInfo (Refresh ng2) w3))) = 2%nat
      | _ => False
      end
  | _ => False
  end.
Proof. vm_compute. repeat split; reflexivity. Qed.

(* ===================================================================== *)
(** * Further properties of the provider, the node groups and the adapter *)
(* ===================================================================== *)

(** ** Validation of a group's configuration *)

(** X1. [NewOpenStackNodeGroup] accepts a configuration exactly when its id
    and flavor name are set, [0 <= MinSize <= MaxSize], and an image name or
    an image id is set.  The group it returns carries the configuration as
    given and an empty template cache; a refusal is the validation error
    under "invalid node group configuration". *)
Theorem NewOpenStackNodeGroup_accepts_valid (cfg : config.NodeGroupConfig) :
  (NewOpenStackNodeGroup cfg = Ok (mkNodeGroup cfg None time_zero)
   <-> valid_config cfg)
  /\ (forall g, NewOpenStackNodeGroup cfg = Ok g ->
                g = mkNodeGroup cfg None time_zero)
  /\ (forall e, NewOpenStackNodeGroup cfg = Err e ->
                ~ valid_config cfg /\
                exists cause, e = Wrapf "invalid node group configuration" cause).
Proof.
  destruct (NewOpenStackNodeGroup_cases cfg) as [[Hv ->] | [Hnv [cause ->]]].
  - split; [tauto|]. split; [intros g [= <-]; reflexivity | discriminate].
  - split; [split; [discriminate | tauto]|].
    split; [discriminate|]. intros e [= <-]. eauto.
Qed.

(** ** The directory *)

Lemma TemplateNodeInfo_keeps_config (ng ng1 : OpenStackNodeGroup) (w w1 : World) (copy : loc) :
  TemplateNodeInfo ng w = (Ok (copy, ng1), w1) -> Config ng1 = Config ng.
Proof.
  assert (Hre : forall w0 c g w', rebuildTemplateNodeInfo ng w0 = (Ok (c, g), w') ->
                                  Config g = Config ng).
  { intros w0 c g w' H. destruct (rebuild_spec ng w0) as (_ & _ & _ & Hok).
    destruct (Hok _ _ _ H) as (_ & _ & -> & _). reflexivity. }
  unfold TemplateNodeInfo. destruct (templateNodeInfo ng) as [cached|]; [|apply Hre].
  unfold bind, time_Since. destruct (_ <? _); [|apply Hre].
  unfold DeepCopy, bind, load, alloc, ret.
  destruct (w_heap w !! cached); [|discriminate]. intros [= _ <- _]. reflexivity.
Qed.

(** X2. The directory keeps its groups well filed: when every group already
    sits under its own id with a configuration that passed validation, the
    same holds after [AddNodeGroup] (whatever it returns), after the
    provider's [Refresh], and after the template operation of the adapter,
    the three operations that write to the directory.  So every group the
    adapter can address has a set id and [0 <= MinSize <= MaxSize]. *)
Theorem directory_stays_well_filed (p : OpenStackProvider) :
  directory_ok p ->
  (forall cfg, directory_ok (snd (Provider.AddNodeGroup p cfg)))
  /\ directory_ok (Provider.Refresh p)
  /\ (forall Marshal id w,
        directory_ok (snd (fst (grpc.NodeGroupTemplateNodeInfo Marshal id p w))))
  /\ (forall id g, Provider.GetNodeGroup p id = Some g ->
                   ID g = id /\ is_set id /\ 0 <= MinSize g <= MaxSize g).
Proof.
  intros Hp. split; [|split; [|split]].
  - intros cfg. unfold Provider.AddNodeGroup.
    destruct (nodeGroups p !! config.ID cfg) as [existing|] eqn:E; [exact Hp|].
    destruct (NewOpenStackNodeGroup_cases cfg) as [[Hv ->] | [_ [cause ->]]];
      [|exact Hp].
    intros k g' Hk. simpl in Hk.
    destruct (decide (config.ID cfg = k)) as [<-|Hne].
    + rewrite lookup_insert_eq in Hk. injection Hk as <-.
      split; [reflexivity | exact Hv].
    + rewrite lookup_insert_ne in Hk by exact Hne. apply Hp. exact Hk.
  - intros k g Hk. unfold Provider.Refresh in Hk. simpl in Hk.
    rewrite lookup_fmap in Hk. destruct (nodeGroups p !! k) as [g0|] eqn:E; [|discriminate].
    injection Hk as <-. apply (Hp k g0 E).
  - intros Marshal id w. unfold grpc.NodeGroupTemplateNodeInfo, Provider.GetNodeGroup.
    destruct (nodeGroups p !! id) as [ng|] eqn:E; [|exact Hp].
    destruct (TemplateNodeInfo ng w) as [[[copy ng1]|e] w1] eqn:ET; [|exact Hp].
    apply TemplateNodeInfo_keeps_config in ET.
    assert (Hp' : directory_ok (mkProvider (<[id := ng1]> (nodeGroups p)))).
    { intros k g Hk. simpl in Hk. destruct (decide (id = k)) as [<-|Hne].
      - rewrite lookup_insert_eq in Hk. injection Hk as <-.
        destruct (Hp id ng E) as [Hid Hv]. unfold ID in *. rewrite ET. tauto.
      - rewrite lookup_insert_ne in Hk by exact Hne. apply Hp. exact Hk. }
    destruct (bind (load copy) _ w1) as [[b|e] w2]; exact Hp'.
  - intros id g Hg. destruct (Hp id g Hg) as [Hid (Hset & Hb & _)].
    unfold MinSize, MaxSize, ID in *. rewrite Hid in Hset. tauto.
Qed.

Lemma directory_ok_empty : directory_ok (mkProvider ∅).
Proof. intros k g H. simpl in H. rewrite lookup_empty in H. discriminate. Qed.

Lemma directory_stays_well_filed_witness :
  directory_ok (snd (Provider.AddNodeGroup (mkProvider ∅) (Scenario.a_config "g1" 1 5))).
Proof.
  exact (proj1 (directory_stays_well_filed (mkProvider ∅) directory_ok_empty)
               (Scenario.a_config "g1" 1 5)).
Defined.

(** X3. [AddNodeGroup] by cases.  A registered id wins: the existing group
    is returned and the new configuration is not even validated.  A new id
    with a valid configuration adds one entry, the fresh group.  A new id with
    an invalid configuration is refused with the validation error under
    "failed to create node group <id>", and the directory is left as it
    was. *)
Theorem AddNodeGroup_by_cases (p : OpenStackProvider) (cfg : config.NodeGroupConfig) :
  (forall g, nodeGroups p !! config.ID cfg = Some g ->
             Provider.AddNodeGroup p cfg = (Ok g, p))
  /\ (nodeGroups p !! config.ID cfg = None -> valid_config cfg ->
      Provider.AddNodeGroup p cfg
      = (Ok (mkNodeGroup cfg None time_zero),
         mkProvider (<[config.ID cfg := mkNodeGroup cfg None time_zero]> (nodeGroups p)))
      /\ size (nodeGroups (snd (Provider.AddNodeGroup p cfg)))
         = S (size (nodeGroups p)))
  /\ (nodeGroups p !! config.ID cfg = None -> ~ valid_config cfg ->
      snd (Provider.AddNodeGroup p cfg) = p
      /\ exists cause,
           fst (Provider.AddNodeGroup p cfg)
           = Err (Wrapf ("failed to create node group " +:+ config.ID cfg)
                    (Wrapf "invalid node group configuration" cause)))
  /\ (forall e, fst (Provider.AddNodeGroup p cfg) = Err e ->
                snd (Provider.AddNodeGroup p cfg) = p
                /\ nodeGroups p !! config.ID cfg = None
                /\ ~ valid_config cfg).
Proof.
  unfold Provider.AddNodeGroup.
  split; [|split; [|split]].
  - intros g ->. reflexivity.
  - intros E Hv. rewrite E.
    destruct (NewOpenStackNodeGroup_cases cfg) as [[_ ->] | [Hnv _]]; [|tauto].
    simpl. split; [reflexivity|]. apply map_size_insert_None. exact E.
  - intros -> Hnv.
    destruct (NewOpenStackNodeGroup_cases cfg) as [[Hv _] | [_ [cause ->]]]; [tauto|].
    simpl. eauto.
  - intros e. destruct (nodeGroups p !! config.ID cfg) as [g|]; [discriminate|].
    destruct (NewOpenStackNodeGroup_cases cfg) as [[_ ->] | [Hnv [cause ->]]];
      [discriminate|].
    intros _. simpl. tauto.
Qed.

Lemma AddNodeGroup_by_cases_witness :
  Provider.AddNodeGroup Scenario.only_g1 (Scenario.a_config "g1" 7 3)
  = (Ok Scenario.g1, Scenario.only_g1).
Proof.
  exact (proj1 (AddNodeGroup_by_cases Scenario.only_g1 (Scenario.a_config "g1" 7 3))
               Scenario.g1 eq_refl).
Defined.

(** ** Listing a group's instances *)

Lemma Nodes_eq (ng : OpenStackNodeGroup) (w : World) :
  Nodes ng w =
  (match w_faults w (length (w_calls w)) with
   | NoFault => Ok (List.filter (ContainsNode ng) (w_servers w))
   | RequestFails =>
       Err (Wrapf "failed to get instances"
              (Wrapf "failed to list servers" (BackendError CallServersList)))
   | ExtractFails =>
       Err (Wrapf "failed to get instances"
              (Wrapf "failed to extract servers" (ExtractError CallServersList)))
   end,
   set_calls (w_calls w ++ [CallServersList]) w).
Proof.
  unfold Nodes, getInstances, servers_List_AllPages, wrapf, bind, request, ret, lift.
  destruct (w_faults w _); reflexivity.
Qed.

(** X4. [Nodes] and [TargetSize] read the backend the same way.  They leave
    the same world and fail together with the same error.  When they succeed,
    [Nodes] returns the attributed instances of every status, in the
    backend's order, and [TargetSize] is the number of those that are ACTIVE
    or BUILD, so it lies between 0 and the length of the listing. *)
Theorem Nodes_and_TargetSize_agree (ng : OpenStackNodeGroup) (w : World) :
  snd (Nodes ng w) = snd (TargetSize ng w)
  /\ match fst (Nodes ng w), fst (TargetSize ng w) with
     | Ok l, Ok n =>
         l = List.filter (ContainsNode ng) (w_servers w)
         /\ Forall (fun s => ContainsNode ng s = true) l
         /\ n = Z.of_nat (length (List.filter
                   (fun s => String.eqb (servers.Status s) "ACTIVE"
                             || String.eqb (servers.Status s) "BUILD") l))
         /\ 0 <= n <= Z.of_nat (length l)
     | Err e1, Err e2 => e1 = e2
     | _, _ => False
     end.
Proof.
  rewrite Nodes_eq, TargetSize_eq. simpl. split; [reflexivity|].
  destruct (w_faults w _); try reflexivity.
  split; [reflexivity|]. split.
  - apply List.Forall_forall. intros s Hs. apply List.filter_In in Hs. tauto.
  - unfold target_count, counted. rewrite <- filter_filter_length.
    split; [reflexivity|].
    pose proof (List.filter_length_le
                  (fun s => String.eqb (servers.Status s) "ACTIVE"
                            || String.eqb (servers.Status s) "BUILD")
                  (List.filter (ContainsNode ng) (w_servers w))).
    lia.
Qed.

(** ** What a scale-up changes *)

Lemma created_by_foreign (ng other : OpenStackNodeGroup) (l : list servers.Server) :
  ID other <> ID ng ->
  Forall (created_by ng) l ->
  List.filter (ContainsNode other) l = [].
Proof.
  intros Hne. induction 1 as [|s l Hs _ IH]; [reflexivity|].
  simpl. destruct Hs as (Htag & _ & _).
  rewrite (ContainsNode_tagged _ _ _ Htag).
  destruct (String.eqb_spec (ID ng) (ID other)); [congruence | exact IH].
Qed.

(** X5. When [IncreaseSize] returns [nil], [delta] was positive and the
    target size of the group is up by exactly [delta]: a [TargetSize] read
    served right after it returns the old count plus [delta]. *)
Theorem IncreaseSize_adds_delta (ng : OpenStackNodeGroup) (delta : Z) (w : World) :
  fst (IncreaseSize ng delta w) = Ok tt ->
  0 < delta
  /\ target_count ng (w_servers (snd (IncreaseSize ng delta w)))
     = target_count ng (w_servers w) + delta
  /\ (forall n, fst (TargetSize ng (snd (IncreaseSize ng delta w))) = Ok n ->
                n = target_count ng (w_servers w) + delta).
Proof.
  intros Hok.
  destruct (IncreaseSize_scaled ng delta w) as (calls & created & Hs & Hsucc).
  destruct (Hsucc Hok) as (Hpos & Hlen & _).
  assert (Hnew : target_count ng (w_servers (snd (IncreaseSize ng delta w)))
                 = target_count ng (w_servers w) + delta).
  { rewrite (sc_servers _ _ _ _ _ Hs), target_count_app.
    rewrite (created_by_counted _ _ (sc_created _ _ _ _ _ Hs)), Hlen. lia. }
  split; [exact Hpos|]. split; [exact Hnew|].
  intros n Hn. rewrite TargetSize_eq in Hn. simpl in Hn.
  destruct (w_faults _ _); try discriminate. injection Hn as <-. exact Hnew.
Qed.

Lemma IncreaseSize_adds_delta_witness :
  target_count Scenario.g1
    (w_servers (snd (IncreaseSize Scenario.g1 3 Scenario.two_active))) = 5.
Proof.
  exact (proj1 (proj2 (IncreaseSize_adds_delta Scenario.g1 3 Scenario.two_active
                                               eq_refl))).
Defined.

(** X6. A scale-up of one group is invisible to every group with another
    id, whether it succeeds or stops half way: the instances attributed to
    the other group, and so its target size, are what they were.  The
    group's own target size never goes down. *)
Theorem IncreaseSize_leaves_other_groups
    (ng other : OpenStackNodeGroup) (delta : Z) (w : World) :
  ID other <> ID ng ->
  List.filter (ContainsNode other) (w_servers (snd (IncreaseSize ng delta w)))
  = List.filter (ContainsNode other) (w_servers w)
  /\ target_count other (w_servers (snd (IncreaseSize ng delta w)))
     = target_count other (w_servers w)
  /\ target_count ng (w_servers w)
     <= target_count ng (w_servers (snd (IncreaseSize ng delta w))).
Proof.
  intros Hne.
  destruct (IncreaseSize_scaled ng delta w) as (calls & created & Hs & _).
  rewrite (sc_servers _ _ _ _ _ Hs).
  pose proof (created_by_foreign ng other created Hne (sc_created _ _ _ _ _ Hs)) as Hf.
  split; [rewrite List.filter_app, Hf, app_nil_r; reflexivity|].
  split.
  - rewrite target_count_app.
    assert (H0 : target_count other created = 0).
    { unfold target_count, counted. rewrite <- filter_filter_length, Hf. reflexivity. }
    lia.
  - rewrite target_count_app. pose proof (target_count_nonneg ng created). lia.
Qed.

Lemma IncreaseSize_leaves_other_groups_witness :
  target_count (Scenario.a_group "g2" 0 9)
    (w_servers (snd (IncreaseSize Scenario.g1 3 Scenario.two_active))) = 0.
Proof.
  exact (eq_trans
           (proj1 (proj2 (IncreaseSize_leaves_other_groups
                            Scenario.g1 (Scenario.a_group "g2" 0 9) 3
                            Scenario.two_active ltac:(discriminate))))
           eq_refl).
Defined.

(** X7. The errors of [IncreaseSize] and what each leaves behind.  A delta
    that is not positive is refused before any request.  A failed listing
    comes back under "failed to get current size" and a target above
    [MaxSize] as the bound error, both after the one list request and with
    the instances untouched.  Any other error is "failed to create server",
    raised by a creation round, with fewer than [delta] instances created. *)
Theorem IncreaseSize_errors
    (ng : OpenStackNodeGroup) (delta : Z) (w : World) (e : error) :
  fst (IncreaseSize ng delta w) = Err e ->
  (delta <= 0 /\ e = ErrDeltaNotPositive delta
   /\ snd (IncreaseSize ng delta w) = w)
  \/ (0 < delta /\ (exists cause, e = Wrapf "failed to get current size" cause)
      /\ w_faults w (length (w_calls w)) <> NoFault
      /\ snd (IncreaseSize ng delta w) = set_calls (w_calls w ++ [CallServersList]) w)
  \/ (0 < delta
      /\ e = ErrAboveMaxSize (int_add (target_count ng (w_servers w)) delta) (MaxSize ng)
      /\ int_add (target_count ng (w_servers w)) delta > MaxSize ng
      /\ snd (IncreaseSize ng delta w) = set_calls (w_calls w ++ [CallServersList]) w)
  \/ (0 < delta /\ (exists cause, e = Wrapf "failed to create server" cause)
      /\ int_add (target_count ng (w_servers w)) delta <= MaxSize ng
      /\ exists created,
           w_servers (snd (IncreaseSize ng delta w)) = w_servers w ++ created
           /\ (length created < Z.to_nat delta)%nat).
Proof.
  unfold IncreaseSize, MaxSize.
  destruct (Z.leb_spec delta 0) as [Hle|Hpos].
  { intros [= <-]. left. auto. }
  unfold bind, wrapf. rewrite TargetSize_eq.
  destruct (w_faults w (length (w_calls w))) eqn:Hf; simpl.
  2,3: intros [= <-]; right; left;
       (split; [exact Hpos|]); (split; [eauto|]); split; [discriminate | reflexivity].
  destruct (Z.gtb_spec (int_add (target_count ng (w_servers w)) delta)
                       (config.MaxSize (Config ng))) as [Hgt|Hfit].
  { intros [= <-]. right; right; left.
    split; [exact Hpos|]. split; [reflexivity|]. split; [lia | reflexivity]. }
  intros He. right; right; right.
  destruct (create_servers_scaled ng (Z.to_nat delta)
              (set_calls (w_calls w ++ [CallServersList]) w))
    as (calls & created & Hs & _ & Hr).
  rewrite He in Hr. destruct Hr as (Hlt & _ & Hcause).
  split; [exact Hpos|]. split; [exact Hcause|]. split; [exact Hfit|].
  exists created. split; [exact (sc_servers _ _ _ _ _ Hs) | exact Hlt].
Qed.

Lemma IncreaseSize_errors_witness :
  snd (IncreaseSize Scenario.g1 0 Scenario.two_active) = Scenario.two_active.
Proof.
  destruct (IncreaseSize_errors Scenario.g1 0 Scenario.two_active
                                (ErrDeltaNotPositive 0) eq_refl)
    as [(_ & _ & H) | [(H & _) | [(H & _) | (H & _)]]];
    [exact H | | |]; exfalso; revert H; clear; intros H; vm_compute in H; discriminate H.
Defined.

(** ** Deleting nodes, when it works *)

Lemma filter_filter_and {A} (f g : A -> bool) (l : list A) :
  List.filter g (List.filter f l) = List.filter (fun x => f x && g x) l.
Proof.
  induction l as [|x l IH]; simpl; [reflexivity|].
  destruct (f x); simpl; [destruct (g x); simpl; congruence | exact IH].
Qed.

Lemma deleteNode_ok (ng : OpenStackNodeGroup) (node : apiv1.Node) (w w' : World) :
  deleteNode ng node w = (Ok tt, w') ->
  well_formed_id node = true
  /\ w' = set_servers
            (List.filter (fun s => negb (String.eqb (servers.ID s) (server_id_of node)))
                         (w_servers w))
            (set_calls (w_calls w ++ [CallServersDelete (server_id_of node)]) w).
Proof.
  unfold deleteNode, well_formed_id, server_id_of.
  rewrite TrimPrefix_unchanged by discriminate.
  destruct (HasPrefix _ _); simpl; [|discriminate].
  unfold wrapf, servers_Delete, bind, request. simpl.
  destruct (w_faults w _); simpl; try discriminate.
  destruct (find_server _ _); simpl; [|discriminate].
  intros [= <-]. split; reflexivity.
Qed.

Lemma find_server_kept (ids : list string) (l : list servers.Server) (id : string) :
  In id ids -> find_server id (List.filter (kept ids) l) = None.
Proof.
  intros Hin. unfold find_server. induction l as [|s l IH]; simpl; [reflexivity|].
  destruct (kept ids s) eqn:K; [|exact IH]. simpl.
  destruct (String.eqb_spec (servers.ID s) id) as [E|_]; [|exact IH].
  exfalso. unfold kept in K. apply negb_true_iff in K.
  assert (Hex : existsb (String.eqb (servers.ID s)) ids = true).
  { apply List.existsb_exists. exists id. split; [exact Hin | apply String.eqb_eq; exact E]. }
  congruence.
Qed.

(** X8. When [DeleteNodes] returns [nil], every reference was well formed,
    one delete request went out per reference, in order, for the backend id
    the reference names, and the backend is left with exactly the instances
    that none of the references names: none of the named ids can be found any
    more, and nothing else was removed. *)
Theorem DeleteNodes_removes_what_it_names
    (ng : OpenStackNodeGroup) (nodes : list apiv1.Node) (w : World) :
  fst (DeleteNodes ng nodes w) = Ok tt ->
  Forall (fun n => well_formed_id n = true) nodes
  /\ issued w (snd (DeleteNodes ng nodes w))
     = map (fun n => CallServersDelete (server_id_of n)) nodes
  /\ w_servers (snd (DeleteNodes ng nodes w))
     = List.filter (kept (map server_id_of nodes)) (w_servers w)
  /\ Forall (fun n => find_server (server_id_of n)
                                  (w_servers (snd (DeleteNodes ng nodes w))) = None)
            nodes.
Proof.
  intros Hok.
  assert (H : Forall (fun n => well_formed_id n = true) nodes
              /\ w_calls (snd (DeleteNodes ng nodes w))
                 = w_calls w ++ map (fun n => CallServersDelete (server_id_of n)) nodes
              /\ w_servers (snd (DeleteNodes ng nodes w))
                 = List.filter (kept (map server_id_of nodes)) (w_servers w)).
  { revert w Hok. induction nodes as [|n nodes IH]; intros w Hok.
    - simpl. rewrite app_nil_r. split; [constructor|]. split; [reflexivity|].
      symmetry. apply List.forallb_filter_id. apply List.forallb_forall.
      intros s _. reflexivity.
    - simpl in Hok |- *. unfold bind, wrapf in Hok |- *.
      destruct (deleteNode ng n w) as [[[]|e] w1] eqn:E; [|discriminate].
      apply deleteNode_ok in E as [Hwf ->].
      match type of Hok with context [DeleteNodes ng nodes ?w1] =>
        destruct (IH w1 Hok) as (Hall & Hcalls & Hservers) end.
      split; [constructor; assumption|]. split.
      + rewrite Hcalls. simpl. rewrite <- app_assoc. reflexivity.
      + rewrite Hservers. simpl. rewrite filter_filter_and.
        apply List.filter_ext. intros s. unfold kept. simpl.
        rewrite negb_orb. reflexivity. }
  destruct H as (Hall & Hcalls & Hservers).
  split; [exact Hall|]. split; [apply issued_app; exact Hcalls|].
  split; [exact Hservers|].
  rewrite Hservers. apply List.Forall_forall. intros n Hn.
  apply find_server_kept. apply List.in_map. exact Hn.
Qed.

Lemma DeleteNodes_removes_what_it_names_witness :
  map servers.ID
      (w_servers (snd (DeleteNodes Scenario.g1
                         [Scenario.a_node "n2" "openstack://i-2"]
                         Scenario.two_active)))
  = ["i-1"].
Proof.
  rewrite (proj1 (proj2 (proj2 (DeleteNodes_removes_what_it_names
                                  Scenario.g1 [Scenario.a_node "n2" "openstack://i-2"]
                                  Scenario.two_active eq_refl)))).
  reflexivity.
Defined.

(** X9. [DeleteNodes] never looks at the group it is called on: the same
    references give the same result and the same world whichever group
    receives them, so a reference to an instance of another group, or of no
    group, is deleted all the same. *)
Theorem DeleteNodes_ignores_its_group
    (ng other : OpenStackNodeGroup) (nodes : list apiv1.Node) (w : World) :
  DeleteNodes ng nodes w = DeleteNodes other nodes w.
Proof.
  revert w. induction nodes as [|n nodes IH]; intros w; simpl; [reflexivity|].
  unfold bind, wrapf. change (deleteNode other n w) with (deleteNode ng n w).
  destruct (deleteNode ng n w) as [[[]|e] w1]; [apply IH | reflexivity].
Qed.

Lemma strip_prefix_append (p r : string) : strip_prefix p (p +:+ r) = Some r.
Proof. apply strip_prefix_spec. reflexivity. Qed.

(** X10. The provider id round trip.  For every backend id, the empty one
    included, the reference ["openstack://" ++ id] is well formed and names
    [id]: [deleteNode] sends one delete request for [id], and the provider's
    group-for-node lookup one get request for [id]. *)
Theorem provider_id_round_trip
    (ng : OpenStackNodeGroup) (node : apiv1.Node) (id : string)
    (order : list string) (p : OpenStackProvider) (w : World) :
  apiv1.ProviderID node = ProviderName +:+ "://" +:+ id ->
  well_formed_id node = true
  /\ server_id_of node = id
  /\ issued w (snd (deleteNode ng node w)) = [CallServersDelete id]
  /\ issued w (snd (Provider.NodeGroupForNode order p (apiv1.ProviderID node) w))
     = [CallServersGet id].
Proof.
  intros Hid.
  assert (Hstrip : strip_prefix (ProviderName +:+ "://") (apiv1.ProviderID node) = Some id).
  { rewrite Hid. apply (strip_prefix_append "openstack://" id). }
  assert (Hwf : well_formed_id node = true).
  { unfold well_formed_id, HasPrefix. rewrite Hstrip. reflexivity. }
  assert (Hsid : server_id_of node = id).
  { unfold server_id_of, TrimPrefix. rewrite Hstrip. reflexivity. }
  split; [exact Hwf|]. split; [exact Hsid|]. split.
  - unfold deleteNode.
    rewrite (TrimPrefix_unchanged (apiv1.ProviderID node)) by discriminate.
    fold (well_formed_id node). fold (server_id_of node). rewrite Hwf, Hsid. simpl.
    apply issued_app.
    unfold wrapf, servers_Delete, bind, request. simpl.
    destruct (w_faults w _); simpl; try reflexivity.
    destruct (find_server _ _); reflexivity.
  - unfold Provider.NodeGroupForNode.
    rewrite (TrimPrefix_unchanged (apiv1.ProviderID node)) by discriminate.
    fold (well_formed_id node). fold (server_id_of node). rewrite Hwf, Hsid. simpl.
    apply issued_app.
    unfold wrapf, servers_Get, bind, request, ret. simpl.
    destruct (w_faults w _); simpl; try reflexivity.
    destruct (find_server _ _); reflexivity.
Qed.

Lemma provider_id_round_trip_witness :
  issued Scenario.two_active
         (snd (deleteNode Scenario.g1 (Scenario.a_node "n" "openstack://")
                          Scenario.two_active))
  = [CallServersDelete ""].
Proof.
  exact (proj1 (proj2 (proj2 (provider_id_round_trip
                                Scenario.g1 (Scenario.a_node "n" "openstack://") ""
                                [] Scenario.only_g1 Scenario.two_active eq_refl)))).
Defined.

(** ** Resolving the flavor and the image *)

Lemma getImageID_healthy (ng : OpenStackNodeGroup) (w : World) :
  healthy w ->
  fst (getImageID ng w)
  = match resolve_image (Config ng) (w_images w) with
    | Some i => Ok i
    | None => Err (ErrImageNotFound (config.ImageName (Config ng)))
    end.
Proof.
  intros H. unfold getImageID, resolve_image.
  destruct (negb _); [reflexivity|].
  unfold images_List_AllPages, wrapf, bind, request, lift, ret, fail.
  rewrite (H (length (w_calls w))). simpl.
  destruct (List.filter _ _); reflexivity.
Qed.

Lemma getFlavor_calls (ng : OpenStackNodeGroup) (w : World) :
  exists calls,
    snd (getFlavor ng w) = set_calls (w_calls w ++ calls) w /\
    (calls = [CallFlavorsGet (config.FlavorName (Config ng))] \/
     calls = [CallFlavorsGet (config.FlavorName (Config ng)); CallFlavorsListDetail]).
Proof.
  set (name := config.FlavorName (Config ng)).
  unfold getFlavor, flavors_Get, flavors_ListDetail_AllPages,
    wrapf, bind, request, lift, ret, fail. fold name.
  destruct (w_faults w (length (w_calls w))); simpl.
  1: destruct (find_flavor name (w_flavors w)); simpl;
     [exists [CallFlavorsGet name]; split; [reflexivity | left; reflexivity]|].
  all: exists [CallFlavorsGet name; CallFlavorsListDetail];
    (split; [|right; reflexivity]);
    rewrite <- app_assoc; simpl;
    destruct (w_faults w _); simpl; try reflexivity;
    destruct (List.find _ (w_flavors w)); reflexivity.
Qed.



(** X12. The image lookup.  A configured image id is returned as it is,
    without any request, whatever the state of the backend.  Without one, on
    a backend that serves the request, the id of the first catalog image with
    the configured name is returned, and "image ... not found" when there is
    none.  An id it returns is the configured id or that of a catalog image
    with the configured name. *)
Theorem getImageID_resolution (ng : OpenStackNodeGroup) (w : World) :
  (is_set (config.ImageID (Config ng)) ->
   getImageID ng w = (Ok (config.ImageID (Config ng)), w))
  /\ (healthy w ->
      fst (getImageID ng w)
      = match resolve_image (Config ng) (w_images w) with
        | Some i => Ok i
        | None => Err (ErrImageNotFound (config.ImageName (Config ng)))
        end)
  /\ (forall i, fst (getImageID ng w) = Ok i ->
        (is_set (config.ImageID (Config ng)) /\ i = config.ImageID (Config ng))
        \/ exists img, In img (w_images w)
                       /\ images.Name img = config.ImageName (Config ng)
                       /\ images.ID img = i).
Proof.
  split; [|split; [exact (getImageID_healthy ng w)|]].
  - intros Hset. unfold getImageID.
    destruct (String.eqb_spec (config.ImageID (Config ng)) ""); [contradiction|].
    reflexivity.
  - intros i. unfold getImageID.
    destruct (String.eqb_spec (config.ImageID (Config ng)) "") as [E|E]; simpl.
    2:{ intros [= <-]. left. split; [exact E | reflexivity]. }
    unfold images_List_AllPages, wrapf, bind, request, lift, ret, fail.
    destruct (w_faults w _); simpl; try discriminate.
    destruct (List.filter _ (w_images w)) as [|img l] eqn:F; simpl; [discriminate|].
    intros [= <-]. right. exists img.
    assert (Hin : In img (List.filter
                            (fun i0 => String.eqb (images.Name i0)
                                                  (config.ImageName (Config ng)))
                            (w_images w))) by (rewrite F; left; reflexivity).
    apply List.filter_In in Hin as [Hin He].
    split; [exact Hin|]. split; [apply String.eqb_eq; exact He | reflexivity].
Qed.

Lemma getImageID_resolution_witness :
  fst (getImageID Scenario.g1 Scenario.two_active) = Ok "img-1".
Proof.
  exact (proj1 (proj2 (getImageID_resolution Scenario.g1 Scenario.two_active))
               (fun _ => eq_refl)).
Defined.

(** ** Validation against the backend, and what it buys *)

Lemma query_only_ValidateConfiguration (ng : OpenStackNodeGroup) :
  query_only (ValidateConfiguration ng).
Proof. unfold ValidateConfiguration. auto 10 with query. Qed.

(** X13. [ValidateConfiguration] only reads.  Whatever it returns, the
    instances are those there were and no creation or deletion request went
    out.  It looks up the flavor first: when that lookup returns an error the
    answer is that error under "flavor validation failed" and the image is
    not looked up at all.  Next comes the image: an error of that lookup comes
    back under "image validation failed", and when both lookups return
    without error so does the validation.  At most three requests go out, and
    at most two when an image id is configured. *)
Theorem ValidateConfiguration_only_reads (ng : OpenStackNodeGroup) (w : World) :
  w_servers (snd (ValidateConfiguration ng w)) = w_servers w
  /\ creates (issued w (snd (ValidateConfiguration ng w))) = 0%nat
  /\ deletes (issued w (snd (ValidateConfiguration ng w))) = 0%nat
  /\ match getFlavor ng w with
     | (Err e, w1) =>
         ValidateConfiguration ng w = (Err (Wrapf "flavor validation failed" e), w1)
     | (Ok _, w1) =>
         match getImageID ng w1 with
         | (Err e, w2) =>
             ValidateConfiguration ng w
             = (Err (Wrapf "image validation failed" e), w2)
         | (Ok _, w2) => ValidateConfiguration ng w = (Ok tt, w2)
         end
     end
  /\ (length (issued w (snd (ValidateConfiguration ng w))) <= 3)%nat
  /\ (is_set (config.ImageID (Config ng)) ->
      (length (issued w (snd (ValidateConfiguration ng w))) <= 2)%nat).
Proof.
  pose proof (query_only_frame _ w (query_only_ValidateConfiguration ng))
    as (Hs & _ & _ & _ & _ & Hc & Hd).
  split; [exact Hs|]. split; [exact Hc|]. split; [exact Hd|].
  unfold ValidateConfiguration, bind, wrapf, ret.
  destruct (getFlavor_calls ng w) as (c1 & E1 & Hc1).
  assert (Hl1 : (length c1 <= 2)%nat) by (destruct Hc1 as [-> | ->]; simpl; lia).
  destruct (getFlavor ng w) as [[f|e] w1]; simpl in E1; subst w1.
  2:{ split; [reflexivity|]. simpl. rewrite issued_set_calls. split; lia. }
  assert (Himg : exists c2,
             snd (getImageID ng (set_calls (w_calls w ++ c1) w))
             = set_calls (w_calls w ++ c1 ++ c2) w
             /\ (length c2 <= 1)%nat
             /\ (is_set (config.ImageID (Config ng)) -> c2 = [])).
  { unfold getImageID, is_set.
    destruct (String.eqb_spec (config.ImageID (Config ng)) "") as [E|E]; simpl.
    - exists [CallImagesList (config.ImageName (Config ng))].
      split; [|split; [simpl; lia | intros H; contradiction]].
      unfold images_List_AllPages, wrapf, bind, request, lift, ret, fail. simpl.
      rewrite <- app_assoc.
      destruct (w_faults w _); simpl; try reflexivity.
      destruct (List.filter _ (w_images w)); reflexivity.
    - exists []. rewrite app_nil_r.
      split; [reflexivity | split; [simpl; lia | reflexivity]]. }
  destruct Himg as (c2 & E2 & Hl2 & Hset).
  destruct (getImageID ng (set_calls (w_calls w ++ c1) w)) as [[i|e] w2];
    simpl in E2; subst w2; simpl;
    (split; [reflexivity|]); rewrite issued_set_calls, length_app;
    (split; [lia | intros H; rewrite (Hset H); simpl; lia]).
Qed.

(** ** The template: contents, failure, refresh *)

Lemma rebuild_returns (ng ng1 : OpenStackNodeGroup) (w w1 : World) (copy : loc) :
  rebuildTemplateNodeInfo ng w = (Ok (copy, ng1), w1) ->
  exists flavor,
    fst (getFlavor ng w) = Ok flavor
    /\ copy = S (length (w_heap w))
    /\ w_heap w1 = w_heap w ++ [template_node (Config ng) flavor;
                                template_node (Config ng) flavor].
Proof.
  destruct (query_only_getFlavor ng w) as (c1 & E1 & _).
  unfold rebuildTemplateNodeInfo, buildTemplateNodeInfo, bind, wrapf.
  destruct (getFlavor ng w) as [[flavor|e] wq]; simpl in E1; subst wq; simpl;
    [|discriminate].
  unfold time_Now.
  rewrite (DeepCopy_valid _ _ (template_node (Config ng) flavor))
    by (simpl; apply list_lookup_middle; reflexivity).
  simpl. intros [= <- <- <-]. exists flavor. simpl.
  rewrite length_app, <- app_assoc. simpl.
  split; [reflexivity | split; [lia | reflexivity]].
Qed.

(** X14. What the template says.  When a call that finds the cache empty or
    expired returns a node, the flavor lookup has returned a flavor, and the
    node is built from that flavor and the group's configuration: it is named
    "<id>-template", has the provider id "openstack://template-<id>", one
    Ready condition, and the same resources as capacity and as allocatable:
    the flavor's VCPUs as cpu, and its RAM, taken as MiB, in bytes as memory
    (exact for a RAM below 2^43).  A label of the group's configuration is on
    the node with its configured value, also when it is one of the three
    standard labels (arch, os, instance type); the standard labels fill the
    keys the configuration leaves free. *)
Theorem template_contents
    (ng ng1 : OpenStackNodeGroup) (w w1 : World) (copy : loc) :
  stale ng w ->
  TemplateNodeInfo ng w = (Ok (copy, ng1), w1) ->
  exists flavor node,
    fst (getFlavor ng w) = Ok flavor
    /\ w_heap w1 !! copy = Some node
    /\ apiv1.Name node = ID ng +:+ "-template"
    /\ apiv1.ProviderID node = "openstack://template-" +:+ ID ng
    /\ apiv1.Conditions node = [apiv1.mkNodeCondition "Ready" "True"]
    /\ apiv1.Allocatable node = apiv1.Capacity node
    /\ dom (apiv1.Capacity node) = {[ "cpu"; "memory" ]}
    /\ apiv1.Capacity node !! "cpu"
       = Some (apiv1.mkQuantity (wrap64 (flavors.VCPUs flavor)) apiv1.DecimalSI)
    /\ (in_int (flavors.VCPUs flavor) ->
        apiv1.Capacity node !! "cpu"
        = Some (apiv1.mkQuantity (flavors.VCPUs flavor) apiv1.DecimalSI))
    /\ (0 <= flavors.RAM flavor < 2 ^ 43 ->
        apiv1.Capacity node !! "memory"
        = Some (apiv1.mkQuantity (flavors.RAM flavor * 1048576) apiv1.BinarySI))
    /\ (forall k v, config.Labels (Config ng) !! k = Some v ->
                    apiv1.Labels node !! k = Some v)
    /\ (forall k, config.Labels (Config ng) !! k = None ->
                  apiv1.Labels node !! k
                  = ({[ "kubernetes.io/arch" := "amd64";
                        "kubernetes.io/os" := "linux";
                        "node.kubernetes.io/instance-type" := flavors.Name flavor ]}
                     : gmap string string) !! k).
Proof.
  intros Hs. rewrite (TemplateNodeInfo_stale _ _ Hs). intros Hre.
  destruct (rebuild_returns _ _ _ _ _ Hre) as (flavor & Hfl & -> & Hheap).
  exists flavor, (template_node (Config ng) flavor).
  split; [exact Hfl|]. split.
  { rewrite Hheap.
    change [template_node (Config ng) flavor; template_node (Config ng) flavor]
      with ([template_node (Config ng) flavor] ++ [template_node (Config ng) flavor]).
    rewrite app_assoc. apply list_lookup_middle. rewrite length_app. simpl. lia. }
  unfold template_node. simpl.
  split; [reflexivity|]. split; [reflexivity|]. split; [reflexivity|].
  split; [reflexivity|]. split.
  { rewrite !dom_insert_L, dom_empty_L. set_solver. }
  split; [reflexivity|]. split.
  { intros Hv. rewrite lookup_insert_ne by discriminate.
    rewrite lookup_insert_eq. unfold utils.ResourceQuantity.
    rewrite (wrap64_exact _ Hv). reflexivity. }
  split.
  { intros Hram. rewrite lookup_insert_eq. unfold utils.ResourceQuantityFromBytes, int_mul.
    change (2 ^ 43) with 8796093022208 in Hram.
    rewrite (wrap64_exact (flavors.RAM flavor * 1024))
      by (unfold in_int, min_int, max_int; lia).
    rewrite (wrap64_exact (flavors.RAM flavor * 1024 * 1024))
      by (unfold in_int, min_int, max_int; lia).
    rewrite (wrap64_exact (flavors.RAM flavor * 1024 * 1024))
      by (unfold in_int, min_int, max_int; lia).
    f_equal. f_equal. lia. }
  split.
  - intros k v Hk. apply lookup_union_Some_l. exact Hk.
  - intros k Hk. rewrite lookup_union_r by exact Hk.
    destruct (decide (k = "node.kubernetes.io/instance-type")) as [->|N1];
      [reflexivity|].
    destruct (decide (k = "kubernetes.io/os")) as [->|N2]; [reflexivity|].
    destruct (decide (k = "kubernetes.io/arch")) as [->|N3]; [reflexivity|].
    rewrite !lookup_insert_ne by congruence.
    rewrite lookup_singleton_ne by congruence. apply lookup_empty.
Qed.

Lemma template_contents_witness :
  exists flavor node,
    fst (getFlavor Scenario.g1 Scenario.two_active) = Ok flavor
    /\ w_heap (snd (TemplateNodeInfo Scenario.g1 Scenario.two_active)) !! 1%nat
       = Some node
    /\ apiv1.Name node = "g1-template".
Proof.
  destruct (template_contents
              Scenario.g1
              (mkNodeGroup (Config Scenario.g1) (Some 0%nat) 1700000000000000000)
              Scenario.two_active
              (snd (TemplateNodeInfo Scenario.g1 Scenario.two_active))
              1%nat I eq_refl)
    as (flavor & node & H1 & H2 & H3 & _).
  exists flavor, node. auto.
Defined.

(** X15. A template call fails only on a rebuild.  With a cache that points
    to a live object, an error means the cache was empty or expired and the
    machine-type lookup failed: the error is that of the lookup under "failed
    to build template node info: failed to get flavor", nothing was allocated
    and no instance was touched.  So while the cached template is fresh, the
    call succeeds whatever the state of the backend. *)
Theorem TemplateNodeInfo_fails_only_on_rebuild
    (ng : OpenStackNodeGroup) (w : World) (e : error) :
  (forall cached, templateNodeInfo ng = Some cached -> is_Some (w_heap w !! cached)) ->
  fst (TemplateNodeInfo ng w) = Err e ->
  stale ng w
  /\ (exists cause,
        e = Wrapf "failed to build template node info"
              (Wrapf "failed to get flavor" cause)
        /\ fst (getFlavor ng w) = Err cause)
  /\ w_heap (snd (TemplateNodeInfo ng w)) = w_heap w
  /\ w_servers (snd (TemplateNodeInfo ng w)) = w_servers w.
Proof.
  intros Hvalid.
  assert (Hre : fst (rebuildTemplateNodeInfo ng w) = Err e ->
                (exists cause,
                    e = Wrapf "failed to build template node info"
                          (Wrapf "failed to get flavor" cause)
                    /\ fst (getFlavor ng w) = Err cause)
                /\ w_heap (snd (rebuildTemplateNodeInfo ng w)) = w_heap w
                /\ w_servers (snd (rebuildTemplateNodeInfo ng w)) = w_servers w).
  { unfold rebuildTemplateNodeInfo, buildTemplateNodeInfo, bind, wrapf.
    destruct (query_only_getFlavor ng w) as (c1 & E1 & _).
    destruct (getFlavor ng w) as [[f|cause] wq]; simpl in E1; subst wq; simpl.
    - unfold time_Now.
      rewrite (DeepCopy_valid _ _ (template_node (Config ng) f))
        by (simpl; apply list_lookup_middle; reflexivity).
      discriminate.
    - intros [= <-]. split; [eauto | split; reflexivity]. }
  unfold TemplateNodeInfo, stale.
  destruct (templateNodeInfo ng) as [cached|] eqn:Ec.
  - unfold bind, time_Since.
    destruct (Z.ltb_spec (saturate (w_now w - lastRefresh ng)) (10 * time_Minute)).
    + destruct (Hvalid cached eq_refl) as [node Hnode].
      rewrite (DeepCopy_valid _ _ _ Hnode). discriminate.
    + intros He. split; [assumption | apply Hre; exact He].
  - intros He. split; [exact I | apply Hre; exact He].
Qed.

Lemma TemplateNodeInfo_fails_only_on_rebuild_witness :
  w_heap (snd (TemplateNodeInfo Scenario.g1
                 (Scenario.a_world [] (fun _ => RequestFails)))) = [].
Proof.
  refine (proj1 (proj2 (proj2
           (TemplateNodeInfo_fails_only_on_rebuild
              Scenario.g1 (Scenario.a_world [] (fun _ => RequestFails))
              (Wrapf "failed to build template node info"
                 (Wrapf "failed to get flavor"
                    (Wrapf "failed to list flavors"
                       (BackendError CallFlavorsListDetail))))
              _ eq_refl)))).
  intros cached H. discriminate H.
Defined.

(** X16. The provider's [Refresh] empties the template cache of every
    group and changes nothing else: the same ids are registered, each with
    the configuration it had.  Refreshing twice is refreshing once.  After
    it, the next template call of any group looks the machine type up
    exactly once, and the adapter's refresh operation always answers with
    success, leaving the world alone. *)
Theorem Refresh_empties_every_cache (p : OpenStackProvider) :
  (forall id,
      nodeGroups (Provider.Refresh p) !! id
      = (fun g => mkNodeGroup (Config g) None time_zero) <$> nodeGroups p !! id)
  /\ dom (nodeGroups (Provider.Refresh p)) = dom (nodeGroups p)
  /\ Provider.Refresh (Provider.Refresh p) = Provider.Refresh p
  /\ (forall id g w,
        Provider.GetNodeGroup (Provider.Refresh p) id = Some g ->
        stale g w
        /\ flavor_lookups (issued w (snd (TemplateNodeInfo g w))) = 1%nat)
  /\ (forall w, grpc.Refresh p w = (Response tt, Provider.Refresh p, w)).
Proof.
  assert (Hlook : forall id,
             nodeGroups (Provider.Refresh p) !! id
             = (fun g => mkNodeGroup (Config g) None time_zero) <$> nodeGroups p !! id).
  { intros id. unfold Provider.Refresh. simpl. rewrite lookup_fmap. reflexivity. }
  split; [exact Hlook|]. split; [apply dom_fmap_L|]. split; [|split].
  - unfold Provider.Refresh. simpl. f_equal. apply map_eq. intros id.
    rewrite !lookup_fmap. destruct (nodeGroups p !! id); reflexivity.
  - intros id g w Hg. unfold Provider.GetNodeGroup in Hg. rewrite Hlook in Hg.
    destruct (nodeGroups p !! id) as [g0|]; [|discriminate].
    injection Hg as <-.
    assert (Hs : stale (mkNodeGroup (Config g0) None time_zero) w) by exact I.
    split; [exact Hs | apply stale_one_lookup; exact Hs].
  - intros w. reflexivity.
Qed.

(** ** What the adapter reports *)

Lemma reported_up_to_instance (s : servers.Server) :
  reported_up (grpc.to_instance s)
  = (String.eqb (servers.Status s) "ACTIVE" || String.eqb (servers.Status s) "BUILD").
Proof.
  unfold reported_up, grpc.to_instance, grpc.instance_state. simpl.
  destruct (String.eqb (servers.Status s) "ACTIVE"); [reflexivity|].
  destruct (String.eqb (servers.Status s) "BUILD"); [reflexivity|].
  destruct (_ || _); reflexivity.
Qed.

Lemma reported_up_count (ng : OpenStackNodeGroup) (l : list servers.Server) :
  Z.of_nat (length (List.filter reported_up
                      (map grpc.to_instance (List.filter (ContainsNode ng) l))))
  = target_count ng l.
Proof.
  unfold target_count. f_equal.
  induction l as [|s l IH]; [reflexivity|].
  simpl. unfold counted at 1. destruct (ContainsNode ng s); simpl; [|exact IH].
  rewrite reported_up_to_instance.
  destruct (_ || _); simpl; congruence.
Qed.

(** X17. The instance report and the target size agree.  For a registered
    group and a served list request, the nodes operation reports one instance
    per attributed server, in the backend's order and under the server's id,
    without error details, and the number it reports as running or being
    created is the group's target size, the value the target-size operation
    returns from the same world.  A status is reported as running exactly for
    ACTIVE, as being created exactly for BUILD, as being deleted exactly for
    DELETED and DELETING, and as unspecified otherwise. *)
Theorem NodeGroupNodes_matches_target_size
    (id : string) (ng : OpenStackNodeGroup) (p : OpenStackProvider) (w : World) :
  Provider.GetNodeGroup p id = Some ng ->
  w_faults w (length (w_calls w)) = NoFault ->
  (exists instances,
      grpc.NodeGroupNodes id p w
      = (Response instances, p, set_calls (w_calls w ++ [CallServersList]) w)
      /\ map pb.inst_Id instances
         = map servers.ID (List.filter (ContainsNode ng) (w_servers w))
      /\ Forall (fun i => pb.inst_ErrorInfo i = pb.mkInstanceErrorInfo "" "" 0) instances
      /\ Z.of_nat (length (List.filter reported_up instances))
         = target_count ng (w_servers w))
  /\ grpc.NodeGroupTargetSize id p w
     = (Response (to_int32 (target_count ng (w_servers w))), p,
        set_calls (w_calls w ++ [CallServersList]) w)
  /\ (forall status,
        (grpc.instance_state status = pb.instanceRunning <-> status = "ACTIVE")
        /\ (grpc.instance_state status = pb.instanceCreating <-> status = "BUILD")
        /\ (grpc.instance_state status = pb.instanceDeleting
            <-> status = "DELETED" \/ status = "DELETING")).
Proof.
  intros Hg Hf. split; [|split].
  - unfold grpc.NodeGroupNodes. rewrite Hg, Nodes_eq, Hf.
    eexists. split; [reflexivity|]. split; [|split].
    + rewrite List.map_map. reflexivity.
    + apply List.Forall_forall. intros i Hi. apply List.in_map_iff in Hi as (s & <- & _).
      reflexivity.
    + apply reported_up_count.
  - unfold grpc.NodeGroupTargetSize. rewrite Hg, TargetSize_eq, Hf. reflexivity.
  - intros status. unfold grpc.instance_state.
    destruct (String.eqb_spec status "ACTIVE") as [->|N1].
    { repeat split; try discriminate; try reflexivity; intros [H|H]; discriminate H. }
    destruct (String.eqb_spec status "BUILD") as [->|N2].
    { repeat split; try discriminate; try reflexivity; intros [H|H]; discriminate H. }
    destruct (String.eqb_spec status "DELETED") as [->|N3].
    { repeat split; try discriminate; try reflexivity; auto. }
    destruct (String.eqb_spec status "DELETING") as [->|N4]; simpl.
    { repeat split; try discriminate; try reflexivity; auto. }
    repeat split; try discriminate; try contradiction; tauto.
Qed.

Lemma NodeGroupNodes_matches_target_size_witness :
  grpc.NodeGroupTargetSize "g1" Scenario.only_g1 Scenario.two_active
  = (Response 2, Scenario.only_g1, set_calls [CallServersList] Scenario.two_active).
Proof.
  exact (proj1 (proj2 (NodeGroupNodes_matches_target_size
                         "g1" Scenario.g1 Scenario.only_g1 Scenario.two_active
                         eq_refl eq_refl))).
Defined.

Lemma find_pointwise {A} (f g : A -> bool) (l : list A) :
  (forall x, f x = g x) -> List.find f l = List.find g l.
Proof.
  intros H. induction l as [|x l IH]; simpl; [reflexivity|].
  rewrite H, IH. reflexivity.
Qed.

Lemma find_by_tag (order : list string) (p : OpenStackProvider) (tag : string) :
  directory_ok p ->
  (forall k, is_Some (nodeGroups p !! k) -> In k order) ->
  List.find (fun g => String.eqb tag (ID g)) (Provider.range_groups order p)
  = nodeGroups p !! tag.
Proof.
  intros Hp Hall.
  assert (Hsound : forall l g,
             List.find (fun g => String.eqb tag (ID g)) (Provider.range_groups l p) = Some g ->
             nodeGroups p !! tag = Some g).
  { induction l as [|k l IH]; intros g; [discriminate|].
    unfold Provider.range_groups. simpl.
    destruct (nodeGroups p !! k) as [g0|] eqn:E; [|apply IH].
    simpl. destruct (String.eqb_spec tag (ID g0)) as [Et|_]; [|apply IH].
    intros [= <-]. destruct (Hp k g0 E) as [Hid _]. congruence. }
  assert (Hcomplete : forall l g,
             nodeGroups p !! tag = Some g -> In tag l ->
             is_Some (List.find (fun g => String.eqb tag (ID g))
                                (Provider.range_groups l p))).
  { induction l as [|k l IH]; intros g Hg Hin; [destruct Hin|].
    unfold Provider.range_groups. simpl.
    destruct (String.eqb_spec k tag) as [->|Hne].
    - rewrite Hg. simpl. destruct (Hp tag g Hg) as [Hid _].
      rewrite Hid, String.eqb_refl. eauto.
    - destruct Hin as [->|Hin]; [congruence|].
      destruct (nodeGroups p !! k) as [g0|]; [|apply (IH g Hg Hin)].
      simpl. destruct (String.eqb tag (ID g0)); [eauto | apply (IH g Hg Hin)]. }
  destruct (List.find _ (Provider.range_groups order p)) as [g|] eqn:F.
  - symmetry. apply (Hsound order g F).
  - destruct (nodeGroups p !! tag) as [g|] eqn:E; [|reflexivity].
    destruct (Hcomplete order g eq_refl (Hall tag (ex_intro _ g E))) as [g' Hg'].
    congruence.
Qed.

(** X18. For a tagged instance the group lookup does not depend on the
    order in which the directory is visited.  In a directory whose groups sit
    under their own ids, when the instance is fetched and carries a group tag,
    the provider returns the group registered under that tag, or none when no
    group is; the instance's name plays no part.  The adapter then answers
    with that group's id and bounds, or with the empty group. *)
Theorem NodeGroupForNode_by_tag
    (order : list string) (p : OpenStackProvider) (w : World)
    (id tag : string) (server : servers.Server) (n : pb.ExternalGrpcNode) :
  directory_ok p ->
  (forall k, is_Some (nodeGroups p !! k) -> In k order) ->
  w_faults w (length (w_calls w)) = NoFault ->
  find_server id (w_servers w) = Some server ->
  group_tag server = Some tag ->
  pb.ProviderID n = ProviderName +:+ "://" +:+ id ->
  fst (Provider.NodeGroupForNode order p (pb.ProviderID n) w) = Ok (nodeGroups p !! tag)
  /\ fst (fst (grpc.NodeGroupForNode order (Some n) p w))
     = Response (match nodeGroups p !! tag with
                 | Some g => grpc.describe g
                 | None => pb.empty_NodeGroup
                 end).
Proof.
  intros Hp Hall Hf Hfind Htag Hid.
  assert (Hstrip : strip_prefix (ProviderName +:+ "://") (pb.ProviderID n) = Some id).
  { rewrite Hid. apply (strip_prefix_append "openstack://" id). }
  assert (Hprov : Provider.NodeGroupForNode order p (pb.ProviderID n) w
                  = (Ok (nodeGroups p !! tag),
                     set_calls (w_calls w ++ [CallServersGet id]) w)).
  { unfold Provider.NodeGroupForNode.
    rewrite (TrimPrefix_unchanged (pb.ProviderID n)) by discriminate.
    unfold HasPrefix, TrimPrefix. rewrite Hstrip. simpl.
    unfold wrapf, servers_Get, bind, request, ret. simpl.
    rewrite Hf, Hfind. simpl. f_equal. f_equal.
    rewrite <- (find_by_tag order p tag Hp Hall).
    apply find_pointwise. intros g. apply (ContainsNode_tagged g server tag Htag). }
  split; [rewrite Hprov; reflexivity|].
  unfold grpc.NodeGroupForNode. rewrite Hprov.
  destruct (nodeGroups p !! tag); reflexivity.
Qed.

Lemma NodeGroupForNode_by_tag_witness :
  fst (Provider.NodeGroupForNode ["g1"] Scenario.only_g1 "openstack://i-1"
                                 Scenario.two_active)
  = Ok (Some Scenario.g1).
Proof.
  refine (proj1 (NodeGroupForNode_by_tag
                   ["g1"] Scenario.only_g1 Scenario.two_active "i-1" "g1"
                   (Scenario.active "i-1" "g1-a" "g1")
                   (pb.mkExternalGrpcNode "openstack://i-1" "n1" ∅ ∅)
                   _ _ eq_refl eq_refl eq_refl eq_refl)).
  - intros k g H. unfold Scenario.only_g1 in H. simpl in H.
    apply lookup_singleton_Some in H as [<- <-].
    split; [reflexivity|]. unfold valid_config, is_set. simpl.
    repeat split; try discriminate; try lia. left. discriminate.
  - intros k [g H]. unfold Scenario.only_g1 in H. simpl in H.
    apply lookup_singleton_Some in H as [<- _]. left. reflexivity.
Defined.

Lemma wrap32_range (z : Z) : in_int32 (wrap32 z).
Proof.
  unfold in_int32, min_int32, max_int32, wrap32, wrap.
  change (2 ^ (32 - 1)) with 2147483648. change (2 ^ 32) with 4294967296.
  pose proof (Z.mod_pos_bound (z + 2147483648) 4294967296 ltac:(lia)). lia.
Qed.

Lemma wrap32_exact_iff (z : Z) : wrap32 z = z <-> in_int32 z.
Proof.
  split; [intros <-; apply wrap32_range|].
  unfold in_int32, min_int32, max_int32, wrap32, wrap. intros H.
  change (2 ^ (32 - 1)) with 2147483648. change (2 ^ 32) with 4294967296.
  rewrite Z.mod_small; lia.
Qed.

(** X19. Sizes travel as 32-bit integers.  The bounds the adapter reports
    for a group are those of its configuration exactly when they fit in an
    int32, and the target size it reports is the count exactly when the count
    fits; whatever the value, what is reported lies in the int32 range. *)
Theorem adapter_sizes_are_int32
    (ng : OpenStackNodeGroup) (id : string) (p : OpenStackProvider) (w : World) :
  pb.Id (grpc.describe ng) = ID ng
  /\ (pb.MinSize (grpc.describe ng) = MinSize ng <-> in_int32 (MinSize ng))
  /\ (pb.MaxSize (grpc.describe ng) = MaxSize ng <-> in_int32 (MaxSize ng))
  /\ in_int32 (pb.MinSize (grpc.describe ng))
  /\ in_int32 (pb.MaxSize (grpc.describe ng))
  /\ (forall n,
        Provider.GetNodeGroup p id = Some ng ->
        fst (TargetSize ng w) = Ok n ->
        exists r, fst (fst (grpc.NodeGroupTargetSize id p w)) = Response r
                  /\ in_int32 r
                  /\ (r = n <-> n <= max_int32)).
Proof.
  unfold grpc.describe, to_int32. simpl.
  split; [reflexivity|]. split; [apply wrap32_exact_iff|].
  split; [apply wrap32_exact_iff|]. split; [apply wrap32_range|].
  split; [apply wrap32_range|].
  intros n Hg Hn. unfold grpc.NodeGroupTargetSize. rewrite Hg.
  assert (H0 : 0 <= n).
  { rewrite TargetSize_eq in Hn. simpl in Hn.
    destruct (w_faults w _); try discriminate. injection Hn as <-.
    apply target_count_nonneg. }
  destruct (TargetSize ng w) as [[m|e] w1]; simpl in Hn; [|discriminate].
  injection Hn as ->. simpl. exists (to_int32 n).
  split; [reflexivity|]. split; [apply wrap32_range|].
  unfold to_int32. rewrite wrap32_exact_iff. unfold in_int32, min_int32. lia.
Qed.

Lemma adapter_sizes_are_int32_witness :
  exists r, fst (fst (grpc.NodeGroupTargetSize "g1" Scenario.only_g1 Scenario.two_active))
            = Response r
            /\ in_int32 r /\ (r = 2 <-> 2 <= max_int32).
Proof.
  exact (proj2 (proj2 (proj2 (proj2 (proj2
           (adapter_sizes_are_int32 Scenario.g1 "g1" Scenario.only_g1
                                    Scenario.two_active)))))
           2 eq_refl eq_refl).
Defined.

(** ** The creation request *)

Lemma getFlavor_sound (ng : OpenStackNodeGroup) (w : World) (f : flavors.Flavor) :
  fst (getFlavor ng w) = Ok f ->
  In f (w_flavors w)
  /\ (flavors.ID f = config.FlavorName (Config ng)
      \/ flavors.Name f = config.FlavorName (Config ng)).
Proof.
  set (name := config.FlavorName (Config ng)).
  unfold getFlavor, flavors_Get, flavors_ListDetail_AllPages,
    wrapf, bind, request, lift, ret, fail. fold name.
  destruct (w_faults w (length (w_calls w))); simpl.
  1: destruct (find_flavor name (w_flavors w)) as [f0|] eqn:E0; simpl;
     [intros [= <-]; apply List.find_some in E0 as [Hin He];
      split; [exact Hin | left; apply String.eqb_eq; exact He]|].
  all: rewrite length_app; simpl;
    destruct (w_faults w _); simpl; try discriminate;
    destruct (List.find _ (w_flavors w)) as [f1|] eqn:E1; simpl; try discriminate;
    intros [= <-]; apply List.find_some in E1 as [Hin He];
    split; [exact Hin | right; apply String.eqb_eq; exact He].
Qed.

Lemma queries_hold_no_create (calls : list Call) (opts : servers.CreateOpts) :
  Forall (fun c => is_query c = true) calls -> ~ In (CallServersCreate opts) calls.
Proof.
  intros F Hin. rewrite List.Forall_forall in F. specialize (F _ Hin). discriminate F.
Qed.

Lemma createServer_request (ng : OpenStackNodeGroup) (w : World) (opts : servers.CreateOpts) :
  In (CallServersCreate opts) (issued w (snd (createServer ng w))) ->
  exists imageID flavor,
    fst (getImageID ng w) = Ok imageID
    /\ In flavor (w_flavors w)
    /\ (flavors.ID flavor = config.FlavorName (Config ng)
        \/ flavors.Name flavor = config.FlavorName (Config ng))
    /\ opts = servers.mkCreateOpts
                (config.ID (Config ng) +:+ "-" +:+ pretty (time_Unix (w_now w)))
                imageID (flavors.ID flavor)
                (if negb (String.eqb (config.UserData (Config ng)) "")
                 then EncodeToString (config.UserData (Config ng))
                 else config.UserData (Config ng))
                (create_metadata (Config ng))
                (config.SecurityGroups (Config ng))
                (config.AvailabilityZone (Config ng))
                (if negb (String.eqb (config.NetworkID (Config ng)) "")
                 then [servers.mkNetwork (config.NetworkID (Config ng))] else []).
Proof.
  unfold createServer, bind, wrapf.
  destruct (query_only_getImageID ng w) as (c1 & E1 & F1).
  destruct (getImageID ng w) as [[imageID|e] w1]; simpl in E1; subst w1; simpl.
  2:{ unfold issued. simpl. rewrite drop_app_length.
      intros H. destruct (queries_hold_no_create _ _ F1 H). }
  destruct (query_only_getFlavor ng (set_calls (w_calls w ++ c1) w)) as (c2 & E2 & F2).
  pose proof (getFlavor_sound ng (set_calls (w_calls w ++ c1) w)) as Hsound.
  destruct (getFlavor ng _) as [[flavor|e] w2]; simpl in E2, Hsound; subst w2; simpl.
  2:{ unfold issued. simpl. rewrite <- app_assoc, drop_app_length. intros H.
      apply in_app_or in H as [H|H];
        [destruct (queries_hold_no_create _ _ F1 H)
        | destruct (queries_hold_no_create _ _ F2 H)]. }
  destruct (Hsound flavor eq_refl) as [Hin Hname].
  unfold time_Now.
  match goal with |- context [servers_Create ?o] => set (sent := o) end.
  unfold servers_Create, bind, request. simpl.
  assert (Hsent : In (CallServersCreate opts) (c1 ++ c2 ++ [CallServersCreate sent]) ->
                  opts = sent).
  { intros H. apply in_app_or in H as [H|H];
      [destruct (queries_hold_no_create _ _ F1 H)|].
    apply in_app_or in H as [H|H];
      [destruct (queries_hold_no_create _ _ F2 H)|].
    destruct H as [Heq|Hnil]; [congruence | destruct Hnil]. }
  intros H. exists imageID, flavor.
  split; [reflexivity|]. split; [exact Hin|]. split; [exact Hname|].
  apply Hsent.
  unfold issued in H.
  destruct (w_faults w _); simpl in H;
    rewrite <- !app_assoc, drop_app_length in H; exact H.
Qed.

(** X20. What a creation request carries.  A creation request sent by
    [createServer] names the image the image lookup returned and the id of a
    catalog flavor that has the configured flavor name as its id or name; it
    carries the group's security groups, availability zone and network (none
    when no network id is configured), and the user data in base64, or none
    when none is configured.  In its metadata ["nodegroup"] is the group's id
    and ["created_by"] is "openstack-autoscaler" whatever the configured
    metadata says; ["key_name"] is the configured key name when there is one;
    every other entry is the configured one. *)
Theorem creation_request_contents
    (ng : OpenStackNodeGroup) (w : World) (opts : servers.CreateOpts) :
  In (CallServersCreate opts) (issued w (snd (createServer ng w))) ->
  fst (getImageID ng w) = Ok (servers.opts_ImageRef opts)
  /\ (exists flavor,
        In flavor (w_flavors w)
        /\ (flavors.ID flavor = config.FlavorName (Config ng)
            \/ flavors.Name flavor = config.FlavorName (Config ng))
        /\ servers.opts_FlavorRef opts = flavors.ID flavor)
  /\ servers.opts_SecurityGroups opts = config.SecurityGroups (Config ng)
  /\ servers.opts_AvailabilityZone opts = config.AvailabilityZone (Config ng)
  /\ (is_set (config.NetworkID (Config ng)) ->
      servers.opts_Networks opts = [servers.mkNetwork (config.NetworkID (Config ng))])
  /\ (config.NetworkID (Config ng) = "" -> servers.opts_Networks opts = [])
  /\ (is_set (config.UserData (Config ng)) ->
      servers.opts_UserData opts = EncodeToString (config.UserData (Config ng)))
  /\ (config.UserData (Config ng) = "" -> servers.opts_UserData opts = "")
  /\ servers.opts_Metadata opts !! "nodegroup" = Some (ID ng)
  /\ servers.opts_Metadata opts !! "created_by" = Some "openstack-autoscaler"
  /\ (is_set (config.KeyName (Config ng)) ->
      servers.opts_Metadata opts !! "key_name" = Some (config.KeyName (Config ng)))
  /\ (forall k,
        k <> "nodegroup" -> k <> "created_by" ->
        (k <> "key_name" \/ config.KeyName (Config ng) = "") ->
        servers.opts_Metadata opts !! k = config.Metadata (Config ng) !! k).
Proof.
  intros H. destruct (createServer_request ng w opts H)
    as (imageID & flavor & Himg & Hin & Hname & ->). simpl.
  split; [exact Himg|]. split; [exists flavor; auto|].
  split; [reflexivity|]. split; [reflexivity|].
  unfold is_set, create_metadata.
  rewrite (map_union_empty (config.Metadata (Config ng))).
  destruct (String.eqb_spec (config.NetworkID (Config ng)) "") as [En|En];
    destruct (String.eqb_spec (config.UserData (Config ng)) "") as [Eu|Eu];
    destruct (String.eqb_spec (config.KeyName (Config ng)) "") as [Ek|Ek]; simpl;
    repeat match goal with |- _ /\ _ => split end;
    try (intros; congruence); try reflexivity;
    try (intros; contradiction);
    try (rewrite ?lookup_insert_eq; reflexivity);
    try (rewrite lookup_insert_ne by discriminate;
         rewrite ?lookup_insert_eq; try reflexivity;
         rewrite lookup_insert_ne by discriminate;
         rewrite ?lookup_insert_eq; reflexivity);
    try (intros k N1 N2 [N3|N3]; try congruence;
         rewrite ?lookup_insert_ne by congruence; reflexivity).
Qed.

Lemma creation_request_contents_witness :
  servers.opts_Metadata
    (servers.mkCreateOpts "g1-1700000000" "img-1" "f-1" ""
                          (create_metadata (Config Scenario.g1)) [] "" [])
  !! "created_by" = Some "openstack-autoscaler".
Proof.
  refine (proj1 (proj2 (proj2 (proj2 (proj2 (proj2 (proj2 (proj2 (proj2 (proj2
           (creation_request_contents
              Scenario.g1 Scenario.two_active
              (servers.mkCreateOpts "g1-1700000000" "img-1" "f-1" ""
                                    (create_metadata (Config Scenario.g1)) [] "" [])
              _))))))))))).
  vm_compute. right. right. right. left. reflexivity.
Defined.

(** ** Cloud credentials *)

(** X21. [ValidateAuth] accepts exactly two shapes of credentials.  With a
    password: a user name, and no usable application credential (no secret,
    or a secret with neither credential id nor credential name).  Without a
    password: an application credential secret together with a credential id,
    or with a credential name and a user name.  It reports mixing when a
    password comes with a complete application credential, and incompleteness
    in every other case. *)
Theorem ValidateAuth_accepts (c : cloud.CloudConfig) :
  (cloud.ValidateAuth c = None <->
     (is_set (cloud.Password c) /\ is_set (cloud.Username c)
      /\ ~ (is_set (cloud.ApplicationCredentialSecret c)
            /\ (is_set (cloud.ApplicationCredentialID c)
                \/ is_set (cloud.ApplicationCredentialName c))))
     \/ (cloud.Password c = ""
         /\ is_set (cloud.ApplicationCredentialSecret c)
         /\ (is_set (cloud.ApplicationCredentialID c)
             \/ (is_set (cloud.ApplicationCredentialName c)
                 /\ is_set (cloud.Username c)))))
  /\ (cloud.ValidateAuth c = Some cloud.AuthMixed <->
        is_set (cloud.Password c)
        /\ is_set (cloud.ApplicationCredentialSecret c)
        /\ (is_set (cloud.ApplicationCredentialID c)
            \/ (is_set (cloud.ApplicationCredentialName c)
                /\ is_set (cloud.Username c)))).
Proof.
  unfold cloud.ValidateAuth, is_set.
  destruct (String.eqb_spec (cloud.ApplicationCredentialID c) "") as [E1|E1];
    destruct (String.eqb_spec (cloud.ApplicationCredentialSecret c) "") as [E2|E2];
    destruct (String.eqb_spec (cloud.ApplicationCredentialName c) "") as [E3|E3];
    destruct (String.eqb_spec (cloud.Username c) "") as [E4|E4];
    destruct (String.eqb_spec (cloud.Password c) "") as [E5|E5]; simpl;
    (split; split; intros H; try discriminate H; try reflexivity; tauto).
Qed.

Lemma getEnvOrDefault_empty (env : cloud.Env) (key : string) :
  cloud.getEnvOrDefault env key "" = env key.
Proof.
  unfold cloud.getEnvOrDefault.
  destruct (String.eqb_spec (env key) "") as [E|_]; simpl; [symmetry; exact E | reflexivity].
Qed.

Lemma getEnvOrDefault_set (env : cloud.Env) (key defaultValue : string) :
  is_set defaultValue -> is_set (cloud.getEnvOrDefault env key defaultValue).
Proof.
  unfold cloud.getEnvOrDefault, is_set.
  destruct (String.eqb_spec (env key) ""); simpl; auto.
Qed.

(** X22. Where the cloud configuration comes from.  For the auth URL, user
    name, password, project name, project id and region, a flag that is set
    wins over the environment, and without the flag the environment variable
    is taken as it is.  The application credentials come from the environment
    alone.  The domain names, the interface and the three API versions are
    never empty: an unset or empty variable gives "Default", "public", "3",
    "2.1" and "2.0". *)
Theorem loadCloudConfig_precedence (flags : main.Flags) (env : cloud.Env) :
  let c := main.loadCloudConfig flags env in
  (cloud.AuthURL c
   = if String.eqb (main.authURL flags) "" then env "OS_AUTH_URL" else main.authURL flags)
  /\ (cloud.Username c
      = if String.eqb (main.username flags) "" then env "OS_USERNAME"
        else main.username flags)
  /\ (cloud.Password c
      = if String.eqb (main.password flags) "" then env "OS_PASSWORD"
        else main.password flags)
  /\ (cloud.ProjectName c
      = if String.eqb (main.projectName flags) "" then env "OS_PROJECT_NAME"
        else main.projectName flags)
  /\ (cloud.ProjectID c
      = if String.eqb (main.projectID flags) "" then env "OS_PROJECT_ID"
        else main.projectID flags)
  /\ (cloud.Region c
      = if String.eqb (main.region flags) "" then env "OS_REGION_NAME"
        else main.region flags)
  /\ cloud.ApplicationCredentialID c = env "OS_APPLICATION_CREDENTIAL_ID"
  /\ cloud.ApplicationCredentialName c = env "OS_APPLICATION_CREDENTIAL_NAME"
  /\ cloud.ApplicationCredentialSecret c = env "OS_APPLICATION_CREDENTIAL_SECRET"
  /\ is_set (cloud.UserDomainName c)
  /\ is_set (cloud.ProjectDomainName c)
  /\ is_set (cloud.Interface c)
  /\ is_set (cloud.IdentityAPIVersion c)
  /\ is_set (cloud.ComputeAPIVersion c)
  /\ is_set (cloud.NetworkAPIVersion c)
  /\ (env "OS_USER_DOMAIN_NAME" = "" -> cloud.UserDomainName c = "Default")
  /\ (env "OS_PROJECT_DOMAIN_NAME" = "" -> cloud.ProjectDomainName c = "Default")
  /\ (env "OS_INTERFACE" = "" -> cloud.Interface c = "public")
  /\ (env "OS_IDENTITY_API_VERSION" = "" -> cloud.IdentityAPIVersion c = "3")
  /\ (env "OS_COMPUTE_API_VERSION" = "" -> cloud.ComputeAPIVersion c = "2.1")
  /\ (env "OS_NETWORK_API_VERSION" = "" -> cloud.NetworkAPIVersion c = "2.0").
Proof.
  intros c. subst c. unfold main.loadCloudConfig, cloud.LoadConfigFromEnv, main.override.
  simpl. rewrite !getEnvOrDefault_empty.
  repeat match goal with |- _ /\ _ => split end;
    try (destruct (String.eqb _ ""); reflexivity);
    try reflexivity;
    try (apply getEnvOrDefault_set; discriminate);
    intros E; unfold cloud.getEnvOrDefault; rewrite E; reflexivity.
Qed.

Lemma loadCloudConfig_precedence_witness :
  cloud.Interface
    (main.loadCloudConfig (main.mkFlags "" "alice" "" "" "" "")
                          (fun k => if String.eqb k "OS_USERNAME" then "bob" else ""))
  = "public".
Proof.
  destruct (loadCloudConfig_precedence
              (main.mkFlags "" "alice" "" "" "" "")
              (fun k => if String.eqb k "OS_USERNAME" then "bob" else ""))
    as (_ & _ & _ & _ & _ & _ & _ & _ & _ & _ & _ & _ & _ & _ & _ & _ & _ & H & _).
  apply H. reflexivity.
Defined.

(** A user name and password with a stray credential id and no secret is
    accepted; adding the secret makes it a mix. *)
Example ValidateAuth_stray_credential_id :
  cloud.ValidateAuth
    (cloud.mkCloudConfig "" "alice" "pw" "" "" "" "" "cred-1" "" "" "" "" "" "" "") = None
  /\ cloud.ValidateAuth
       (cloud.mkCloudConfig "" "alice" "pw" "" "" "" "" "cred-1" "" "s3" "" "" "" "" "")
     = Some cloud.AuthMixed.
Proof. split; reflexivity. Qed.

(** ** Which operations can change the instances *)

Lemma query_only_NodeGroupForNode (order : list string) (p : OpenStackProvider)
      (providerID : string) :
  query_only (Provider.NodeGroupForNode order p providerID).
Proof.
  unfold Provider.NodeGroupForNode. destruct (String.eqb _ _); auto 10 with query.
Qed.

Lemma untouched_of_query {A B} (m : M A) (w : World)
      (k : result A -> reply B) (p : OpenStackProvider) :
  query_only m -> instances_untouched w (k (fst (m w)), p, snd (m w)).
Proof.
  intros Hq. destruct (query_only_frame m w Hq) as (Hs & _ & _ & _ & _ & Hc & Hd).
  repeat split; assumption.
Qed.

Lemma untouched_same {A} (w : World) (r : reply A) (p : OpenStackProvider) :
  instances_untouched w (r, p, w).
Proof.
  unfold instances_untouched, issued. simpl. rewrite drop_all. repeat split; reflexivity.
Qed.

Lemma TemplateNodeInfo_reads (ng : OpenStackNodeGroup) (w : World) :
  exists calls,
    w_calls (snd (TemplateNodeInfo ng w)) = w_calls w ++ calls
    /\ Forall (fun c => is_query c = true) calls
    /\ w_servers (snd (TemplateNodeInfo ng w)) = w_servers w.
Proof.
  assert (Hcopy : forall p0 w0, w_calls (snd (DeepCopy p0 w0)) = w_calls w0
                               /\ w_servers (snd (DeepCopy p0 w0)) = w_servers w0).
  { intros p0 w0. unfold DeepCopy, bind, load, alloc.
    destruct (w_heap w0 !! p0); split; reflexivity. }
  assert (Hre : exists calls,
             w_calls (snd (rebuildTemplateNodeInfo ng w)) = w_calls w ++ calls
             /\ Forall (fun c => is_query c = true) calls
             /\ w_servers (snd (rebuildTemplateNodeInfo ng w)) = w_servers w).
  { destruct (query_only_getFlavor ng w) as (c & E & F). exists c.
    unfold rebuildTemplateNodeInfo, buildTemplateNodeInfo, bind, wrapf.
    destruct (getFlavor ng w) as [[f|e] wq]; simpl in E; subst wq; simpl;
      [|split; [reflexivity | split; [exact F | reflexivity]]].
    unfold time_Now.
    rewrite (DeepCopy_valid _ _ (template_node (Config ng) f))
      by (simpl; apply list_lookup_middle; reflexivity).
    simpl. split; [reflexivity | split; [exact F | reflexivity]]. }
  unfold TemplateNodeInfo. destruct (templateNodeInfo ng) as [cached|]; [|exact Hre].
  unfold bind, time_Since. destruct (_ <? _); [|exact Hre].
  exists []. destruct (Hcopy cached w) as [Hc Hs].
  destruct (DeepCopy cached w) as [[c|e] w1]; simpl in *;
    rewrite app_nil_r; (split; [exact Hc | split; [constructor | exact Hs]]).
Qed.

(** X23. Only scale-up and node deletion can change the instances.  Every
    other operation of the adapter (listing the groups, group for node, target
    size, decrease of the target size, instance report, template, options,
    refresh, cleanup, the GPU and pricing stubs) leaves the backend with the
    instances it had and sends no creation or deletion request, whatever it
    answers.  All of them but refresh and the template operation leave the
    directory as it is, and so do scale-up and node deletion. *)
Theorem only_scaling_and_deletion_touch_instances
    (Marshal : apiv1.Node -> result string) (Options : Type)
    (p : OpenStackProvider) (w : World) :
  (forall order, instances_untouched w (grpc.NodeGroups order p w))
  /\ (forall order node, instances_untouched w (grpc.NodeGroupForNode order node p w))
  /\ (forall id, instances_untouched w (grpc.NodeGroupTargetSize id p w))
  /\ (forall id delta,
        instances_untouched w (grpc.NodeGroupDecreaseTargetSize id delta p w))
  /\ (forall id, instances_untouched w (grpc.NodeGroupNodes id p w))
  /\ (forall id, instances_untouched w (grpc.NodeGroupTemplateNodeInfo Marshal id p w))
  /\ (forall id defaults,
        instances_untouched w (grpc.NodeGroupGetOptions Options id defaults p w))
  /\ instances_untouched w (grpc.Refresh p w)
  /\ instances_untouched w (grpc.Cleanup p w)
  /\ instances_untouched w (grpc.GPULabel p w)
  /\ instances_untouched w (grpc.GetAvailableGPUTypes p w)
  /\ instances_untouched w (grpc.PricingNodePrice p w)
  /\ instances_untouched w (grpc.PricingPodPrice p w)
  /\ (forall order node, snd (fst (grpc.NodeGroupForNode order node p w)) = p)
  /\ (forall id, snd (fst (grpc.NodeGroupTargetSize id p w)) = p)
  /\ (forall id delta, snd (fst (grpc.NodeGroupIncreaseSize id delta p w)) = p)
  /\ (forall id delta, snd (fst (grpc.NodeGroupDecreaseTargetSize id delta p w)) = p)
  /\ (forall id nodes, snd (fst (grpc.NodeGroupDeleteNodes id nodes p w)) = p)
  /\ (forall id, snd (fst (grpc.NodeGroupNodes id p w)) = p).
Proof.
  repeat match goal with |- _ /\ _ => split end;
    try solve [intros;
               unfold grpc.NodeGroups, grpc.Refresh, grpc.Cleanup, grpc.GPULabel,
                 grpc.GetAvailableGPUTypes, grpc.PricingNodePrice,
                 grpc.PricingPodPrice;
               simpl; apply untouched_same].
  - intros order node. unfold grpc.NodeGroupForNode.
    destruct node as [n|]; [|apply untouched_same].
    pose proof (untouched_of_query
                  (Provider.NodeGroupForNode order p (pb.ProviderID n)) w
                  (fun r => match r with
                            | Ok (Some ng) => Response (grpc.describe ng)
                            | _ => Response pb.empty_NodeGroup
                            end) p (query_only_NodeGroupForNode _ _ _)) as H.
    destruct (Provider.NodeGroupForNode order p (pb.ProviderID n) w)
      as [[[g|]|e] w1]; exact H.
  - intros id. unfold grpc.NodeGroupTargetSize.
    destruct (Provider.GetNodeGroup p id) as [ng|]; [|apply untouched_same].
    pose proof (untouched_of_query (TargetSize ng) w
                  (fun r => match r with
                            | Ok size => Response (to_int32 size)
                            | Err e => Status Internal "failed to get target size" (Some e)
                            end) p (query_only_TargetSize ng)) as H.
    destruct (TargetSize ng w) as [[n|e] w1]; exact H.
  - intros id delta. unfold grpc.NodeGroupDecreaseTargetSize.
    destruct (Provider.GetNodeGroup p id) as [ng|]; [|apply untouched_same].
    pose proof (untouched_of_query (DecreaseTargetSize ng delta) w
                  (fun r => match r with
                            | Ok _ => Response tt
                            | Err e =>
                                Status Internal "failed to decrease target size" (Some e)
                            end) p (query_only_DecreaseTargetSize ng delta)) as H.
    destruct (DecreaseTargetSize ng delta w) as [[[]|e] w1]; exact H.
  - intros id. unfold grpc.NodeGroupNodes.
    destruct (Provider.GetNodeGroup p id) as [ng|]; [|apply untouched_same].
    assert (Hq : query_only (Nodes ng)) by (unfold Nodes; auto with query).
    pose proof (untouched_of_query (Nodes ng) w
                  (fun r => match r with
                            | Ok l => Response (map grpc.to_instance l)
                            | Err e => Status Internal "failed to get nodes" (Some e)
                            end) p Hq) as H.
    destruct (Nodes ng w) as [[l|e] w1]; exact H.
  - intros id. unfold grpc.NodeGroupTemplateNodeInfo.
    destruct (Provider.GetNodeGroup p id) as [ng|]; [|apply untouched_same].
    destruct (TemplateNodeInfo_reads ng w) as (calls & Hc & F & Hs).
    assert (Hw : forall (r : reply string) q,
               instances_untouched w (r, q, snd (TemplateNodeInfo ng w))).
    { intros r q. unfold instances_untouched. simpl.
      rewrite (issued_app _ _ _ Hc), (creates_queries _ F).
      split; [exact Hs|]. split; [reflexivity|].
      apply (scale_up_calls_no_delete ng). apply scale_up_calls_queries. exact F. }
    destruct (TemplateNodeInfo ng w) as [[[copy ng1]|e] w1]; [|apply Hw].
    unfold bind, load, lift. simpl in Hw.
    destruct (w_heap w1 !! copy) as [n|]; [destruct (Marshal n)|]; apply Hw.
  - intros id defaults. unfold grpc.NodeGroupGetOptions.
    destruct (Provider.GetNodeGroup p id); [destruct defaults|]; apply untouched_same.
  - intros order node. unfold grpc.NodeGroupForNode.
    destruct node as [n|]; [|reflexivity].
    destruct (Provider.NodeGroupForNode order p (pb.ProviderID n) w)
      as [[[g|]|e] w1]; reflexivity.
  - intros id. unfold grpc.NodeGroupTargetSize.
    destruct (Provider.GetNodeGroup p id) as [ng|]; [|reflexivity].
    destruct (TargetSize ng w) as [[n|e] w1]; reflexivity.
  - intros id delta. unfold grpc.NodeGroupIncreaseSize.
    destruct (Provider.GetNodeGroup p id) as [ng|]; [|reflexivity].
    destruct (IncreaseSize ng delta w) as [[[]|e] w1]; reflexivity.
  - intros id delta. unfold grpc.NodeGroupDecreaseTargetSize.
    destruct (Provider.GetNodeGroup p id) as [ng|]; [|reflexivity].
    destruct (DecreaseTargetSize ng delta w) as [[[]|e] w1]; reflexivity.
  - intros id nodes. unfold grpc.NodeGroupDeleteNodes.
    destruct (Provider.GetNodeGroup p id) as [ng|]; [|reflexivity].
    destruct (DeleteNodes ng (map grpc.to_node nodes) w) as [[[]|e] w1]; reflexivity.
  - intros id. unfold grpc.NodeGroupNodes.
    destruct (Provider.GetNodeGroup p id) as [ng|]; [|reflexivity].
    destruct (Nodes ng w) as [[l|e] w1]; reflexivity.
Qed.

(** ** Listing the groups *)

(** X24. The groups operation lists the directory.  In a directory whose
    groups sit under their own ids, it answers with one entry per registered
    id it visits, in the order of the visit and under that id, each entry the
    description of the group registered there; ids that are not registered
    are skipped, and neither the directory nor the world changes. *)
Theorem NodeGroups_lists_directory
    (order : list string) (p : OpenStackProvider) (w : World) :
  directory_ok p ->
  exists l,
    grpc.NodeGroups order p w = (Response l, p, w)
    /\ map pb.Id l
       = List.filter (fun k => match nodeGroups p !! k with
                               | Some _ => true
                               | None => false
                               end) order
    /\ (Forall (fun k => is_Some (nodeGroups p !! k)) order -> map pb.Id l = order)
    /\ Forall (fun g => exists ng, nodeGroups p !! pb.Id g = Some ng
                                   /\ g = grpc.describe ng) l.
Proof.
  intros Hp. unfold grpc.NodeGroups, Provider.GetNodeGroups, Provider.range_groups.
  eexists. split; [reflexivity|].
  assert (Hids : map pb.Id (map grpc.describe (omap (fun k => nodeGroups p !! k) order))
                 = List.filter (fun k => match nodeGroups p !! k with
                                         | Some _ => true
                                         | None => false
                                         end) order).
  { induction order as [|k order IH]; [reflexivity|]. simpl.
    destruct (nodeGroups p !! k) as [g|] eqn:E; simpl; [|exact IH].
    destruct (Hp k g E) as [Hid _]. f_equal; [exact Hid | exact IH]. }
  split; [exact Hids|]. split.
  - intros Hall. rewrite Hids. apply List.forallb_filter_id. apply List.forallb_forall.
    intros k Hk. rewrite List.Forall_forall in Hall.
    destruct (Hall k Hk) as [g ->]. reflexivity.
  - clear Hids. induction order as [|k order IH]; [constructor|]. simpl.
    destruct (nodeGroups p !! k) as [g|] eqn:E; simpl; [|exact IH].
    constructor; [|exact IH]. exists g. destruct (Hp k g E) as [Hid _].
    change (pb.Id (grpc.describe g)) with (ID g). rewrite Hid.
    split; [exact E | reflexivity].
Qed.

Lemma NodeGroups_lists_directory_witness :
  exists l, grpc.NodeGroups ["g0"; "g1"] Scenario.only_g1 Scenario.two_active
            = (Response l, Scenario.only_g1, Scenario.two_active)
            /\ map pb.Id l = ["g1"].
Proof.
  assert (Hok : directory_ok Scenario.only_g1).
  { intros k g H. unfold Scenario.only_g1 in H. simpl in H.
    apply lookup_singleton_Some in H as [<- <-].
    split; [reflexivity|]. unfold valid_config, is_set. simpl.
    repeat split; try discriminate; try lia. left. discriminate. }
  destruct (NodeGroups_lists_directory ["g0"; "g1"] Scenario.only_g1
                                       Scenario.two_active Hok)
    as (l & H1 & H2 & _).
  exists l. split; [exact H1 | exact H2].
Defined.

(** ** Requests to lower the target do not add up *)

Lemma DecreaseTargetSize_healthy (ng : OpenStackNodeGroup) (delta : Z) (w : World) :
  healthy w ->
  DecreaseTargetSize ng delta w
  = if delta >=? 0 then (Err (ErrDeltaNotNegative delta), w)
    else (if int_add (target_count ng (w_servers w)) delta <? MinSize ng
          then Err (ErrBelowMinSize (int_add (target_count ng (w_servers w)) delta)
                                    (MinSize ng))
          else Ok tt,
          set_calls (w_calls w ++ [CallServersList]) w).
Proof.
  intros Hh. unfold DecreaseTargetSize, MinSize. destruct (delta >=? 0); [reflexivity|].
  unfold bind, wrapf. rewrite TargetSize_eq, Hh. simpl.
  destruct (_ <? _); reflexivity.
Qed.

(** X25. [DecreaseTargetSize] keeps no record of what it accepted.  On a
    backend that serves every request, the answer to a request is the same
    whether or not another decrease came before it, and the target size is
    what it was: with the group one above [MinSize], a decrease by one is
    accepted every time it is asked, though the instances are never fewer. *)
Theorem DecreaseTargetSize_requests_do_not_add_up
    (ng : OpenStackNodeGroup) (d1 d2 : Z) (w : World) :
  healthy w ->
  fst (DecreaseTargetSize ng d2 (snd (DecreaseTargetSize ng d1 w)))
  = fst (DecreaseTargetSize ng d2 w)
  /\ target_count ng (w_servers (snd (DecreaseTargetSize ng d1 w)))
     = target_count ng (w_servers w)
  /\ (target_count ng (w_servers w) = MinSize ng + 1 ->
      in_int (MinSize ng) ->
      fst (DecreaseTargetSize ng (-1) w) = Ok tt
      /\ fst (DecreaseTargetSize ng (-1) (snd (DecreaseTargetSize ng (-1) w))) = Ok tt).
Proof.
  intros Hh.
  assert (Hh1 : healthy (snd (DecreaseTargetSize ng d1 w))).
  { destruct (query_only_DecreaseTargetSize ng d1 w) as (c & -> & _). exact Hh. }
  assert (Hs : forall d, w_servers (snd (DecreaseTargetSize ng d w)) = w_servers w).
  { intros d. apply (query_only_frame _ w (query_only_DecreaseTargetSize ng d)). }
  assert (Hsame : forall d0 d,
             fst (DecreaseTargetSize ng d (snd (DecreaseTargetSize ng d0 w)))
             = fst (DecreaseTargetSize ng d w)).
  { intros d0 d.
    assert (Hh0 : healthy (snd (DecreaseTargetSize ng d0 w))).
    { destruct (query_only_DecreaseTargetSize ng d0 w) as (c & -> & _). exact Hh. }
    rewrite (DecreaseTargetSize_healthy ng d _ Hh0), (Hs d0).
    rewrite (DecreaseTargetSize_healthy ng d w Hh).
    destruct (d >=? 0); [reflexivity|]. reflexivity. }
  split; [apply Hsame|]. split; [rewrite Hs; reflexivity|].
  intros Hone Hmin.
  assert (Hacc : fst (DecreaseTargetSize ng (-1) w) = Ok tt).
  { rewrite (DecreaseTargetSize_healthy ng (-1) w Hh). simpl.
    rewrite Hone, int_add_exact
      by (unfold in_int, min_int, max_int in *; lia).
    destruct (Z.ltb_spec (MinSize ng + 1 + -1) (MinSize ng)); [lia | reflexivity]. }
  split; [exact Hacc | rewrite Hsame; exact Hacc].
Qed.

Lemma DecreaseTargetSize_requests_do_not_add_up_witness :
  fst (DecreaseTargetSize Scenario.g1 (-1)
         (snd (DecreaseTargetSize Scenario.g1 (-1) Scenario.two_active))) = Ok tt.
Proof.
  exact (proj2 (proj2 (proj2 (DecreaseTargetSize_requests_do_not_add_up
                                Scenario.g1 (-1) (-1) Scenario.two_active
                                (fun _ => eq_refl)))
                      eq_refl ltac:(vm_compute; split; discriminate))).
Defined.

(** ** Deletion only removes *)

Lemma deleteNode_servers (ng : OpenStackNodeGroup) (node : apiv1.Node) (w : World) :
  w_servers (snd (deleteNode ng node w)) = w_servers w
  \/ w_servers (snd (deleteNode ng node w))
     = List.filter (kept [server_id_of node]) (w_servers w).
Proof.
  destruct (deleteNode ng node w) as [[[]|e] w1] eqn:E.
  - right. apply deleteNode_ok in E as [_ ->]. simpl.
    apply List.filter_ext. intros s. unfold kept. simpl. rewrite orb_false_r. reflexivity.
  - left. unfold deleteNode in E. destruct (String.eqb _ _); [injection E as _ <-; reflexivity|].
    unfold wrapf, servers_Delete, bind, request in E. simpl in E.
    destruct (w_faults w _); simpl in E;
      try destruct (find_server _ _); simpl in E; try discriminate;
      injection E as _ <-; reflexivity.
Qed.

Lemma kept_app (ids1 ids2 : list string) (l : list servers.Server) :
  List.filter (kept ids2) (List.filter (kept ids1) l) = List.filter (kept (ids1 ++ ids2)) l.
Proof.
  rewrite filter_filter_and. apply List.filter_ext. intros s. unfold kept.
  rewrite List.existsb_app, negb_orb. reflexivity.
Qed.

Lemma target_count_filter_le (g : OpenStackNodeGroup) (f : servers.Server -> bool)
      (l : list servers.Server) :
  target_count g (List.filter f l) <= target_count g l.
Proof.
  unfold target_count. rewrite filter_filter_length.
  assert (H : (length (List.filter (fun x => f x && counted g x) l)
               <= length (List.filter (counted g) l))%nat).
  { induction l as [|x l IH]; simpl; [lia|].
    destruct (f x), (counted g x); simpl; lia. }
  lia.
Qed.

(** X26. [DeleteNodes] only ever removes, and only what it was given.
    Whatever it returns, the instances left are those the backend had minus
    the ones named by some of the references, so no instance appears, an
    instance no reference names stays, and no group's target size goes
    up. *)
Theorem DeleteNodes_only_removes
    (ng : OpenStackNodeGroup) (nodes : list apiv1.Node) (w : World) :
  exists ids,
    w_servers (snd (DeleteNodes ng nodes w)) = List.filter (kept ids) (w_servers w)
    /\ Forall (fun id => In id (map server_id_of nodes)) ids
    /\ (forall s, In s (w_servers w) ->
                  ~ In (servers.ID s) (map server_id_of nodes) ->
                  In s (w_servers (snd (DeleteNodes ng nodes w))))
    /\ (forall s, In s (w_servers (snd (DeleteNodes ng nodes w))) -> In s (w_servers w))
    /\ (forall g, target_count g (w_servers (snd (DeleteNodes ng nodes w)))
                  <= target_count g (w_servers w)).
Proof.
  assert (H : exists ids,
             w_servers (snd (DeleteNodes ng nodes w)) = List.filter (kept ids) (w_servers w)
             /\ Forall (fun id => In id (map server_id_of nodes)) ids).
  { revert w. induction nodes as [|n nodes IH]; intros w.
    - exists []. split; [|constructor]. simpl. symmetry.
      apply List.forallb_filter_id. apply List.forallb_forall. reflexivity.
    - simpl. unfold bind, wrapf.
      pose proof (deleteNode_servers ng n w) as Hd.
      destruct (deleteNode ng n w) as [[[]|e] w1]; simpl in Hd.
      + destruct (IH w1) as (ids & E & F). destruct Hd as [Hd|Hd]; rewrite E, Hd.
        * exists ids. split; [reflexivity|].
          eapply Forall_impl; [exact F|]. intros id Hin. right. exact Hin.
        * exists ([server_id_of n] ++ ids). split; [apply kept_app|].
          constructor; [left; reflexivity|].
          eapply Forall_impl; [exact F|]. intros id Hin. right. exact Hin.
      + simpl. destruct Hd as [Hd|Hd]; rewrite Hd.
        * exists []. split; [|constructor]. symmetry.
          apply List.forallb_filter_id. apply List.forallb_forall. reflexivity.
        * exists [server_id_of n]. split; [reflexivity|].
          constructor; [left; reflexivity | constructor]. }
  destruct H as (ids & E & F). exists ids.
  split; [exact E|]. split; [exact F|]. rewrite E. split; [|split].
  - intros s Hs Hno. apply List.filter_In. split; [exact Hs|].
    unfold kept. apply negb_true_iff.
    destruct (existsb (String.eqb (servers.ID s)) ids) eqn:X; [|reflexivity].
    exfalso. apply List.existsb_exists in X as (id & Hid & He).
    apply String.eqb_eq in He. rewrite List.Forall_forall in F.
    apply Hno. rewrite He. apply F. exact Hid.
  - intros s Hs. apply List.filter_In in Hs. tauto.
  - intros g. apply target_count_filter_le.
Qed.
